(** * TAR per-diem validation: a shallow embedding and its properties

    The development follows the JavaScript / Apps Script sources of the
    travel-authorization validator:

    - the utilities that the two builds share word for word ([average],
      [fetchPerDiemByCityState], [validateFormData],
      [calculateExpectedCosts]), from [updated/tar_build/utils.js] and the
      Apps Script [utils.gs];
    - module [Node]: [generateValidationReport] and [validateTarWithPerDiem]
      of the Node-compatible build, [updated/tar_build/utils.js], with the
      configuration [updated/config.js];
    - module [Gas]: [generateValidationReport] of the Apps Script build,
      [utils.gs], with the configuration [GAS/config.gs];
    - module [DocProc]: [cleanExtractedText], [normalizeDate] and
      [extractItineraryDataEnhanced] of [updated/document_processor.js];
      the basic [extractItineraryData] of [updated/tar_build/utils.js] and
      [utils.gs];
    - module [Bulk]: the aggregation of CSV records by TAR ID of
      [GAS/main.gs] ([aggregateByTarId]) and [updated/tar_build/client.js]
      ([processBulkRecords]);
    - modules [BulkTest] and [Client]: the CSV readers [parseCsvLine] and
      [readCsv] of [GAS/main.gs], [splitCsvLine] and [parseCsv] of
      [updated/tar_build/client.js]; the grouping loop of
      [aggregateByTarId]; the mappings [mapAggregatedRecord] and
      [mapRecordToTarData];
    - modules [DocQuality] and [GasDoc]: [validateExtractionQuality] of the
      two document processors and [cleanExtractedText] of
      [GAS/document_processor.gs]; [extractFromNextLines] of
      [updated/document_processor.js];
    - [getPerDiemRates], module [GasMain] ([validateTarWithPerDiem] of
      [GAS/main.gs]) and module [ClientOffline] ([offlineValidateTar] of
      [updated/tar_build/client.js]).

    Definitions come first, the vocabulary of the statements next, then the
    lemmas and theorems.

    Modelling conventions.
    - A JavaScript string is a list of code units; only the code units
      0..255 are represented ([ascii]). [toUpperCase] turns the sharp s
      (223) into the two code units of "SS", as the runtime does. The
      upper-case forms of 181 and 255 are the code units 924 and 376, which
      [ascii] does not have: they are written 181 and 255 in an upper-case
      text, and no statement depends on their value.
    - A JavaScript number is [NaN], an infinity or an exact rational: the
      rounding, overflow and signed zero of IEEE doubles are not modelled.
    - Services of the host (the rate lookup over HTTP, the clock, the
      date parser of the runtime) are parameters of the functions that
      call them. *)

From Stdlib Require Import Bool List Arith ZArith QArith Qround Qabs Qpower Lia Lqa.
From Stdlib Require Import Ascii String Permutation.
From Stdlib Require Qcanon.
From Stdlib Require Import DecimalString.
Import ListNotations.

Set Implicit Arguments.
Local Open Scope list_scope.
Local Close Scope Q_scope.

(* ================================================================== *)
(** * Strings *)
(* ================================================================== *)

(** A JavaScript string, as the list of its code units. *)
Definition jstring := list ascii.

(** String literals of the sources are written [str "..."]. *)
Definition str (s : string) : jstring := list_ascii_of_string s.

Definition code (c : ascii) : nat := nat_of_ascii c.

Definition ch (c : ascii) (d : ascii) : bool := Ascii.eqb c d.

Fixpoint jeqb (s t : jstring) : bool :=
  match s, t with
  | [], [] => true
  | a :: s', b :: t' => Ascii.eqb a b && jeqb s' t'
  | _, _ => false
  end.

(** [\d] *)
Definition is_digit (c : ascii) : bool :=
  (48 <=? code c) && (code c <=? 57).

(** [\s]: tab, line feed, vertical tab, form feed, carriage return, space
    and the no-break space (the white space and line terminators below 256). *)
Definition is_space (c : ascii) : bool :=
  let n := code c in
  ((9 <=? n) && (n <=? 13)) || (n =? 32) || (n =? 160).

Definition is_upper (c : ascii) : bool := (65 <=? code c) && (code c <=? 90).
Definition is_lower (c : ascii) : bool := (97 <=? code c) && (code c <=? 122).

(** [\w] *)
Definition is_word (c : ascii) : bool :=
  is_digit c || is_upper c || is_lower c || (code c =? 95).

Definition is_newline (c : ascii) : bool := (code c =? 10) || (code c =? 13).

(** [String.prototype.trim] *)
Fixpoint trimStart (s : jstring) : jstring :=
  match s with
  | c :: s' => if is_space c then trimStart s' else s
  | [] => []
  end.

Definition trimEnd (s : jstring) : jstring := rev (trimStart (rev s)).

Definition trim (s : jstring) : jstring := trimEnd (trimStart s).

(** [s.includes(c)] for a one-character needle. *)
Definition includes (c : ascii) (s : jstring) : bool := existsb (ch c) s.

(** [s.split(c)] for a one-character separator: the pieces between the
    occurrences of [c], never an empty list. *)
Fixpoint split (c : ascii) (s : jstring) : list jstring :=
  match s with
  | [] => [[]]
  | a :: s' =>
      if ch c a then [] :: split c s'
      else match split c s' with
           | p :: ps => (a :: p) :: ps
           | [] => [[a]]
           end
  end.

(** [s.padStart(2, "0")] *)
Definition padStart2 (s : jstring) : jstring :=
  match s with
  | [] => str "00"
  | [a] => "0"%char :: [a]
  | _ => s
  end.

(** The sharp s, code unit 223. *)
Definition SHARP_S : ascii := "223"%char.

(** The upper-case form of a code unit: the letters a-z and the accented
    letters 224..254 (the division sign 247 apart) move down by 32, and the
    sharp s becomes the two code units "SS". The upper-case forms of 181
    (the micro sign) and 255 (y with diaeresis) are the code units 924 and
    376, beyond the code units of [ascii]: no upper-case text holds 181 or
    255, and in an upper-case text [ascii] 181 stands for 924 and [ascii]
    255 for 376. *)
Definition upcase (c : ascii) : jstring :=
  let n := code c in
  if ch SHARP_S c then str "SS"
  else if is_lower c || ((224 <=? n) && (n <=? 254) && negb (n =? 247))
  then [ascii_of_nat (n - 32)] else [c].

(** [String.prototype.toUpperCase] *)
Definition toUpperCase (s : jstring) : jstring := flat_map upcase s.

(** [s.substring(0, n)] *)
Definition substring0 (n : nat) (s : jstring) : jstring := firstn n s.

(* ================================================================== *)
(** * Regular expressions used by [RegExp.prototype.test] *)
(* ================================================================== *)

Inductive regex : Type :=
| Never : regex
| Eps : regex
| Cls : (ascii -> bool) -> regex
| Seq : regex -> regex -> regex
| Alt : regex -> regex -> regex
| Star : regex -> regex.

(** The words of a regular expression. *)
Inductive matches : regex -> jstring -> Prop :=
| MEps : matches Eps []
| MCls : forall p c, p c = true -> matches (Cls p) [c]
| MSeq : forall r1 r2 s1 s2,
    matches r1 s1 -> matches r2 s2 -> matches (Seq r1 r2) (s1 ++ s2)
| MAltL : forall r1 r2 s, matches r1 s -> matches (Alt r1 r2) s
| MAltR : forall r1 r2 s, matches r2 s -> matches (Alt r1 r2) s
| MStar0 : forall r, matches (Star r) []
| MStarS : forall r s1 s2,
    matches r s1 -> matches (Star r) s2 -> matches (Star r) (s1 ++ s2).

Fixpoint nullable (r : regex) : bool :=
  match r with
  | Never => false
  | Eps => true
  | Cls _ => false
  | Seq r1 r2 => nullable r1 && nullable r2
  | Alt r1 r2 => nullable r1 || nullable r2
  | Star _ => true
  end.

(** The derivative of [r] by the character [c]. *)
Fixpoint deriv (c : ascii) (r : regex) : regex :=
  match r with
  | Never => Never
  | Eps => Never
  | Cls p => if p c then Eps else Never
  | Seq r1 r2 =>
      if nullable r1 then Alt (Seq (deriv c r1) r2) (deriv c r2)
      else Seq (deriv c r1) r2
  | Alt r1 r2 => Alt (deriv c r1) (deriv c r2)
  | Star r1 => Seq (deriv c r1) (Star r1)
  end.

(** Whether the whole of [s] is a word of [r]. *)
Fixpoint accepts (r : regex) (s : jstring) : bool :=
  match s with
  | [] => nullable r
  | c :: s' => accepts (deriv c r) s'
  end.

Definition Opt (r : regex) : regex := Alt Eps r.

(** [r{n}] *)
Fixpoint Rep (n : nat) (r : regex) : regex :=
  match n with
  | O => Eps
  | S n' => Seq r (Rep n' r)
  end.

(** [r{0,n}] *)
Fixpoint UpTo (n : nat) (r : regex) : regex :=
  match n with
  | O => Eps
  | S n' => Opt (Seq r (UpTo n' r))
  end.

(** [r{lo,hi}] *)
Definition Range (lo hi : nat) (r : regex) : regex :=
  Seq (Rep lo r) (UpTo (hi - lo) r).

Definition Chr (c : ascii) : regex := Cls (ch c).
Definition Digit : regex := Cls is_digit.
Definition AnyChar : regex := Cls (fun _ => true).

(** [/^r$/.test(s)] *)
Definition test_anchored (r : regex) (s : jstring) : bool := accepts r s.

(** [/r/.test(s)]: some substring of [s] is a word of [r]. *)
Definition test_search (r : regex) (s : jstring) : bool :=
  accepts (Seq (Star AnyChar) (Seq r (Star AnyChar))) s.

(* ================================================================== *)
(** * Numbers *)
(* ================================================================== *)

(** A JavaScript number: not-a-number, an infinity ([true] for the negative
    one) or a finite value. Finite values are exact rationals kept in lowest
    terms by every operation. *)
Inductive number : Type :=
| NaN : number
| Inf : bool -> number
| Fin : Q -> number.

Definition num (z : Z) : number := Fin (inject_Z z).

Definition qneg (q : Q) : bool := negb (Qle_bool 0 q).
Definition qzero (q : Q) : bool := Qeq_bool q 0.

Definition isNaN (x : number) : bool :=
  match x with NaN => true | _ => false end.

(** Truthiness of a number: [NaN] and zero are falsy. *)
Definition ntruthy (x : number) : bool :=
  match x with
  | NaN => false
  | Inf _ => true
  | Fin q => negb (qzero q)
  end.

Definition nneg (x : number) : number :=
  match x with
  | NaN => NaN
  | Inf s => Inf (negb s)
  | Fin q => Fin (Qred (Qopp q))
  end.

Definition nadd (x y : number) : number :=
  match x, y with
  | NaN, _ | _, NaN => NaN
  | Inf s, Inf t => if Bool.eqb s t then Inf s else NaN
  | Inf s, Fin _ => Inf s
  | Fin _, Inf t => Inf t
  | Fin a, Fin b => Fin (Qred (Qplus a b))
  end.

Definition nsub (x y : number) : number := nadd x (nneg y).

Definition nmul (x y : number) : number :=
  match x, y with
  | NaN, _ | _, NaN => NaN
  | Inf s, Inf t => Inf (xorb s t)
  | Inf s, Fin b => if qzero b then NaN else Inf (xorb s (qneg b))
  | Fin a, Inf t => if qzero a then NaN else Inf (xorb (qneg a) t)
  | Fin a, Fin b => Fin (Qred (Qmult a b))
  end.

(** Division; a finite non-zero value over zero is the infinity of the
    sign of the dividend (the divisor is taken as positive zero). *)
Definition ndiv (x y : number) : number :=
  match x, y with
  | NaN, _ | _, NaN => NaN
  | Inf _, Inf _ => NaN
  | Inf s, Fin b => Inf (xorb s (qneg b))
  | Fin _, Inf _ => Fin 0
  | Fin a, Fin b =>
      if qzero b then (if qzero a then NaN else Inf (qneg a))
      else Fin (Qred (Qdiv a b))
  end.

(** [Math.abs] *)
Definition nabs (x : number) : number :=
  match x with
  | NaN => NaN
  | Inf _ => Inf false
  | Fin q => Fin (Qred (Qabs q))
  end.

(** [x <= y], [x < y], [x > y]: false as soon as an operand is [NaN]. *)
Definition nle (x y : number) : bool :=
  match x, y with
  | NaN, _ | _, NaN => false
  | Inf s, Inf t => s || negb t
  | Inf s, Fin _ => s
  | Fin _, Inf t => negb t
  | Fin a, Fin b => Qle_bool a b
  end.

Definition nlt (x y : number) : bool :=
  match x, y with
  | NaN, _ | _, NaN => false
  | _, _ => negb (nle y x)
  end.

Definition ngt (x y : number) : bool := nlt y x.

(** [x === y] on numbers. *)
Definition nstrict_eq (x y : number) : bool :=
  match x, y with
  | Fin a, Fin b => Qeq_bool a b
  | Inf s, Inf t => Bool.eqb s t
  | _, _ => false
  end.

(** [a || b] on numbers. *)
Definition nor_else (a b : number) : number := if ntruthy a then a else b.

Definition of_nat (n : nat) : number := num (Z.of_nat n).

(* ================================================================== *)
(** * Numeric literals: [parseFloat], [parseInt], [Number(...)] *)
(* ================================================================== *)

(** The longest prefix of [s] whose characters satisfy [p], and the rest. *)
Fixpoint span (p : ascii -> bool) (s : jstring) : jstring * jstring :=
  match s with
  | c :: s' =>
      if p c then let (a, b) := span p s' in (c :: a, b) else ([], s)
  | [] => ([], [])
  end.

Definition digit_val (c : ascii) : Z := Z.of_nat (code c - 48).

(** The value of a sequence of decimal digits. *)
Definition digits_val (ds : jstring) : Z :=
  fold_left (fun acc c => (acc * 10 + digit_val c)%Z) ds 0%Z.

(** [mant * 10 ^ e], in lowest terms. *)
Definition scale10 (mant e : Z) : Q :=
  Qred (Qmult (inject_Z mant) (Qpower (inject_Z 10) e)).

(** The value of the decimal literal with integer digits [ip], fraction
    digits [fp] and exponent [e]. *)
Definition decimal_val (ip fp : jstring) (e : Z) : Q :=
  scale10 (digits_val (ip ++ fp)) (e - Z.of_nat (List.length fp)).

(** ExponentPart, when one is there: [e] or [E], a sign, digits. *)
Definition scanExponent (r : jstring) : Z * jstring :=
  match r with
  | e :: r1 =>
      if ch "e" e || ch "E" e then
        let '(neg, r2) :=
          match r1 with
          | c :: r2 =>
              if ch "+" c then (false, r2)
              else if ch "-" c then (true, r2) else (false, r1)
          | [] => (false, r1)
          end in
        let (ds, r3) := span is_digit r2 in
        match ds with
        | [] => (0%Z, r)
        | _ => ((if neg then - digits_val ds else digits_val ds)%Z, r3)
        end
      else (0%Z, r)
  | [] => (0%Z, r)
  end.

(** The longest prefix that is an unsigned decimal literal
    ([digits], [digits.digits], [digits.], [.digits], each with an optional
    exponent), with its value and the rest of the string. *)
Definition scanUnsigned (s : jstring) : option (Q * jstring) :=
  let (ip, r1) := span is_digit s in
  match r1 with
  | d :: r2 =>
      if ch "." d then
        let (fp, r3) := span is_digit r2 in
        match ip, fp with
        | [], [] => None
        | _, _ => let (e, r4) := scanExponent r3 in Some (decimal_val ip fp e, r4)
        end
      else
        match ip with
        | [] => None
        | _ => let (e, r4) := scanExponent r1 in Some (decimal_val ip [] e, r4)
        end
  | [] =>
      match ip with
      | [] => None
      | _ => Some (decimal_val ip [] 0, [])
      end
  end.

Fixpoint strip_prefix (p s : jstring) : option jstring :=
  match p, s with
  | [], _ => Some s
  | a :: p', b :: s' => if Ascii.eqb a b then strip_prefix p' s' else None
  | _ :: _, [] => None
  end.

(** [Infinity] or an unsigned decimal literal. *)
Definition scanMagnitude (s : jstring) : option (number * jstring) :=
  match strip_prefix (str "Infinity") s with
  | Some r => Some (Inf false, r)
  | None =>
      match scanUnsigned s with
      | Some (q, r) => Some (Fin q, r)
      | None => None
      end
  end.

(** The longest prefix that is a StrDecimalLiteral: an optional sign and a
    magnitude. *)
Definition scanStrDecimal (s : jstring) : option (number * jstring) :=
  match s with
  | c :: s' =>
      if ch "+" c then scanMagnitude s'
      else if ch "-" c then
        match scanMagnitude s' with
        | Some (x, r) => Some (nneg x, r)
        | None => None
        end
      else scanMagnitude s
  | [] => None
  end.

(** [parseFloat(s)] for a string [s]. *)
Definition parseFloat_str (s : jstring) : number :=
  match scanStrDecimal (trimStart s) with
  | Some (x, _) => x
  | None => NaN
  end.

(** The value of a character as a digit of a radix up to 16. *)
Definition hex_val (c : ascii) : option Z :=
  if is_digit c then Some (digit_val c)
  else if (97 <=? code c) && (code c <=? 102) then Some (Z.of_nat (code c - 87))
  else if (65 <=? code c) && (code c <=? 70) then Some (Z.of_nat (code c - 55))
  else None.

Definition is_radix_digit (radix : Z) (c : ascii) : bool :=
  match hex_val c with
  | Some v => (v <? radix)%Z
  | None => false
  end.

Definition radix_val (radix : Z) (ds : jstring) : Z :=
  fold_left
    (fun acc c => (acc * radix + match hex_val c with Some v => v | None => 0 end)%Z)
    ds 0%Z.

(** A NonDecimalIntegerLiteral: [0x], [0o] or [0b] and digits, nothing else. *)
Definition nonDecimalLiteral (s : jstring) : option Z :=
  match s with
  | z :: x :: ds =>
      if ch "0" z then
        let radix :=
          if ch "x" x || ch "X" x then Some 16%Z
          else if ch "o" x || ch "O" x then Some 8%Z
          else if ch "b" x || ch "B" x then Some 2%Z
          else None in
        match radix, ds with
        | Some rd, _ :: _ =>
            if forallb (is_radix_digit rd) ds then Some (radix_val rd ds) else None
        | _, _ => None
        end
      else None
  | _ => None
  end.

(** [Number(s)], the conversion of a string to a number: the trimmed string
    must be empty (zero) or a numeric literal as a whole. *)
Definition ToNumber_str (s : jstring) : number :=
  let t := trim s in
  match t with
  | [] => num 0
  | _ =>
      match nonDecimalLiteral t with
      | Some z => num z
      | None =>
          match scanStrDecimal t with
          | Some (x, []) => x
          | _ => NaN
          end
      end
  end.

(** [parseInt(s)] and [parseInt(s, 10)] for a string [s]; [hex] tells
    whether a [0x] prefix is recognised (it is when no radix is given). *)
Definition parseInt_str (hex : bool) (s : jstring) : number :=
  let t := trimStart s in
  let '(neg, u) :=
    match t with
    | c :: t' =>
        if ch "-" c then (true, t') else if ch "+" c then (false, t') else (false, t)
    | [] => (false, t)
    end in
  let '(radix, v) :=
    match u with
    | z :: x :: w =>
        if hex && ch "0" z && (ch "x" x || ch "X" x) then (16%Z, w) else (10%Z, u)
    | _ => (10%Z, u)
    end in
  let (ds, _) := span (is_radix_digit radix) v in
  match ds with
  | [] => NaN
  | _ => let n := radix_val radix ds in num (if neg then - n else n)
  end.

(* ================================================================== *)
(** * Printing numbers: [toFixed(2)] and [String(n)] *)
(* ================================================================== *)

(** The decimal digits of a natural number. *)
Definition dec (n : Z) : jstring :=
  str (NilZero.string_of_uint (N.to_uint (Z.to_N n))).

Definition two_digits (n : Z) : jstring :=
  if (n <? 10)%Z then "0"%char :: dec n else dec n.

Definition ten21 : Q := inject_Z (10 ^ 21).

(** Whether a finite value prints as a plain integer. *)
Definition plain_integer (q : Q) : bool :=
  Qeq_bool (inject_Z (Qfloor q)) q && negb (Qle_bool ten21 (Qabs q)).

Section Printing.

(** The rendering, by the runtime, of a finite number that is not a plain
    integer below 10^21 (its shortest decimal or exponent form). *)
Variable numberString : Q -> jstring.

(** [String(x)] for a number. *)
Definition Number_toString (x : number) : jstring :=
  match x with
  | NaN => str "NaN"
  | Inf false => str "Infinity"
  | Inf true => str "-Infinity"
  | Fin q =>
      if plain_integer q then
        (if qneg q then str "-" else []) ++ dec (Z.abs (Qfloor q))
      else numberString q
  end.

(** [x.toFixed(2)]: the nearest multiple of 1/100, the larger one of two
    (on the absolute value), printed with two decimals. *)
Definition toFixed2 (x : number) : jstring :=
  match x with
  | Fin q =>
      if Qle_bool ten21 (Qabs q) then Number_toString x
      else
        let n := Qfloor (Qplus (Qmult (Qabs q) (inject_Z 100)) (1 # 2)) in
        (if qneg q then str "-" else [])
          ++ dec (n / 100) ++ str "." ++ two_digits (n mod 100)
  | _ => Number_toString x
  end.

End Printing.

(* ================================================================== *)
(** * Values and objects *)
(* ================================================================== *)

Section Values.

(** The type of the elements of an array held by a property. *)
Variable elem : Type.

Inductive value : Type :=
| VUndef : value
| VNull : value
| VBool : bool -> value
| VNum : number -> value
| VStr : jstring -> value
| VArr : list elem -> value.

(** An object: its properties, the first binding of a key being its
    value. *)
Definition obj := list (jstring * value).

(** [o[k]] *)
Fixpoint get (k : jstring) (o : obj) : value :=
  match o with
  | [] => VUndef
  | (k', v) :: o' => if jeqb k k' then v else get k o'
  end.

(** [o[k] = v] *)
Definition set (k : jstring) (v : value) (o : obj) : obj := (k, v) :: o.

(** [{...a, ...b}] (also [Object.assign({}, a, b)]): the properties of [b] win. *)
Definition spread (a b : obj) : obj := b ++ a.

(** Truthiness. *)
Definition truthy (v : value) : bool :=
  match v with
  | VUndef | VNull => false
  | VBool b => b
  | VNum x => ntruthy x
  | VStr s => match s with [] => false | _ => true end
  | VArr _ => true
  end.

Definition is_nullish (v : value) : bool :=
  match v with VUndef | VNull => true | _ => false end.

(** [a || b] *)
Definition or_else (a b : value) : value := if truthy a then a else b.

Variable numberString : Q -> jstring.

Fixpoint join_objects (n : nat) : jstring :=
  match n with
  | O => []
  | S O => str "[object Object]"
  | S n' => str "[object Object]," ++ join_objects n'
  end.

(** [String(v)]; an array of objects prints each element as
    [[object Object]]. *)
Definition ToString (v : value) : jstring :=
  match v with
  | VUndef => str "undefined"
  | VNull => str "null"
  | VBool true => str "true"
  | VBool false => str "false"
  | VNum x => Number_toString numberString x
  | VStr s => s
  | VArr l => join_objects (List.length l)
  end.

(** [Number(v)] *)
Definition ToNumber (v : value) : number :=
  match v with
  | VUndef => NaN
  | VNull => num 0
  | VBool true => num 1
  | VBool false => num 0
  | VNum x => x
  | VStr s => ToNumber_str s
  | VArr l => ToNumber_str (join_objects (List.length l))
  end.

(** [parseFloat(v)]: the argument is converted to a string first; a
    number is its own reading. *)
Definition parseFloat (v : value) : number :=
  match v with
  | VNum x => x
  | VStr s => parseFloat_str s
  | _ => NaN
  end.

End Values.

Arguments VUndef {elem}.
Arguments VNull {elem}.
Arguments VBool {elem} _.
Arguments VNum {elem} _.
Arguments VStr {elem} _.

(* ================================================================== *)
(** * Data model *)
(* ================================================================== *)

(** An itinerary stop; a property that was never set is [None]. *)
Record stop : Type := mkStop {
  date : option jstring;
  city : option jstring;
  state : option jstring
}.

Definition jvalue := value stop.
Definition jobj := obj stop.

(** The text of an optional string in a template literal. *)
Definition opt_text (o : option jstring) : jstring :=
  match o with Some s => s | None => str "undefined" end.

Definition opt_truthy (o : option jstring) : bool :=
  match o with Some (_ :: _) => true | _ => false end.

Definition opt_value (o : option jstring) : jvalue :=
  match o with Some s => VStr s | None => VUndef end.

Record CostBreakdownItem : Type := mkItem {
  location : jstring;
  item_date : jvalue;
  mie : number;
  lodging : number;
  total : number
}.

Record ExpectedCosts : Type := mkExpected {
  totalExpected : number;
  breakdown : list CostBreakdownItem
}.

Record Validation : Type := mkValidation {
  extractedData : jobj;
  expectedCosts : ExpectedCosts;
  claimedCost : number;
  variance : number;
  variancePercent : jstring;
  isWithinBuffer : bool;
  isWithinDeviation : bool
}.

Record ValidationReport : Type := mkReport {
  timestamp : jstring;
  traveler : jvalue;
  authorizationNumber : jvalue;
  validation : Validation;
  recommendations : list jstring
}.

(** The [CONFIG] object, as far as the functions below read it. *)
Record Config : Type := mkConfig {
  DEFAULT_MIE : number;
  DEFAULT_LODGING : number;
  COST_BUFFER : number;
  MAX_DEVIATION_PERCENT : number;
  requiredFields : list jstring;
  phoneFormat : regex;
  vendorCodeFormat : regex
}.

(** [VALIDATION_RULES.requiredFields], the same in every configuration. *)
Definition REQUIRED_FIELDS : list jstring :=
  [ str "travelerName"; str "travelPurpose"; str "estimatedCost";
    str "dutyStation"; str "contactNumber" ].

(** [/^E\d{8,9}$/] *)
Definition VENDOR_CODE_FORMAT : regex := Seq (Chr "E") (Range 8 9 Digit).

(** The services of the host that the validator calls. *)
Record Host : Type := mkHost {
  (** the GSA rate request for a cleaned city and state: the first rate
      object of a successful, non-empty response *)
  gsaLookup : jstring -> jstring -> option jobj;
  (** text extraction from the PDF followed by [extractGSAFormData];
      [None] when no text could be extracted *)
  pdfExtract : jvalue -> option jobj;
  (** [new Date().toISOString()] *)
  nowISO : jstring;
  (** the rendering of a number that is not a plain integer *)
  numberString : Q -> jstring
}.

(** [new Date().toISOString().split("T")[0]] *)
Definition today (h : Host) : jstring := hd [] (split "T" (nowISO h)).

(* ================================================================== *)
(** * Utilities shared by the two builds ([utils.js], [utils.gs]) *)
(* ================================================================== *)

(** The inner [parseRate] of [average] ([utils.js], lines 42-55;
    [utils.gs], lines 22-34). *)
Definition parseRate (v : jvalue) : number :=
  match v with
  | VUndef | VNull => NaN
  | _ =>
      let ranged :=
        match v with
        | VStr s =>
            if includes "-" s then
              match map (fun p => parseFloat_str (trim p)) (split "-" s) with
              | low :: high :: _ =>
                  if negb (isNaN low) && negb (isNaN high)
                  then Some (ndiv (nadd low high) (num 2))
                  else None
              | _ => None
              end
            else None
        | _ => None
        end in
      match ranged with
      | Some x => x
      | None => parseFloat v
      end
  end.

(** [average(values)] ([utils.js], lines 35-62; [utils.gs], lines 21-38). *)
Definition average (values : list jvalue) : number :=
  let nums := filter (fun n => negb (isNaN n)) (map parseRate values) in
  let total := fold_left nadd nums (num 0) in
  match nums with
  | [] => num 0
  | _ => ndiv total (of_nat (List.length nums))
  end.

Definition MONTHS : list jstring :=
  [ str "Jan"; str "Feb"; str "Mar"; str "Apr"; str "May"; str "Jun";
    str "Jul"; str "Aug"; str "Sep"; str "Oct"; str "Nov"; str "Dec" ].

(** [average([rate.Jan, ..., rate.Dec])] *)
Definition averageLodging (rate : jobj) : number :=
  average (map (fun m => get m rate) MONTHS).

(** [s.replace(/[.'-]/g, ' ')] *)
Definition cleanCity (s : jstring) : jstring :=
  map (fun c => if ch "." c || ch "'" c || ch "-" c then " "%char else c) s.

(** [s.replace(/[\s\-\(\)]/g, '')] *)
Definition stripSeparators (s : jstring) : jstring :=
  filter (fun c => negb (is_space c || ch "-" c || ch "(" c || ch ")" c)) s.

Section Utils.

Variable CONFIG : Config.
Variable host : Host.

(** [String(v)] with the host's rendering of numbers. *)
Definition ToStr (v : jvalue) : jstring := ToString (numberString host) v.

(** [fetchPerDiemByCityState(city, state)] ([utils.js], lines 67-124): the
    guard on the arguments, the cleaning of city and state, and the request,
    which is the host's. *)
Definition fetchPerDiemByCityState (c s : jvalue) : option jobj :=
  if negb (truthy c) || negb (truthy s) then None
  else gsaLookup host (cleanCity (trim (ToStr c))) (toUpperCase (trim (ToStr s))).

(** [validateFormData(data)] ([utils.js], lines 235-275; [utils.gs],
    lines 169-199): the errors of each check, in the order of the checks, and
    [isValid] as the emptiness of their list. *)
Definition requiredErrors (data : jobj) : list jstring :=
  flat_map
    (fun field =>
       let v := get field data in
       let isEmptyString :=
         match v with
         | VStr s => match trim s with [] => true | _ => false end
         | _ => false
         end in
       if is_nullish v || isEmptyString
       then [str "Missing required field: " ++ field] else [])
    (requiredFields CONFIG).

Definition vendorErrors (data : jobj) : list jstring :=
  let v := get (str "vendorCode") data in
  if truthy v then
    if negb (test_anchored (vendorCodeFormat CONFIG) (trim (ToStr v)))
    then [str "Invalid vendor code format"] else []
  else [].

Definition phoneErrors (data : jobj) : list jstring :=
  let v := get (str "contactNumber") data in
  if truthy v then
    if negb (test_anchored (phoneFormat CONFIG) (stripSeparators (ToStr v)))
    then [str "Invalid phone number format"] else []
  else [].

Definition costErrors (data : jobj) : list jstring :=
  let v := get (str "estimatedCost") data in
  if truthy v && (isNaN (ToNumber v) || nle (ToNumber v) (num 0))
  then [str "Invalid estimated cost"] else [].

Definition formErrors (data : jobj) : list jstring :=
  requiredErrors data ++ vendorErrors data ++ phoneErrors data ++ costErrors data.

Record FormValidation : Type := mkFormValidation {
  isValid : bool;
  errors : list jstring
}.

Definition validateFormData (data : jobj) : FormValidation :=
  let errs := formErrors data in
  mkFormValidation (match errs with [] => true | _ => false end) errs.

(** The rate of one location: [mie] and [lodging] from the rate object,
    the defaults when there is none. *)
Definition ratesOf (rateData : option jobj) : number * number :=
  match rateData with
  | Some rate =>
      (nor_else (parseFloat (get (str "Meals") rate)) (DEFAULT_MIE CONFIG),
       averageLodging rate)
  | None => (DEFAULT_MIE CONFIG, DEFAULT_LODGING CONFIG)
  end.

(** [calculateExpectedCosts(itinerary)] ([utils.js], lines 280-323). *)
Definition calculateExpectedCosts (itinerary : list stop) : ExpectedCosts :=
  fold_left
    (fun acc item =>
       let rateData :=
         fetchPerDiemByCityState (opt_value (city item)) (opt_value (state item)) in
       let (m, l) := ratesOf rateData in
       let dailyTotal := nadd m l in
       mkExpected
         (nadd (totalExpected acc) dailyTotal)
         (breakdown acc ++
            [mkItem (opt_text (city item) ++ str ", " ++ opt_text (state item))
                    (opt_value (date item)) m l dailyTotal]))
    itinerary
    (mkExpected (num 0) []).

End Utils.

(** [parseInt(v)]: the argument is converted to a string first. *)
Definition parseInt (h : Host) (hex : bool) (v : jvalue) : number :=
  parseInt_str hex (ToString (numberString h) v).

(** The recommendation texts of [generateValidationReport]. *)
Definition MSG_BUFFER : jstring :=
  str "Claimed cost exceeds expected amount by more than acceptable buffer".

Definition MSG_DEVIATION (percent : jstring) : jstring :=
  str "Variance of " ++ percent ++ str "% exceeds maximum acceptable deviation".

Definition MSG_NO_ITINERARY : jstring :=
  str "No itinerary data found - manual review required".

(** What [validateTarWithPerDiem] returns: the validation errors of the
    form, the report of a completed validation, or the result of the
    [catch] block. The decorated [message] text is left out. *)
Record TarSuccess : Type := mkTarSuccess {
  r_extractedData : jobj;
  r_validationReport : ValidationReport;
  r_warnings : list jstring;
  r_isValid : bool;
  r_expectedCost : jstring;
  r_claimedCost : jstring;
  r_duration : jvalue;
  r_variance : jstring;
  r_variancePercent : jstring;
  r_breakdown : list CostBreakdownItem
}.

Inductive TarResult : Type :=
| Rejected (extracted : jobj) (errs warns : list jstring)
| Validated (r : TarSuccess)
| SystemError.

(** [/^[\+]?[1-9][\d]{0,15}$/] *)
Definition PHONE_FORMAT_UPDATED : regex :=
  Seq (Opt (Chr "+"))
      (Seq (Cls (fun c => (49 <=? code c) && (code c <=? 57))) (Range 0 15 Digit)).

(** [/^[\+]?\d{7,15}$/] *)
Definition PHONE_FORMAT_GAS : regex := Seq (Opt (Chr "+")) (Range 7 15 Digit).

(* ================================================================== *)
(** * The Node-compatible build: [updated/tar_build/utils.js] *)
(* ================================================================== *)

Module Node.

(** The configuration of the updated build, [updated/config.js]. *)
Definition CONFIG : Config :=
  mkConfig (num 79) (num 150) (num 10) (num 15)
           REQUIRED_FIELDS PHONE_FORMAT_UPDATED VENDOR_CODE_FORMAT.

Section WithHost.

Variable host : Host.

(** [generateValidationReport(extractedData, expectedCosts, claimedCost)]
    ([utils.js], lines 338-387); [claimedCost] is the number the
    subtraction reads. *)
Definition generateValidationReport
    (extracted : jobj) (expected : ExpectedCosts) (claimed : number)
    : ValidationReport :=
  let te := totalExpected expected in
  let v :=
    mkValidation extracted expected claimed
      (nsub claimed te)
      (toFixed2 (numberString host)
         (nmul (ndiv (nsub claimed te) te) (num 100)))
      (nle (nabs (nsub claimed te)) (COST_BUFFER CONFIG))
      (nle (nmul (ndiv (nabs (nsub claimed te)) te) (num 100))
           (MAX_DEVIATION_PERCENT CONFIG)) in
  let r1 :=
    if ngt (variance v) (COST_BUFFER CONFIG) then [MSG_BUFFER] else [] in
  let r2 :=
    if ngt (nabs (ToNumber_str (variancePercent v)))
           (MAX_DEVIATION_PERCENT CONFIG)
    then [MSG_DEVIATION (variancePercent v)] else [] in
  let r3 :=
    match breakdown expected with
    | [] => [MSG_NO_ITINERARY]
    | _ => []
    end in
  mkReport (nowISO host)
    (or_else (get (str "travelerName") extracted) (VStr (str "Unknown")))
    (or_else (get (str "authorizationNumber") extracted) (VStr (str "N/A")))
    v (r1 ++ r2 ++ r3).

(** [if (!m[k] && m[alias]) m[k] = m[alias]] *)
Definition aliasField (k alias : jstring) (m : jobj) : jobj :=
  if negb (truthy (get k m)) && truthy (get alias m)
  then set k (get alias m) m else m.

Definition is_number (v : jvalue) : bool :=
  match v with VNum _ => true | _ => false end.

(** The merge of extracted and manual data and its canonical fields
    ([utils.js], lines 536-599). *)
Definition mergeData (extracted data : jobj) : jobj :=
  let m :=
    set (str "totalCost")
      (VNum (nor_else (parseFloat (get (str "totalCost") data)) (num 0)))
      (set (str "duration")
         (VNum (nor_else (parseInt host true (get (str "duration") data)) (num 1)))
         (spread extracted data)) in
  let m := aliasField (str "travelerName") (str "traveler") m in
  let m := aliasField (str "travelPurpose") (str "purpose") m in
  let m :=
    if negb (truthy (get (str "dutyStation") m))
       && truthy (get (str "city") m) && truthy (get (str "state") m)
    then set (str "dutyStation")
           (VStr (ToStr host (get (str "city") m) ++ str ", "
                    ++ ToStr host (get (str "state") m))) m
    else m in
  let m := aliasField (str "contactNumber") (str "poc") m in
  let m :=
    if negb (truthy (get (str "estimatedCost") m))
       && is_number (get (str "totalCost") m)
    then set (str "estimatedCost") (get (str "totalCost") m) m else m in
  let m :=
    match get (str "itinerary") m with
    | VArr (firstStop :: _) =>
        if negb (truthy (get (str "dutyStation") m))
           && opt_truthy (city firstStop) && opt_truthy (state firstStop)
        then set (str "dutyStation")
               (VStr (opt_text (city firstStop) ++ str ", "
                        ++ opt_text (state firstStop))) m
        else m
    | _ => m
    end in
  match get (str "dutyStation") m with
  | VStr ds =>
      if (negb (truthy (get (str "city") m)) || negb (truthy (get (str "state") m)))
         && includes "," ds
      then
        match split "," ds with
        | p0 :: p1 :: _ =>
            let cityPart := trim p0 in
            let statePart := toUpperCase (substring0 2 (trim p1)) in
            let m :=
              if negb (truthy (get (str "city") m))
              then set (str "city") (VStr cityPart) m else m in
            if negb (truthy (get (str "state") m))
            then set (str "state") (VStr statePart) m else m
        | _ => m
        end
      else m
  | _ => m
  end.

(** The expected costs of the duration mode, with the warning of a
    failed lookup ([utils.js], lines 615-658). *)
Definition durationCosts (m : jobj) : ExpectedCosts * list jstring :=
  let c := or_else (get (str "city") m) (VStr (str "Unknown")) in
  let s := or_else (get (str "state") m) (VStr (str "Unknown")) in
  let duration := ToNumber (get (str "duration") m) in
  let rateData := fetchPerDiemByCityState host c s in
  let (mi, avgLodging) := ratesOf CONFIG rateData in
  let dailyTotal := nadd mi avgLodging in
  (mkExpected (nmul dailyTotal duration)
     [mkItem (ToStr host c ++ str ", " ++ ToStr host s)
             (or_else (get (str "tripDate") m) (VStr (today host)))
             mi avgLodging dailyTotal],
   match rateData with
   | Some _ => []
   | None => [str "Unable to fetch GSA rates - using default values"]
   end).

(** The data extracted from the PDF, when one is given, and the
    warning of a failed extraction. *)
Definition extraction (data : jobj) : jobj * list jstring :=
  let pdf := get (str "pdfContent") data in
  if truthy pdf then
    match pdfExtract host pdf with
    | Some e => (e, [])
    | None => ([], [str "PDF extraction failed - using manual input"])
    end
  else ([], []).

(** [mergedData], as the validation and the cost calculation read it. *)
Definition merged (data : jobj) : jobj :=
  mergeData (fst (extraction data)) data.

(** The branch on [mergedData.itinerary]: the itinerary mode for a
    non-empty array, the duration mode otherwise; a non-empty string has
    a length but no [forEach], which throws. *)
Definition costsOf (m : jobj) : option (ExpectedCosts * list jstring) :=
  match get (str "itinerary") m with
  | VArr (i :: it) => Some (calculateExpectedCosts CONFIG host (i :: it), [])
  | VStr (_ :: _) => None
  | _ => Some (durationCosts m)
  end.

(** [validateTarWithPerDiem(data)] ([utils.js], lines 510-701). *)
Definition validateTarWithPerDiem (data : jobj) : TarResult :=
  let (extracted, warns) := extraction data in
  let m := merged data in
  let fv := validateFormData CONFIG host m in
  if negb (isValid fv) then Rejected extracted (errors fv) warns
  else
    let costs := costsOf m in
    match costs with
    | None => SystemError
    | Some (expected, warns') =>
        let totalCost := ToNumber (get (str "totalCost") m) in
        let report := generateValidationReport m expected totalCost in
        let v := validation report in
        Validated
          (mkTarSuccess extracted report (warns ++ warns')
             (isWithinBuffer v && isWithinDeviation v)
             (toFixed2 (numberString host) (totalExpected expected))
             (toFixed2 (numberString host) totalCost)
             (get (str "duration") m)
             (toFixed2 (numberString host) (variance v))
             (variancePercent v)
             (breakdown expected))
    end.

End WithHost.

End Node.

(* ================================================================== *)
(** * The Apps Script build: [utils.gs], [config.gs] *)
(* ================================================================== *)

Module Gas.

(** The configuration of the Apps Script build, [GAS/config.gs]. *)
Definition CONFIG : Config :=
  mkConfig (num 79) (num 150) (num 10) (num 15)
           REQUIRED_FIELDS PHONE_FORMAT_GAS VENDOR_CODE_FORMAT.

Section WithHost.

Variable host : Host.

(** [generateValidationReport(extractedData, expectedCosts, claimedCost)]
    ([utils.gs], lines 251-280). *)
Definition generateValidationReport
    (extracted : jobj) (expected : ExpectedCosts) (claimed : number)
    : ValidationReport :=
  let te := totalExpected expected in
  let var := nsub claimed te in
  let percent :=
    if nstrict_eq te (num 0) then num 0
    else nmul (ndiv var te) (num 100) in
  let v :=
    mkValidation extracted expected claimed var
      (toFixed2 (numberString host) percent)
      (nle (nabs var) (COST_BUFFER CONFIG))
      (nle (nabs percent) (MAX_DEVIATION_PERCENT CONFIG)) in
  let r1 := if negb (isWithinBuffer v) then [MSG_BUFFER] else [] in
  let r2 :=
    if negb (isWithinDeviation v)
    then [MSG_DEVIATION (variancePercent v)] else [] in
  let r3 :=
    match breakdown expected with
    | [] => [MSG_NO_ITINERARY]
    | _ => []
    end in
  mkReport (nowISO host)
    (or_else (get (str "travelerName") extracted) (VStr (str "Unknown")))
    (or_else (get (str "authorizationNumber") extracted) (VStr (str "N/A")))
    v (r1 ++ r2 ++ r3).

End WithHost.

End Gas.

(* ================================================================== *)
(** * The document processor: [updated/document_processor.js] *)
(* ================================================================== *)

Module DocProc.

(** The line feed and the carriage return. *)
Definition LF : ascii := "010"%char.
Definition CR : ascii := "013"%char.

(** [.replace(/\s+/g, " ")]; [in_run] tells that the previous character
    was white space, already replaced. *)
Fixpoint collapseWhitespace (in_run : bool) (s : jstring) : jstring :=
  match s with
  | [] => []
  | c :: s' =>
      if is_space c then
        (if in_run then [] else [" "%char]) ++ collapseWhitespace true s'
      else c :: collapseWhitespace false s'
  end.

(** What follows the last line feed of a run of white space, when the run
    has a line feed. *)
Fixpoint afterLastLF (run : jstring) : option jstring :=
  match run with
  | [] => None
  | c :: r =>
      match afterLastLF r with
      | Some t => Some t
      | None => if ch LF c then Some r else None
      end
  end.

(** [.replace(/\n\s*\n/g, "\n")]: at a line feed, the white space after
    it is consumed up to its last line feed. [fuel] bounds the number of
    characters looked at. *)
Fixpoint collapseBlankLinesFrom (fuel : nat) (s : jstring) : jstring :=
  match fuel with
  | O => s
  | S f =>
      match s with
      | [] => []
      | c :: s' =>
          if ch LF c then
            let (run, rest) := span is_space s' in
            match afterLastLF run with
            | Some t => LF :: collapseBlankLinesFrom f (t ++ rest)
            | None => c :: collapseBlankLinesFrom f s'
            end
          else c :: collapseBlankLinesFrom f s'
      end
  end.

Definition collapseBlankLines (s : jstring) : jstring :=
  collapseBlankLinesFrom (List.length s) s.

(** The characters that [/[^\w\s\$\.\,\(\)\-\:\/\&\#]/g] leaves in place. *)
Definition allowed (c : ascii) : bool :=
  is_word c || is_space c
  || existsb (ch c) (str "$.,()-:/&#").

Definition stripArtifacts (s : jstring) : jstring := filter allowed s.

(** [.replace(/\$\s+/g, "$")]; [after_dollar] tells that the white space
    read now follows a dollar sign. *)
Fixpoint tightenCurrency (after_dollar : bool) (s : jstring) : jstring :=
  match s with
  | [] => []
  | c :: s' =>
      if after_dollar && is_space c then tightenCurrency true s'
      else c :: tightenCurrency (ch "$" c) s'
  end.

(** [.replace(/[..](?=\d)/g, r)]: a character of the class [p] becomes
    [r] when a digit follows it. *)
Fixpoint fixBeforeDigit (p : ascii -> bool) (r : ascii) (s : jstring) : jstring :=
  match s with
  | [] => []
  | c :: s' =>
      (if p c && match s' with d :: _ => is_digit d | [] => false end
       then r else c) :: fixBeforeDigit p r s'
  end.

Definition isO (c : ascii) : bool := ch "O" c || ch "o" c.
Definition isI (c : ascii) : bool := ch "I" c || ch "l" c.
Definition isS (c : ascii) : bool := ch "S" c || ch "s" c.

(** [cleanExtractedText(text)] ([document_processor.js], lines 224-243). *)
Definition cleanExtractedText (text : jstring) : jstring :=
  match text with
  | [] => []
  | _ =>
      trim
        (fixBeforeDigit isS "5"
           (fixBeforeDigit isI "1"
              (fixBeforeDigit isO "0"
                 (tightenCurrency false
                    (stripArtifacts
                       (collapseBlankLines
                          (collapseWhitespace false text)))))))
  end.

(** The longest run of [[^\n\r]] at the start of [s], the capture of a
    field pattern ending in [([^\n\r]+)]. *)
Definition lineRun (s : jstring) : jstring :=
  fst (span (fun c => negb (is_newline c)) s).

(** [/\d{1,2}\/\d{1,2}\/\d{4}/] and [/\d{1,2}-\d{1,2}-\d{4}/] *)
Definition DATE_WITH (sep : ascii) : regex :=
  Seq (Range 1 2 Digit)
    (Seq (Chr sep) (Seq (Range 1 2 Digit) (Seq (Chr sep) (Rep 4 Digit)))).

(** The template [`${parts[2]}-${parts[0].padStart(2, "0")}-${parts[1].padStart(2, "0")}`] *)
Definition reorder (parts : list jstring) : jstring :=
  nth 2 parts [] ++ str "-" ++ padStart2 (nth 0 parts [])
    ++ str "-" ++ padStart2 (nth 1 parts []).

Section Dates.

(** Whether [new Date(s)] is a valid date for the runtime. *)
Variable dateParses : jstring -> bool.

(** [normalizeDate(dateString)] ([document_processor.js], lines 533-569);
    [None] is [null]. *)
Definition normalizeDate (dateString : jstring) : option jstring :=
  match dateString with
  | [] => None
  | _ =>
      let normalized := dateString in
      let normalized :=
        if test_search (DATE_WITH "/") dateString
        then reorder (split "/" dateString) else normalized in
      let normalized :=
        if test_search (DATE_WITH "-") dateString
        then reorder (split "-" dateString) else normalized in
      if negb (dateParses normalized) then Some dateString
      else Some normalized
  end.

(** The matchers of [extractItineraryDataEnhanced]: each section pattern
    gives the text it captures, each date pattern the captures of all
    its matches, each location pattern the two captures of all its
    matches. *)
Variable itinerarySectionPatterns : list (jstring -> option jstring).
Variable datePatterns : list (jstring -> list jstring).
Variable locationPatterns : list (jstring -> list (jstring * jstring)).
(** [extractItineraryFromGeneralText] *)
Variable extractItineraryFromGeneralText : jstring -> list stop.

Fixpoint firstMatch (A : Type) (pats : list (jstring -> option A)) (text : jstring)
    : option A :=
  match pats with
  | [] => None
  | p :: ps =>
      match p text with
      | Some x => Some x
      | None => firstMatch ps text
      end
  end.

(** The captures of the first pattern that has a match. *)
Fixpoint firstYield (A : Type) (pats : list (jstring -> list A)) (text : jstring)
    : list A :=
  match pats with
  | [] => []
  | p :: ps =>
      match p text with
      | [] => firstYield ps text
      | ms => ms
      end
  end.

(** The item built at index [i] of the combining loop. *)
Definition itemAt (dates : list jstring) (locations : list (jstring * jstring))
    (i : nat) : stop :=
  let d :=
    match nth_error dates i with
    | Some ds => normalizeDate ds
    | None => None
    end in
  let loc :=
    match nth_error locations i with
    | Some l => Some l
    | None => last (map Some locations) None
    end in
  mkStop d (option_map fst loc) (option_map snd loc).

(** [if (item.city || item.date)] *)
Definition emitted (item : stop) : bool :=
  opt_truthy (city item) || opt_truthy (date item).

(** The loop that combines dates and locations. *)
Definition combineStops (dates : list jstring) (locations : list (jstring * jstring))
    : list stop :=
  filter emitted
    (map (itemAt dates locations)
         (seq 0 (Nat.max (List.length dates) (List.length locations)))).

(** [extractItineraryDataEnhanced(text)] ([document_processor.js],
    lines 407-492). *)
Definition extractItineraryDataEnhanced (text : jstring) : list stop :=
  match firstMatch itinerarySectionPatterns text with
  | Some (c :: sec) =>
      let itinerarySection := c :: sec in
      let dates := firstYield datePatterns itinerarySection in
      let locations :=
        map (fun m => (trim (fst m), trim (snd m)))
            (firstYield locationPatterns itinerarySection) in
      combineStops dates locations
  | _ => extractItineraryFromGeneralText text
  end.

End Dates.

(** A date parser for examples: the date-only form [YYYY-MM-DD] with a
    month from 01 to 12 and a day from 01 to 31. *)
Definition isoDateOnly (s : jstring) : bool :=
  match s with
  | [y1; y2; y3; y4; d1; m1; m2; d2; a1; a2] =>
      forallb is_digit [y1; y2; y3; y4; m1; m2; a1; a2]
      && ch "-" d1 && ch "-" d2
      && (let m := digits_val [m1; m2] in (1 <=? m)%Z && (m <=? 12)%Z)
      && (let a := digits_val [a1; a2] in (1 <=? a)%Z && (a <=? 31)%Z)
  | _ => false
  end.

End DocProc.

(** The pairing loop of the basic [extractItineraryData] of [utils.js]
    (lines 219-227) and [utils.gs] (lines 151-157): the captures of the date matches and the trimmed captures
    of the location matches, up to the shorter of the two. *)
Definition pairItinerary (dates : list jstring) (locations : list (jstring * jstring))
    : list stop :=
  map (fun i =>
         mkStop (nth_error dates i)
                (option_map (fun l => trim (fst l)) (nth_error locations i))
                (option_map (fun l => trim (snd l)) (nth_error locations i)))
      (seq 0 (Nat.min (List.length dates) (List.length locations))).

(** [extractItineraryData(text)] ([utils.js], lines 199-230; [utils.gs],
    lines 142-160). The match of the section pattern gives the text it
    captures, [datePattern] the first capture of all its matches and
    [cityStatePattern] the two captures of all its matches. *)
Definition extractItineraryData
    (itinerarySection : jstring -> option jstring)
    (datePattern : jstring -> list jstring)
    (cityStatePattern : jstring -> list (jstring * jstring))
    (text : jstring) : list stop :=
  match itinerarySection text with
  | None => []
  | Some section => pairItinerary (datePattern section) (cityStatePattern section)
  end.

(* ================================================================== *)
(** * Bulk aggregation: [aggregateByTarId] ([main.gs]) and
      [processBulkRecords] ([client.js]) *)
(* ================================================================== *)

Module Bulk.

(** A CSV record: every value is a string; a column that the header
    does not have is absent. *)
Definition row := list (jstring * jstring).

Fixpoint col (k : jstring) (r : row) : option jstring :=
  match r with
  | [] => None
  | (k', v) :: r' => if jeqb k k' then Some v else col k r'
  end.

(** [r[k] || ''] *)
Definition text (k : jstring) (r : row) : jstring :=
  match col k r with Some s => s | None => [] end.

(** [d && d.trim().length > 0] *)
Definition nonBlank (k : jstring) (r : row) : bool :=
  match col k r with
  | Some (c :: s) => match trim (c :: s) with [] => false | _ => true end
  | _ => false
  end.

(** [parseFloat(r[k])] *)
Definition amount (k : jstring) (r : row) : number :=
  match col k r with Some s => parseFloat_str s | None => NaN end.

Definition TAR_ID := str "TAR ID".
Definition DEPARTURE := str "Departure Date".
Definition SUBMITTED := str "Date Submitted".
Definition RETURN := str "Return Date".
Definition DESTINATION := str "Destination (City, State, Country)".
Definition PURPOSE := str "Travel Purpose".
Definition COMMENTS := str "Comments".
Definition TOTAL_ACTUAL := str "Total Actual Cost".
Definition COST_VALUE := str "Cost Type Value".
Definition TOTAL_ESTIMATE := str "Total Travel Estimate".

(** [grouped[id]]: the records of one TAR ID, in the order of the file. *)
Definition groupOf (id : jstring) (records : list row) : list row :=
  filter (fun rec => jeqb (text TAR_ID rec) id) records.

Section WithRuntime.

(** [new Date(s)]: its time value, [None] for an invalid date. *)
Variable dateParse : jstring -> option Z.
(** [d.toISOString().split('T')[0]] for the date of a time value. *)
Variable isoDay : Z -> jstring.
(** the rendering of a number that is not a plain integer *)
Variable numberString : Q -> jstring.

(** One step of the loop over the records: the earliest start. *)
Definition earlier (startDate : option Z) (r : row) : option Z :=
  let sRaw :=
    match text DEPARTURE r with
    | [] => text SUBMITTED r
    | s => s
    end in
  match sRaw with
  | [] => startDate
  | _ =>
      match dateParse sRaw, startDate with
      | Some sd, None => Some sd
      | Some sd, Some cur => if (sd <? cur)%Z then Some sd else startDate
      | None, _ => startDate
      end
  end.

(** One step of the loop over the records: the latest end. *)
Definition later (endDate : option Z) (r : row) : option Z :=
  match text RETURN r with
  | [] => endDate
  | eRaw =>
      match dateParse eRaw, endDate with
      | Some ed, None => Some ed
      | Some ed, Some cur => if (cur <? ed)%Z then Some ed else endDate
      | None, _ => endDate
      end
  end.

Definition startDate (recs : list row) : option Z := fold_left earlier recs None.
Definition endDate (recs : list row) : option Z := fold_left later recs None.

(** [recs.reduce((sum, r) => sum + (parseFloat(r['Cost Type Value']) || 0), 0)] *)
Definition sumCost (recs : list row) : number :=
  fold_left (fun sum r => nadd sum (nor_else (amount COST_VALUE r) (num 0)))
            recs (num 0).

(** [totalActual] of a group whose first record is [base]. *)
Definition totalActual (base : row) (recs : list row) : number :=
  nor_else (nor_else (amount TOTAL_ACTUAL base) (num 0)) (sumCost recs).

Definition setIf (k : jstring) (v : option jstring) (r : row) : row :=
  match v with Some s => (k, s) :: r | None => r end.

(** The aggregated record of one group, as the body of the loop over
    the groups builds it ([main.gs], lines 439-484; [client.js], lines
    317-345); [None] for an empty group, which the grouping
    never produces. *)
Definition aggregateGroup (recs : list row) : option row :=
  match recs with
  | [] => None
  | base :: _ =>
      let agg := base in
      let agg := setIf DEPARTURE (option_map isoDay (startDate recs)) agg in
      let agg := setIf RETURN (option_map isoDay (endDate recs)) agg in
      let agg :=
        setIf DESTINATION
          (option_map (text DESTINATION) (find (nonBlank DESTINATION) recs)) agg in
      let purpose :=
        match find (nonBlank PURPOSE) recs, find (nonBlank COMMENTS) recs with
        | Some p, _ => text PURPOSE p
        | None, Some c => text COMMENTS c
        | None, None => []
        end in
      let agg := (PURPOSE, purpose) :: agg in
      let ta := totalActual base recs in
      let agg :=
        (TOTAL_ACTUAL,
         if ntruthy ta then Number_toString numberString ta else str "0") :: agg in
      let estimate :=
        match find (fun r => ngt (amount TOTAL_ESTIMATE r) (num 0)) recs with
        | Some e => text TOTAL_ESTIMATE e
        | None => text TOTAL_ESTIMATE base
        end in
      Some ((TOTAL_ESTIMATE, estimate) :: agg)
  end.

End WithRuntime.

(** The claimed selection of the total cost, in the words of the
    contract: the first non-zero explicit total of the group, else the sum
    of the itemised values. *)
Definition firstExplicitTotal (recs : list row) : number :=
  match find (fun r => ntruthy (amount TOTAL_ACTUAL r)) recs with
  | Some r => amount TOTAL_ACTUAL r
  | None => sumCost recs
  end.

End Bulk.

(* ================================================================== *)
(** * Reading CSV files: [main.gs] (bulk test) and [client.js] *)
(* ================================================================== *)

(** The double quote. *)
Definition DQUOTE : ascii := "034"%char.

(** [s.split(/\r?\n/)]: the pieces between the line breaks; a carriage
    return right before a line feed is part of the break. *)
Fixpoint splitLines (s : jstring) : list jstring :=
  match s with
  | [] => [[]]
  | c :: s' =>
      let piece :=
        match splitLines s' with
        | p :: ps => (c :: p) :: ps
        | [] => [[c]]
        end in
      if ch DocProc.LF c then [] :: splitLines s'
      else if ch DocProc.CR c then
        match s' with
        | d :: s'' => if ch DocProc.LF d then [] :: splitLines s'' else piece
        | [] => piece
        end
      else piece
  end.

(** [l.join(sep)] *)
Fixpoint joinWith (sep : jstring) (l : list jstring) : jstring :=
  match l with
  | [] => []
  | [x] => x
  | x :: l' => x ++ sep ++ joinWith sep l'
  end.

(** [l.trim().length > 0] *)
Definition nonBlankLine (l : jstring) : bool :=
  match trim l with [] => false | _ => true end.

(** The key whose assignment sets the prototype of an object: assigning
    a string to it leaves the object as it is. *)
Definition PROTO : jstring := str "__proto__".

(** The record of a row under a header: [record[header[j]] = row[j]] for
    the columns [j] of the header in turn, a later column of the same name
    replacing an earlier one; a cell that the row does not have is the
    empty string. *)
Definition recordOf (header row : list jstring) : Bulk.row :=
  fold_left (fun record jk =>
               if jeqb (snd jk) PROTO then record
               else (snd jk, nth (fst jk) row []) :: record)
            (combine (seq 0 (List.length header)) header) [].

Module BulkTest.

(** The loop of [parseCsvLine(line)] ([main.gs], lines 360-387) from a
    position of the line, with the field read so far and the quote state. *)
Fixpoint parseCsvLineFrom (current : jstring) (inQuotes : bool) (line : jstring)
    : list jstring :=
  match line with
  | [] => [current]
  | c :: rest =>
      if ch DQUOTE c then
        match rest with
        | d :: rest' =>
            if inQuotes && ch DQUOTE d
            then parseCsvLineFrom (current ++ [DQUOTE]) inQuotes rest'
            else parseCsvLineFrom current (negb inQuotes) rest
        | [] => parseCsvLineFrom current (negb inQuotes) rest
        end
      else if ch "," c && negb inQuotes
      then current :: parseCsvLineFrom [] inQuotes rest
      else parseCsvLineFrom (current ++ [c]) inQuotes rest
  end.

Definition parseCsvLine (line : jstring) : list jstring :=
  parseCsvLineFrom [] false line.

(** [readCsv(filename)] ([main.gs], lines 395-412) on the content of the
    file, which the file system gives. *)
Definition readCsv (csvContent : jstring) : list Bulk.row :=
  match filter nonBlankLine (splitLines csvContent) with
  | [] => []
  | first :: rest =>
      let header := parseCsvLine first in
      map (fun line => recordOf header (parseCsvLine line)) rest
  end.

End BulkTest.

Module Client.

(** The loop of [splitCsvLine(line)] ([client.js], lines 130-150). *)
Fixpoint splitCsvLineFrom (current : jstring) (inQuotes : bool) (line : jstring)
    : list jstring :=
  match line with
  | [] => [current]
  | c :: rest =>
      if ch DQUOTE c then splitCsvLineFrom current (negb inQuotes) rest
      else if ch "," c && negb inQuotes
      then current :: splitCsvLineFrom [] inQuotes rest
      else splitCsvLineFrom (current ++ [c]) inQuotes rest
  end.

Definition splitCsvLine (line : jstring) : list jstring :=
  map trim (splitCsvLineFrom [] false line).

(** [parseCsv(text)] ([client.js], lines 160-176). *)
Definition parseCsv (text : jstring) : list Bulk.row :=
  match filter nonBlankLine (splitLines text) with
  | first :: second :: rest =>
      let headers := splitCsvLine first in
      flat_map
        (fun line =>
           let values := splitCsvLine line in
           if negb (List.length values =? List.length headers) then []
           else [recordOf headers values])
        (second :: rest)
  | _ => []
  end.

End Client.

(* ================================================================== *)
(** * Grouping the records by TAR ID: [aggregateByTarId] ([main.gs]) *)
(* ================================================================== *)

(** The properties that every object inherits from [Object.prototype]:
    reading one of them from an object that does not have it gives a
    function, or the prototype itself. *)
Definition prototypeKeys : list jstring :=
  [ str "constructor"; str "__defineGetter__"; str "__defineSetter__";
    str "hasOwnProperty"; str "__lookupGetter__"; str "__lookupSetter__";
    str "isPrototypeOf"; str "propertyIsEnumerable"; str "toString";
    str "valueOf"; str "__proto__"; str "toLocaleString" ].

(** The object [grouped]: its own properties in the order of their
    creation. *)
Definition groups := list (jstring * list Bulk.row).

(** [grouped[id]] for a property that [grouped] has. *)
Fixpoint groupRecs (id : jstring) (g : groups) : list Bulk.row :=
  match g with
  | [] => []
  | (k, recs) :: g' => if jeqb k id then recs else groupRecs id g'
  end.

(** [if (!grouped[id]) grouped[id] = []; grouped[id].push(rec)] for an
    [id] that the prototype does not have. *)
Fixpoint pushRecord (id : jstring) (rec : Bulk.row) (g : groups) : groups :=
  match g with
  | [] => [(id, [rec])]
  | (k, recs) :: g' =>
      if jeqb k id then (k, recs ++ [rec]) :: g'
      else (k, recs) :: pushRecord id rec g'
  end.

(** One step of [records.forEach] ([main.gs], lines 431-436); [None] when
    [grouped[id]] is a property of the prototype, which has no [push]. *)
Definition groupStep (grouped : option groups) (rec : Bulk.row) : option groups :=
  match grouped with
  | None => None
  | Some g =>
      match Bulk.text Bulk.TAR_ID rec with
      | [] => Some g
      | id =>
          if existsb (jeqb id) prototypeKeys then None
          else Some (pushRecord id rec g)
      end
  end.

(** An array index: the numeral of a whole number below [2^32 - 1], without
    a leading zero. *)
Definition arrayIndex (s : jstring) : option Z :=
  match s with
  | [] => None
  | c :: t =>
      if forallb is_digit s
         && (negb (ch "0" c) || match t with [] => true | _ => false end)
      then
        let n := radix_val 10 s in
        if (n <? 2 ^ 32 - 1)%Z then Some n else None
      else None
  end.

Fixpoint insertIndex (n : Z) (k : jstring) (l : list (Z * jstring))
    : list (Z * jstring) :=
  match l with
  | [] => [(n, k)]
  | (m, k') :: l' =>
      if (n <? m)%Z then (n, k) :: l else (m, k') :: insertIndex n k l'
  end.

(** [Object.keys(o)] of an object with the own properties [ks] in the order
    of their creation: the array indices in ascending order, then the other
    keys as created. *)
Definition objectKeys (ks : list jstring) : list jstring :=
  map snd
    (fold_right (fun k acc =>
                   match arrayIndex k with
                   | Some n => insertIndex n k acc
                   | None => acc
                   end) [] ks)
  ++ filter (fun k => match arrayIndex k with Some _ => false | None => true end) ks.

Section Grouping.

Variable dateParse : jstring -> option Z.
Variable isoDay : Z -> jstring.
Variable numberString : Q -> jstring.

(** The loop over [Object.keys(grouped)] ([main.gs], lines 438-484). *)
Fixpoint aggregateEach (ids : list jstring) (g : groups) : option (list Bulk.row) :=
  match ids with
  | [] => Some []
  | id :: ids' =>
      match Bulk.aggregateGroup dateParse isoDay numberString (groupRecs id g),
            aggregateEach ids' g with
      | Some agg, Some aggregated => Some (agg :: aggregated)
      | _, _ => None
      end
  end.

(** [aggregateByTarId(records)] ([main.gs], lines 429-486); [None] when it
    throws. *)
Definition aggregateByTarId (records : list Bulk.row) : option (list Bulk.row) :=
  match fold_left groupStep records (Some []) with
  | None => None
  | Some g => aggregateEach (objectKeys (map fst g)) g
  end.

End Grouping.

(* ================================================================== *)
(** * From a bulk record to the data of a request: [mapAggregatedRecord]
      ([main.gs]) and [mapRecordToTarData] ([client.js]) *)
(* ================================================================== *)

(** [a || b] on strings. *)
Definition orText (a b : jstring) : jstring :=
  match a with [] => b | _ => a end.

Definition TRAVELER := str "Traveler".
Definition CREATOR := str "Creator".
Definition TAR_TITLE := str "TAR Title".
Definition CONTRACT_ID := str "Contract Specific ID".
Definition COST_CATEGORY := str "Cost Category".
Definition COST_TYPE := str "Cost Type".

(** The city of a destination "City, State, Country": the trimmed text
    before the first comma. *)
Definition cityOf (dest : jstring) : jstring :=
  match split "," dest with
  | (c :: p) :: _ => trim (c :: p)
  | _ => []
  end.

(** The state of a destination: the first two characters of the trimmed
    text after the first comma, in upper case. *)
Definition stateOf (dest : jstring) : jstring :=
  match split "," dest with
  | _ :: p1 :: _ =>
      let state := trim p1 in
      let state := if 2 <? List.length state then substring0 2 state else state in
      toUpperCase state
  | _ => []
  end.

(** [city && state ? `${city}, ${state}` : ''] *)
Definition dutyStationOf (city state : jstring) : jstring :=
  match city, state with
  | _ :: _, _ :: _ => city ++ str ", " ++ state
  | _, _ => []
  end.

(** The milliseconds of a day, [1000 * 60 * 60 * 24]. *)
Definition MS_PER_DAY : Z := 1000 * 60 * 60 * 24.

(** [Math.ceil(x / d)] for integers [x] and [d > 0]. *)
Definition ceilDiv (x d : Z) : Z := - ((- x) / d).

(** The inner [toNumber] of the two mappings: the digits and points of
    the text of the cell, read as a number, 0 when they do not start one. A
    cell that the record does not have prints as "undefined". *)
Definition toNumber (val : option jstring) : number :=
  let s := match val with Some s => s | None => str "undefined" end in
  let n := parseFloat_str (filter (fun c => is_digit c || ch "." c) s) in
  if isNaN n then num 0 else n.

Section Mapping.

(** [new Date(s)]: its time value, [None] for an invalid date. *)
Variable dateParse : jstring -> option Z.
(** [d.toISOString()] for the date of a time value. *)
Variable toISOString : Z -> jstring.

(** The inner [parseDate] of the two mappings. *)
Definition parseDate (d : jstring) : jstring :=
  match d with
  | [] => []
  | _ =>
      match dateParse d with
      | Some t => substring0 10 (toISOString t)
      | None => []
      end
  end.

(** The days of the trip, both ends counted; 1 when a date is missing or
    the end is before the start. *)
Definition durationOf (startDate endDate : jstring) : number :=
  match startDate, endDate with
  | _ :: _, _ :: _ =>
      match dateParse startDate, dateParse endDate with
      | Some sd, Some ed =>
          if (sd <=? ed)%Z then num (ceilDiv (ed - sd) MS_PER_DAY + 1) else num 1
      | _, _ => num 1
      end
  | _, _ => num 1
  end.

(** [mapAggregatedRecord(record)] ([main.gs], lines 498-552). *)
Definition mapAggregatedRecord (record : Bulk.row) : jobj :=
  let dest := Bulk.text Bulk.DESTINATION record in
  let city := cityOf dest in
  let state := stateOf dest in
  let startDate := parseDate (Bulk.text Bulk.DEPARTURE record) in
  let endDate := parseDate (Bulk.text Bulk.RETURN record) in
  let duration := durationOf startDate endDate in
  let totalCost := toNumber (Bulk.col Bulk.TOTAL_ACTUAL record) in
  let totalCost :=
    if negb (ntruthy totalCost)
    then toNumber (Bulk.col Bulk.TOTAL_ESTIMATE record) else totalCost in
  let estimatedCost :=
    nor_else (toNumber (Bulk.col Bulk.TOTAL_ESTIMATE record)) totalCost in
  [ (str "traveler",
     VStr (orText (Bulk.text TRAVELER record) (Bulk.text CREATOR record)));
    (str "city", VStr city);
    (str "state", VStr state);
    (str "tripStartDate", VStr startDate);
    (str "tripEndDate", VStr endDate);
    (str "duration", VNum duration);
    (str "totalCost", VNum totalCost);
    (str "estimatedCost", VNum estimatedCost);
    (str "purpose",
     VStr (orText (Bulk.text Bulk.PURPOSE record) (Bulk.text Bulk.COMMENTS record)));
    (str "poc", VStr (Bulk.text CREATOR record));
    (str "contactNumber", VStr (str "1234567890"));
    (str "dutyStation", VStr (dutyStationOf city state));
    (str "tarId", VStr (Bulk.text Bulk.TAR_ID record));
    (str "tarTitle", VStr (Bulk.text TAR_TITLE record));
    (str "contractId", VStr (Bulk.text CONTRACT_ID record)) ].

(** [mapRecordToTarData(record)] ([client.js], lines 186-245). *)
Definition mapRecordToTarData (record : Bulk.row) : jobj :=
  let dest := Bulk.text Bulk.DESTINATION record in
  let city := cityOf dest in
  let state := stateOf dest in
  let startRaw :=
    orText (Bulk.text Bulk.DEPARTURE record) (Bulk.text Bulk.SUBMITTED record) in
  let endRaw := Bulk.text Bulk.RETURN record in
  let startDate := parseDate startRaw in
  let endDate := parseDate endRaw in
  let duration := durationOf startDate endDate in
  let totalCost := toNumber (Bulk.col Bulk.TOTAL_ACTUAL record) in
  let totalCost :=
    if negb (ntruthy totalCost)
    then toNumber (Bulk.col Bulk.TOTAL_ESTIMATE record) else totalCost in
  let costTypeValue := toNumber (Bulk.col Bulk.COST_VALUE record) in
  let totalCost :=
    if negb (ntruthy totalCost) && ntruthy costTypeValue
    then costTypeValue else totalCost in
  let estimatedCost := toNumber (Bulk.col Bulk.TOTAL_ESTIMATE record) in
  let estimatedCost :=
    if negb (ntruthy estimatedCost) then totalCost else estimatedCost in
  [ (str "traveler",
     VStr (orText (Bulk.text TRAVELER record) (Bulk.text CREATOR record)));
    (str "city", VStr city);
    (str "state", VStr state);
    (str "tripStartDate", VStr startDate);
    (str "tripEndDate", VStr endDate);
    (str "duration", VNum duration);
    (str "totalCost", VNum totalCost);
    (str "estimatedCost", VNum estimatedCost);
    (str "purpose",
     VStr (orText (Bulk.text Bulk.PURPOSE record) (Bulk.text Bulk.COMMENTS record)));
    (str "poc", VStr (Bulk.text CREATOR record));
    (str "dutyStation", VStr (dutyStationOf city state));
    (str "tarId", VStr (Bulk.text Bulk.TAR_ID record));
    (str "tarTitle", VStr (Bulk.text TAR_TITLE record));
    (str "contractId", VStr (Bulk.text CONTRACT_ID record));
    (str "costCategory", VStr (Bulk.text COST_CATEGORY record));
    (str "costType", VStr (Bulk.text COST_TYPE record)) ].

End Mapping.

(* ================================================================== *)
(** * The quality of an extraction: [validateExtractionQuality] *)
(* ================================================================== *)

(** [v && v.length > 0] *)
Definition hasItems (v : jvalue) : bool :=
  match v with
  | VArr (_ :: _) => true
  | VStr (_ :: _) => true
  | _ => false
  end.

(** [v && typeof v === "number"] *)
Definition isTruthyNumber (v : jvalue) : bool :=
  truthy v && match v with VNum _ => true | _ => false end.

Module DocQuality.

(** The [quality] object of [document_processor.js]. *)
Record Quality : Type := mkQuality {
  score : number;
  maxScore : number;
  issues : list jstring;
  confidence : jstring
}.

Definition addMax (n : Z) (q : Quality) : Quality :=
  mkQuality (score q) (nadd (maxScore q) (num n)) (issues q) (confidence q).

Definition addScore (n : Z) (q : Quality) : Quality :=
  mkQuality (nadd (score q) (num n)) (maxScore q) (issues q) (confidence q).

Definition addIssue (msg : jstring) (q : Quality) : Quality :=
  mkQuality (score q) (maxScore q) (issues q ++ [msg]) (confidence q).

Definition setConfidence (c : jstring) (q : Quality) : Quality :=
  mkQuality (score q) (maxScore q) (issues q) c.

(** [validateExtractionQuality(extractedData)] ([document_processor.js],
    lines 652-713). *)
Definition validateExtractionQuality (extractedData : jobj) : Quality :=
  let quality := mkQuality (num 0) (num 0) [] (str "LOW") in
  let quality :=
    fold_left
      (fun quality field =>
         let quality := addMax 20 quality in
         if truthy (get field extractedData) then addScore 20 quality
         else addIssue (str "Missing required field: " ++ field) quality)
      [str "travelerName"; str "estimatedCost"; str "travelPurpose"] quality in
  let quality :=
    fold_left
      (fun quality field =>
         let quality := addMax 10 quality in
         if truthy (get field extractedData) then addScore 10 quality else quality)
      [str "authorizationNumber"; str "dutyStation"; str "contactNumber"; str "title"]
      quality in
  let quality := addMax 20 quality in
  let quality :=
    if hasItems (get (str "itinerary") extractedData) then addScore 20 quality
    else addIssue (str "No itinerary data extracted") quality in
  let quality :=
    fold_left
      (fun quality field =>
         let quality := addMax 5 quality in
         if isTruthyNumber (get field extractedData) then addScore 5 quality
         else quality)
      [str "estimatedCost"; str "perDiem"; str "airRail"] quality in
  let percentage := nmul (ndiv (score quality) (maxScore quality)) (num 100) in
  if nle (num 80) percentage then setConfidence (str "HIGH") quality
  else if nle (num 60) percentage then setConfidence (str "MEDIUM") quality
  else setConfidence (str "LOW") quality.

End DocQuality.

Module GasDoc.

(** What [validateExtractionQuality] of the Apps Script build returns. *)
Record Quality : Type := mkQuality {
  confidence : jstring;
  issues : list jstring
}.

(** [validateExtractionQuality(data)] ([document_processor.gs], lines
    271-285). *)
Definition validateExtractionQuality (data : jobj) : Quality :=
  let issues :=
    flat_map
      (fun field =>
         if negb (truthy (get field data)) then [str "Missing " ++ field] else [])
      [str "travelerName"; str "authorizationNumber"; str "travelPurpose";
       str "estimatedCost"] in
  let n := List.length issues in
  let confidence :=
    if (0 <? n) && (n <=? 2) then str "MEDIUM"
    else if 2 <? n then str "LOW"
    else str "HIGH" in
  mkQuality confidence issues.

(** [.replace(/\n{2,}/g, '\n')]; [after_lf] tells that the previous
    character was a line feed, already written. *)
Fixpoint squeezeLF (after_lf : bool) (s : jstring) : jstring :=
  match s with
  | [] => []
  | c :: s' =>
      if ch DocProc.LF c
      then (if after_lf then [] else [DocProc.LF]) ++ squeezeLF true s'
      else c :: squeezeLF false s'
  end.

(** [cleanExtractedText(text)] ([document_processor.gs], lines 151-153). *)
Definition cleanExtractedText (text : jstring) : jstring :=
  trim (squeezeLF false (filter (fun c => negb (ch DocProc.CR c)) text)).

End GasDoc.

(* ================================================================== *)
(** * The lines under a heading of the form: [extractFromNextLines]
      ([document_processor.js]) *)
(* ================================================================== *)

(** [line.match(/^\d+\./)]: the line begins with digits and a point. *)
Definition numbered (line : jstring) : bool :=
  match span is_digit line with
  | (_ :: _, c :: _) => ch "." c
  | _ => false
  end.

(** The loop of [extractFromNextLines] over the lines of its window, with
    the lines [extracted] so far. *)
Fixpoint nextLines (window : list jstring) (extracted : list jstring)
    : list jstring :=
  match window with
  | [] => extracted
  | l :: window' =>
      let line := trim l in
      if match line with [] => false | _ => true end && negb (numbered line)
      then nextLines window' (extracted ++ [line])
      else if numbered line then extracted
      else nextLines window' extracted
  end.

(** [extractFromNextLines(lines, startIndex, maxLines)]
    ([document_processor.js], lines 629-647). *)
Definition extractFromNextLines (lines : list jstring) (startIndex maxLines : nat)
    : jstring :=
  trim (joinWith (str " ")
          (nextLines (firstn maxLines (skipn startIndex lines)) [])).

(* ================================================================== *)
(** * The per diem of a location: [getPerDiemRates] *)
(* ================================================================== *)

(** What [getPerDiemRates] returns; the [catch] block is not reached. *)
Record PerDiemRates : Type := mkPerDiemRates {
  p_success : bool;
  p_message : option jstring;
  p_city : jvalue;
  p_state : jvalue;
  p_meals : number;
  p_lodging : number;
  p_total : number;
  p_monthlyRates : option (list (jstring * jvalue));
  p_usingDefaults : bool
}.

(** [getPerDiemRates(city, state)] ([utils.js], lines 739-805; [main.gs],
    lines 232-275). *)
Definition getPerDiemRates (CONFIG : Config) (host : Host) (city state : jvalue)
    : PerDiemRates :=
  match fetchPerDiemByCityState host city state with
  | Some rateData =>
      let avgLodging := averageLodging rateData in
      let meals :=
        nor_else (parseFloat (get (str "Meals") rateData)) (DEFAULT_MIE CONFIG) in
      mkPerDiemRates true None city state meals avgLodging (nadd meals avgLodging)
        (Some (map (fun month => (month, get month rateData)) MONTHS))
        false
  | None =>
      mkPerDiemRates false
        (Some (str "No GSA rates found for " ++ ToStr host city ++ str ", "
                 ++ ToStr host state))
        city state (DEFAULT_MIE CONFIG) (DEFAULT_LODGING CONFIG)
        (nadd (DEFAULT_MIE CONFIG) (DEFAULT_LODGING CONFIG))
        None true
  end.

(* ================================================================== *)
(** * The validator of the Apps Script build: [main.gs] *)
(* ================================================================== *)

Module GasMain.

Section WithHost.

Variable host : Host.

(** The merge of extracted and manual data and its canonical fields
    ([main.gs], lines 73-107); [None] when [dutyStation] is read as a string
    and is none. *)
Definition mergeData (extracted data : jobj) : option jobj :=
  let m := spread extracted data in
  let m :=
    set (str "duration")
      (VNum (nor_else (parseInt host false (get (str "duration") m)) (num 1))) m in
  let m :=
    set (str "totalCost")
      (VNum (nor_else (parseFloat (get (str "totalCost") m)) (num 0))) m in
  let m := Node.aliasField (str "travelerName") (str "traveler") m in
  let m := Node.aliasField (str "travelPurpose") (str "purpose") m in
  let m :=
    if negb (truthy (get (str "dutyStation") m))
       && truthy (get (str "city") m) && truthy (get (str "state") m)
    then set (str "dutyStation")
           (VStr (ToStr host (get (str "city") m) ++ str ", "
                    ++ ToStr host (get (str "state") m))) m
    else m in
  let m := Node.aliasField (str "contactNumber") (str "poc") m in
  let m :=
    if negb (truthy (get (str "estimatedCost") m))
       && Node.is_number (get (str "totalCost") m)
    then set (str "estimatedCost") (get (str "totalCost") m) m else m in
  if (negb (truthy (get (str "city") m)) || negb (truthy (get (str "state") m)))
     && truthy (get (str "dutyStation") m)
  then
    match get (str "dutyStation") m with
    | VStr ds =>
        match split "," ds with
        | p0 :: p1 :: _ =>
            let cityPart := trim p0 in
            let statePart := toUpperCase (substring0 2 (trim p1)) in
            let m :=
              if negb (truthy (get (str "city") m))
              then set (str "city") (VStr cityPart) m else m in
            Some (if negb (truthy (get (str "state") m))
                  then set (str "state") (VStr statePart) m else m)
        | _ => Some m
        end
    | _ => None
    end
  else Some m.

(** The expected costs of the duration mode, with the warning of a
    failed lookup ([main.gs], lines 124-153). *)
Definition durationCosts (m : jobj) : ExpectedCosts * list jstring :=
  let c := or_else (get (str "city") m) (VStr (str "Unknown")) in
  let s := or_else (get (str "state") m) (VStr (str "Unknown")) in
  let duration := ToNumber (get (str "duration") m) in
  let rateData := fetchPerDiemByCityState host c s in
  let (mi, avgLodging) := ratesOf Gas.CONFIG rateData in
  let dailyTotal := nadd mi avgLodging in
  (mkExpected (nmul dailyTotal duration)
     [mkItem (ToStr host c ++ str ", " ++ ToStr host s)
             (or_else (get (str "tripDate") m) (VStr (today host)))
             mi avgLodging dailyTotal],
   match rateData with
   | Some _ => []
   | None => [str "Unable to fetch GSA rates - using default values"]
   end).

(** The branch on [mergedData.itinerary]: the itinerary mode for a
    non-empty array, the duration mode otherwise. *)
Definition costsOf (m : jobj) : ExpectedCosts * list jstring :=
  match get (str "itinerary") m with
  | VArr (i :: it) => (calculateExpectedCosts Gas.CONFIG host (i :: it), [])
  | _ => durationCosts m
  end.

(** [validateTarWithPerDiem(data)] ([main.gs], lines 52-190). *)
Definition validateTarWithPerDiem (data : jobj) : TarResult :=
  let (extracted, warns) := Node.extraction host data in
  match mergeData extracted data with
  | None => SystemError
  | Some m =>
      let fv := validateFormData Gas.CONFIG host m in
      if negb (isValid fv) then Rejected extracted (errors fv) warns
      else
        let (expected, warns') := costsOf m in
        let totalCost := ToNumber (get (str "totalCost") m) in
        let report := Gas.generateValidationReport host m expected totalCost in
        let v := validation report in
        Validated
          (mkTarSuccess extracted report (warns ++ warns')
             (isWithinBuffer v && isWithinDeviation v)
             (toFixed2 (numberString host) (totalExpected expected))
             (toFixed2 (numberString host) totalCost)
             (get (str "duration") m)
             (toFixed2 (numberString host) (variance v))
             (variancePercent v)
             (breakdown expected))
  end.

End WithHost.

End GasMain.

(* ================================================================== *)
(** * The validation of the page without a server: [offlineValidateTar] *)
(* ================================================================== *)

Module ClientOffline.

(** The two texts of [message]. *)
Inductive OfflineMessage : Type :=
| OfflinePassed
| OfflineFailed (variancePercent : jstring).

Record OfflineResult : Type := mkOfflineResult {
  o_isValid : bool;
  o_variance : number;
  o_variancePercent : jstring;
  o_isWithinBuffer : bool;
  o_isWithinDeviation : bool;
  o_message : OfflineMessage
}.

(** [offlineValidateTar(data)] ([client.js], lines 1496-1535) for an
    object [data]. *)
Definition offlineValidateTar (CONFIG : Config) (host : Host) (data : jobj)
    : OfflineResult :=
  let duration := nor_else (parseInt host true (get (str "duration") data)) (num 1) in
  let totalCost := nor_else (parseFloat (get (str "totalCost") data)) (num 0) in
  let mie := nor_else (DEFAULT_MIE CONFIG) (num 0) in
  let lodging := nor_else (DEFAULT_LODGING CONFIG) (num 0) in
  let expected := nmul (nadd mie lodging) duration in
  let variance := nsub totalCost expected in
  let variancePercent :=
    if ntruthy expected then nmul (ndiv variance expected) (num 100) else num 0 in
  let buffer := nor_else (COST_BUFFER CONFIG) (num 0) in
  let maxDeviation := nor_else (MAX_DEVIATION_PERCENT CONFIG) (num 100) in
  let isWithinBuffer := nle (nabs variance) buffer in
  let isWithinDeviation := nle (nabs variancePercent) maxDeviation in
  let isValid := isWithinBuffer || isWithinDeviation in
  mkOfflineResult isValid variance
    (toFixed2 (numberString host) variancePercent)
    isWithinBuffer isWithinDeviation
    (if isValid then OfflinePassed
     else OfflineFailed (toFixed2 (numberString host) variancePercent)).

End ClientOffline.

(* ================================================================== *)
(** * Vocabulary of the statements *)
(* ================================================================== *)

(** A string of decimal digits. *)
Definition digits (s : jstring) : Prop := forallb is_digit s = true.

(** The character [c] does not occur in [s]. *)
Definition absent (c : ascii) (s : jstring) : Prop :=
  forallb (fun a => negb (ch c a)) s = true.

(** A string of white space. *)
Definition blank (s : jstring) : Prop := forallb is_space s = true.

(** The buffer check in the words of the specification:
    |c - e| <= COST_BUFFER, which is 10. *)
Definition withinBuffer (c e : number) : bool :=
  nle (nabs (nsub c e)) (num 10).

(** The percentage of the variance in the words of the specification:
    100 (c - e) / e, and 0 when the expected total is 0. *)
Definition percentOf (c e : number) : number :=
  if nstrict_eq e (num 0) then num 0 else nmul (ndiv (nsub c e) e) (num 100).

(** The deviation check in the words of the specification:
    |variancePercent| <= MAX_DEVIATION_PERCENT, which is 15. *)
Definition withinDeviation (c e : number) : bool :=
  nle (nabs (percentOf c e)) (num 15).

(** The duration mode: [mergedData.itinerary] is not a non-empty array
    (nor a non-empty string, which is not an itinerary). *)
Definition durationMode (m : jobj) : bool :=
  match get (str "itinerary") m with
  | VArr (_ :: _) => false
  | VStr (_ :: _) => false
  | _ => true
  end.

(** The rate of the end-to-end scenario: Meals "79", every month "250". *)
Definition washingtonRate : jobj :=
  (str "Meals", VStr (str "79")) :: map (fun mo => (mo, VStr (str "250"))) MONTHS.

(** A rate whose months differ: Meals "64" and the twelve months from
    "100" to "210" in steps of 10, 155 on average. *)
Definition seasonalRate : jobj :=
  [ (str "Meals", VStr (str "64"));
    (str "Jan", VStr (str "100")); (str "Feb", VStr (str "110"));
    (str "Mar", VStr (str "120")); (str "Apr", VStr (str "130"));
    (str "May", VStr (str "140")); (str "Jun", VStr (str "150"));
    (str "Jul", VStr (str "160")); (str "Aug", VStr (str "170"));
    (str "Sep", VStr (str "180")); (str "Oct", VStr (str "190"));
    (str "Nov", VStr (str "200")); (str "Dec", VStr (str "210")) ].

(** A rate lookup that knows Washington, DC only. *)
Definition rateOfWashington (rate : jobj) (c s : jstring) : option jobj :=
  if jeqb c (str "Washington") && jeqb s (str "DC") then Some rate else None.

(** A decimal literal [digits], [digits.digits], [digits.] or [.digits]. *)
Record literal : Type := mkLiteral {
  int_part : jstring;
  frac_part : option jstring
}.

Definition frac_digits (l : literal) : jstring :=
  match frac_part l with Some f => f | None => [] end.

Definition literal_ok (l : literal) : Prop :=
  digits (int_part l) /\ digits (frac_digits l)
  /\ int_part l ++ frac_digits l <> [].

Definition literal_text (l : literal) : jstring :=
  int_part l ++ match frac_part l with Some f => "."%char :: f | None => [] end.

Definition literal_value (l : literal) : Q :=
  decimal_val (int_part l) (frac_digits l) 0.

(** Whether a string begins with a magnitude: [Infinity], a digit, or a
    point and a digit. *)
Definition magnitudeStart (s : jstring) : bool :=
  match strip_prefix (str "Infinity") s with
  | Some _ => true
  | None =>
      match s with
      | c :: s' =>
          is_digit c
          || (ch "." c && match s' with d :: _ => is_digit d | [] => false end)
      | [] => false
      end
  end.

(** Whether a string begins with a number, after an optional sign. *)
Definition numericStart (s : jstring) : bool :=
  match s with
  | c :: s' => if ch "+" c || ch "-" c then magnitudeStart s' else magnitudeStart s
  | [] => false
  end.

(** A monthly rate as the rate source may give it. *)
Inductive entry : Type :=
| ENumber (x : number)
    (** a number *)
| ENumeric (pre : jstring) (negative : bool) (l : literal) (post : jstring)
    (** a numeric string: a decimal literal, a minus sign before it when
        [negative], white space around *)
| ERange (p1 : jstring) (low : literal) (p2 p3 : jstring) (high : literal)
         (p4 : jstring)
    (** a range "low-high" of two decimal literals, white space around each *)
| EAbsent (null : bool)
    (** [null] or [undefined] *)
| EOther (s : jstring)
    (** a string that does not begin with a number *).

Definition entry_ok (e : entry) : Prop :=
  match e with
  | ENumber _ => True
  | ENumeric pre _ l post => blank pre /\ literal_ok l /\ blank post
  | ERange p1 low p2 p3 high p4 =>
      blank p1 /\ blank p2 /\ blank p3 /\ blank p4
      /\ literal_ok low /\ literal_ok high
  | EAbsent _ => True
  | EOther s => numericStart (trimStart s) = false
  end.

(** The value that the rate object holds for an entry. *)
Definition entry_value (e : entry) : jvalue :=
  match e with
  | ENumber x => VNum x
  | ENumeric pre negative l post =>
      VStr (pre ++ (if negative then str "-" else []) ++ literal_text l ++ post)
  | ERange p1 low p2 p3 high p4 =>
      VStr ((p1 ++ literal_text low ++ p2) ++ "-"%char :: p3 ++ literal_text high ++ p4)
  | EAbsent true => VNull
  | EAbsent false => VUndef
  | EOther s => VStr s
  end.

(** What an entry contributes to the mean: a number as it is, the value of
    a numeric string, the midpoint of a range; nothing for an absent or
    unparseable entry (and for the number [NaN]). *)
Definition entry_number (e : entry) : list number :=
  match e with
  | ENumber NaN => []
  | ENumber x => [x]
  | ENumeric _ negative l _ =>
      [if negative then nneg (Fin (literal_value l)) else Fin (literal_value l)]
  | ERange _ low _ _ high _ =>
      [ndiv (nadd (Fin (literal_value low)) (Fin (literal_value high))) (num 2)]
  | EAbsent _ => []
  | EOther _ => []
  end.

(** The arithmetic mean, 0 for no number at all. *)
Definition mean (xs : list number) : number :=
  match xs with
  | [] => num 0
  | _ => ndiv (fold_left nadd xs (num 0)) (of_nat (List.length xs))
  end.

(** A string whose first character, if any, cannot continue a literal. *)
Definition endsLiteral (s : jstring) : bool :=
  match s with
  | [] => true
  | c :: _ => negb (is_digit c || ch "." c || ch "e" c || ch "E" c)
  end.

(** A text without white space. *)
Definition solid (s : jstring) : Prop :=
  forallb (fun c => negb (is_space c)) s = true.

(** A required field that passes the presence check: neither [undefined]
    nor [null], and not blank when it is a string. *)
Definition fieldPresent (v : jvalue) : bool :=
  negb (is_nullish v)
  && match v with
     | VStr s => match trim s with [] => false | _ => true end
     | _ => true
     end.

(** A record with every required field, with the given estimated cost. *)
Definition formWithCost (cost : jvalue) : jobj :=
  [ (str "travelerName", VStr (str "A. Traveler"));
    (str "travelPurpose", VStr (str "Site visit"));
    (str "estimatedCost", cost);
    (str "dutyStation", VStr (str "Washington, DC"));
    (str "contactNumber", VStr (str "(555) 123-4567")) ].

(** A form as the page sends it, with no cost at all. *)
Definition formWithoutCost : jobj :=
  [ (str "traveler", VStr (str "A. Traveler"));
    (str "purpose", VStr (str "Site visit"));
    (str "poc", VStr (str "5551234567"));
    (str "city", VStr (str "Washington"));
    (str "state", VStr (str "DC")) ].

(** The start date that a record offers: its departure date, else its
    date of submission, when the runtime parses it. *)
Definition startCandidate (dateParse : jstring -> option Z) (r : Bulk.row)
    : option Z :=
  match (match Bulk.text Bulk.DEPARTURE r with
         | [] => Bulk.text Bulk.SUBMITTED r
         | s => s
         end) with
  | [] => None
  | sRaw => dateParse sRaw
  end.

(** The end date that a record offers: its return date, when the runtime
    parses it. *)
Definition endCandidate (dateParse : jstring -> option Z) (r : Bulk.row)
    : option Z :=
  match Bulk.text Bulk.RETURN r with
  | [] => None
  | eRaw => dateParse eRaw
  end.

(** A cost line of the TAR [T-1]. *)
Definition costLine (explicitTotal value : jstring) : Bulk.row :=
  [ (Bulk.TAR_ID, str "T-1");
    (Bulk.TOTAL_ACTUAL, explicitTotal);
    (Bulk.COST_VALUE, value) ].

(** Two cost lines of [T-1] between the lines of another TAR. *)
Definition sampleRecords : list Bulk.row :=
  [ [ (Bulk.TAR_ID, str "T-0"); (Bulk.COST_VALUE, str "40") ];
    costLine (str "") (str "100");
    costLine (str "500") (str "200");
    [ (Bulk.TAR_ID, str "T-2"); (Bulk.COST_VALUE, str "75") ] ].

(** A form that passes the field checks: traveller, purpose, telephone,
    city and state, with the given duration and total cost. *)
Definition sampleForm (duration totalCost : Z) : jobj :=
  [ (str "traveler", VStr (str "A. Traveler"));
    (str "purpose", VStr (str "Site visit"));
    (str "poc", VStr (str "(555) 123-4567"));
    (str "city", VStr (str "Washington"));
    (str "state", VStr (str "DC"));
    (str "estimatedCost", VNum (num 500));
    (str "duration", VNum (num duration));
    (str "totalCost", VNum (num totalCost)) ].

(** A host whose rate lookup finds nothing. *)
Definition offline (pdf : jvalue -> option jobj) (now : jstring)
    (render : Q -> jstring) : Host :=
  mkHost (fun _ _ => None) pdf now render.

(** A stop that carries a date. *)
Definition dated (s : stop) : bool := opt_truthy (date s).

(** A location whose city is not the empty string. *)
Definition hasCity (l : jstring * jstring) : bool :=
  match fst l with [] => false | _ :: _ => true end.

(** The stop of a date, as normalised, at a location. *)
Definition pairedStop (dateParses : jstring -> bool) (d : jstring)
    (l : jstring * jstring) : stop :=
  mkStop (DocProc.normalizeDate dateParses d) (Some (fst l)) (Some (snd l)).

(** The stop of a location without a date. *)
Definition undatedStop (l : jstring * jstring) : stop :=
  mkStop None (Some (fst l)) (Some (snd l)).

(** A text without line feed or carriage return. *)
Definition single_line (s : jstring) : Prop :=
  Forall (fun c => is_newline c = false) s.

(** [YYYY-MM-DD] for a month [m], a day [d] and a year [y], the month and
    the day padded to two digits. *)
Definition isoForm (m d y : jstring) : jstring :=
  y ++ str "-" ++ padStart2 m ++ str "-" ++ padStart2 d.

(** A field in double quotes, its own double quotes doubled. *)
Definition quoteField (f : jstring) : jstring :=
  DQUOTE :: flat_map (fun c => if ch DQUOTE c then [DQUOTE; DQUOTE] else [c]) f
    ++ [DQUOTE].

(** A field as a CSV writer puts it: in double quotes when it holds a comma
    or a double quote, as it is otherwise. *)
Definition csvField (f : jstring) : jstring :=
  if existsb (fun c => ch DQUOTE c || ch "," c) f then quoteField f else f.

(** A field without its double quotes. *)
Definition unquoted (f : jstring) : jstring :=
  filter (fun c => negb (ch DQUOTE c)) f.

(** A text that begins and ends with a character that is not white space,
    or is empty. *)
Definition edge (s : jstring) : Prop :=
  match s with c :: _ => is_space c = false | [] => True end.

(** The numbers of the data of a trip: a whole duration of at least 1, and
    a total cost and an estimated cost that are numbers, not negative, and 0
    together. *)
Definition tripNumbers (data : jobj) : Prop :=
  exists d c e,
    get (str "duration") data = VNum (num d) /\ (1 <= d)%Z
    /\ get (str "totalCost") data = VNum c
    /\ get (str "estimatedCost") data = VNum e
    /\ isNaN c = false /\ isNaN e = false
    /\ nlt c (num 0) = false /\ nlt e (num 0) = false
    /\ ntruthy e = ntruthy c.

(** No line feed of [s] follows another line feed; with [after_lf], nor
    does [s] begin with one. *)
Fixpoint blankLineFree (after_lf : bool) (s : jstring) : bool :=
  match s with
  | [] => true
  | c :: s' =>
      if ch DocProc.LF c then negb after_lf && blankLineFree true s'
      else blankLineFree false s'
  end.

(** The characters of a cleaned text: letters, digits, the underscore, the
    space and the punctuation that the cleaning keeps. *)
Definition cleanChar (c : ascii) : bool :=
  is_word c || ch " " c || existsb (ch c) (str "$.,()-:/&#").

(** The fields that the merge may fill in: each is written only while it
    is empty. *)
Definition filledFields : list jstring :=
  [ str "travelerName"; str "travelPurpose"; str "dutyStation";
    str "contactNumber"; str "estimatedCost"; str "city"; str "state" ].

(** The estimated cost [v0] and the total cost [c] of the merged data before
    the fallback. *)
Definition costsBefore (v0 : jvalue) (c : number) (m : jobj) : Prop :=
  get (str "estimatedCost") m = v0 /\ get (str "totalCost") m = VNum c.

(** The estimated cost after the fallback: the total cost takes the place of
    an empty estimate. *)
Definition estimateOr (v0 : jvalue) (c : number) : jvalue :=
  if truthy v0 then v0 else VNum c.

(** The TAR ID of a record. *)
Definition tarId (r : Bulk.row) : jstring := Bulk.text Bulk.TAR_ID r.

(** The items of [l] before the first one that satisfies [p]. *)
Fixpoint beforeFirst (A : Type) (p : A -> bool) (l : list A) : list A :=
  match l with
  | [] => []
  | x :: l' => if p x then [] else x :: beforeFirst p l'
  end.

(** The lines of a window under a heading: the lines before the next
    numbered line, trimmed, the blank ones left out. *)
Definition linesUnderHeading (window : list jstring) : list jstring :=
  filter (fun line => match line with [] => false | _ => true end)
         (map trim (beforeFirst (fun l => numbered (trim l)) window)).

(* ================================================================== *)
(** * Properties of the regular expressions *)
(* ================================================================== *)

Lemma matches_nil_nullable : forall r s, matches r s -> s = [] -> nullable r = true.
Proof.
  induction 1; intros E; simpl; try reflexivity; try discriminate.
  - apply app_eq_nil in E. destruct E as [E1 E2].
    rewrite (IHmatches1 E1), (IHmatches2 E2). reflexivity.
  - rewrite (IHmatches E). reflexivity.
  - rewrite (IHmatches E). apply orb_true_r.
Qed.

Lemma nullable_matches : forall r, nullable r = true -> matches r [].
Proof.
  induction r; simpl; intros H; try discriminate.
  - constructor.
  - apply andb_true_iff in H. destruct H as [H1 H2].
    change (@nil ascii) with (@nil ascii ++ []). constructor; auto.
  - apply orb_true_iff in H. destruct H as [H | H].
    + apply MAltL; auto.
    + apply MAltR; auto.
  - constructor.
Qed.

Lemma matches_seq_inv : forall r1 r2 s,
  matches (Seq r1 r2) s ->
  exists s1 s2, s = s1 ++ s2 /\ matches r1 s1 /\ matches r2 s2.
Proof.
  intros r1 r2 s H. inversion H; subst. eauto.
Qed.

Lemma matches_cls_inv : forall p s, matches (Cls p) s -> exists c, s = [c] /\ p c = true.
Proof.
  intros p s H. inversion H; subst. eauto.
Qed.

Lemma deriv_sound : forall r c s, matches (deriv c r) s -> matches r (c :: s).
Proof.
  induction r; simpl; intros c s H.
  - inversion H.
  - inversion H.
  - destruct (b c) eqn:E; inversion H; subst. constructor. exact E.
  - destruct (nullable r1) eqn:N.
    + inversion H; subst.
      * apply matches_seq_inv in H3. destruct H3 as (s1 & s2 & -> & H1 & H2).
        change (c :: s1 ++ s2) with ((c :: s1) ++ s2). constructor; auto.
      * change (c :: s) with ([] ++ c :: s). constructor; auto.
        apply nullable_matches; assumption.
    + apply matches_seq_inv in H. destruct H as (s1 & s2 & -> & H1 & H2).
      change (c :: s1 ++ s2) with ((c :: s1) ++ s2). constructor; auto.
  - inversion H; subst.
    + apply MAltL; auto.
    + apply MAltR; auto.
  - apply matches_seq_inv in H. destruct H as (s1 & s2 & -> & H1 & H2).
    change (c :: s1 ++ s2) with ((c :: s1) ++ s2). constructor; auto.
Qed.

Lemma deriv_complete : forall r w, matches r w ->
  forall c s, w = c :: s -> matches (deriv c r) s.
Proof.
  induction 1; intros a t E; simpl.
  - discriminate.
  - injection E as -> <-. rewrite H. constructor.
  - destruct s1 as [| b s1'].
    + simpl in E. subst s2.
      rewrite (matches_nil_nullable H eq_refl).
      apply MAltR. apply IHmatches2. reflexivity.
    + simpl in E. injection E as -> <-.
      assert (M : matches (Seq (deriv a r1) r2) (s1' ++ s2)).
      { constructor; auto. }
      destruct (nullable r1); [apply MAltL|]; exact M.
  - apply MAltL. auto.
  - apply MAltR. auto.
  - discriminate.
  - destruct s1 as [| b s1'].
    + simpl in E. apply IHmatches2 in E. exact E.
    + simpl in E. injection E as -> <-.
      constructor; auto.
Qed.

Lemma accepts_spec : forall s r, accepts r s = true <-> matches r s.
Proof.
  induction s as [| c s IH]; intros r; simpl.
  - split.
    + apply nullable_matches.
    + intros H. apply (matches_nil_nullable H eq_refl).
  - rewrite IH. split.
    + apply deriv_sound.
    + intros H. apply (deriv_complete H eq_refl).
Qed.

Lemma matches_rep : forall p n s,
  List.length s = n -> forallb p s = true -> matches (Rep n (Cls p)) s.
Proof.
  intros p n. induction n as [| n IH]; intros s L F.
  - destruct s; [constructor | discriminate].
  - destruct s as [| c s]; [discriminate |].
    simpl in *. apply andb_true_iff in F. destruct F as [F1 F2].
    change (c :: s) with ([c] ++ s). constructor.
    + constructor. exact F1.
    + apply IH; [lia | exact F2].
Qed.

Lemma matches_upto : forall p n s,
  List.length s <= n -> forallb p s = true -> matches (UpTo n (Cls p)) s.
Proof.
  intros p n. induction n as [| n IH]; intros s L F.
  - destruct s; [constructor | simpl in L; lia].
  - destruct s as [| c s].
    + apply MAltL. constructor.
    + simpl in *. apply andb_true_iff in F. destruct F as [F1 F2].
      apply MAltR. change (c :: s) with ([c] ++ s). constructor.
      * constructor. exact F1.
      * apply IH; [lia | exact F2].
Qed.

Lemma matches_range : forall p lo hi s,
  lo <= List.length s <= hi -> forallb p s = true -> matches (Range lo hi (Cls p)) s.
Proof.
  intros p lo hi s [L1 L2] F. unfold Range.
  rewrite <- (firstn_skipn lo s).
  rewrite <- (firstn_skipn lo s) in F. rewrite forallb_app in F.
  apply andb_true_iff in F. destruct F as [F1 F2].
  constructor.
  - apply matches_rep; [| exact F1]. rewrite length_firstn. lia.
  - apply matches_upto; [| exact F2]. rewrite length_skipn. lia.
Qed.

Lemma matches_star_any : forall s, matches (Star AnyChar) s.
Proof.
  induction s as [| c s IH].
  - constructor.
  - change (c :: s) with ([c] ++ s). constructor; [| exact IH].
    constructor. reflexivity.
Qed.

(** A substring that matches makes the search succeed. *)
Lemma test_search_intro : forall r a w b,
  matches r w -> test_search r (a ++ w ++ b) = true.
Proof.
  intros r a w b H. unfold test_search. apply accepts_spec.
  constructor; [apply matches_star_any |].
  constructor; [exact H | apply matches_star_any].
Qed.

(** A successful search exhibits the substring. *)
Lemma test_search_elim : forall r s,
  test_search r s = true -> exists a w b, s = a ++ w ++ b /\ matches r w.
Proof.
  intros r s H. unfold test_search in H. apply accepts_spec in H.
  apply matches_seq_inv in H. destruct H as (a & t & -> & _ & H).
  apply matches_seq_inv in H. destruct H as (w & b & -> & H & _).
  eauto.
Qed.

(* ================================================================== *)
(** * Strings: splitting and character classes *)
(* ================================================================== *)

Lemma ch_eq : forall c a, ch c a = true -> a = c.
Proof.
  intros c a H. unfold ch in H. apply Ascii.eqb_eq in H. congruence.
Qed.

Lemma ch_refl : forall c, ch c c = true.
Proof.
  intros c. unfold ch. apply Ascii.eqb_refl.
Qed.

Lemma absent_ch : forall c s, absent c s -> forall a, In a s -> ch c a = false.
Proof.
  intros c s H a I. unfold absent in H. rewrite forallb_forall in H.
  specialize (H a I). destruct (ch c a); [discriminate | reflexivity].
Qed.

Lemma absent_not_In : forall c s, absent c s -> ~ In c s.
Proof.
  intros c s H I. pose proof (absent_ch H c I) as E.
  rewrite ch_refl in E. discriminate E.
Qed.

Lemma split_absent : forall c s, absent c s -> split c s = [s].
Proof.
  intros c. induction s as [| a s IH]; intros H.
  - reflexivity.
  - unfold absent in H. simpl in H. apply andb_true_iff in H. destruct H as [H1 H2].
    simpl. destruct (ch c a); [discriminate |].
    rewrite (IH H2). reflexivity.
Qed.

Lemma split_app : forall c a b, absent c a -> split c (a ++ c :: b) = a :: split c b.
Proof.
  intros c. induction a as [| x a IH]; intros b H.
  - simpl. rewrite ch_refl. reflexivity.
  - unfold absent in H. simpl in H. apply andb_true_iff in H. destruct H as [H1 H2].
    simpl. destruct (ch c x); [discriminate |].
    rewrite (IH b H2). reflexivity.
Qed.

Lemma digits_absent : forall c s, is_digit c = false -> digits s -> absent c s.
Proof.
  intros c s N D. unfold absent, digits in *. rewrite forallb_forall in *.
  intros a I. specialize (D a I).
  destruct (ch c a) eqn:E; [| reflexivity].
  apply ch_eq in E. subst a. congruence.
Qed.

Lemma absent_app : forall c a b, absent c a -> absent c b -> absent c (a ++ b).
Proof.
  intros c a b Ha Hb. unfold absent in *. rewrite forallb_app, Ha, Hb. reflexivity.
Qed.

Lemma absent_cons : forall c x s, ch c x = false -> absent c s -> absent c (x :: s).
Proof.
  intros c x s Hx Hs. unfold absent in *. simpl. rewrite Hx, Hs. reflexivity.
Qed.

(* ================================================================== *)
(** * Date normalisation *)
(* ================================================================== *)

Lemma date_with_sep : forall sep w, matches (DocProc.DATE_WITH sep) w -> In sep w.
Proof.
  intros sep w H. unfold DocProc.DATE_WITH in H.
  apply matches_seq_inv in H. destruct H as (a & r & -> & _ & H).
  apply matches_seq_inv in H. destruct H as (b & r' & -> & H & _).
  apply matches_cls_inv in H. destruct H as (c & -> & H).
  apply ch_eq in H. subst c.
  apply in_or_app. right. left. reflexivity.
Qed.

Lemma date_search_absent : forall sep s,
  absent sep s -> test_search (DocProc.DATE_WITH sep) s = false.
Proof.
  intros sep s H. destruct (test_search (DocProc.DATE_WITH sep) s) eqn:E; [| reflexivity].
  exfalso. apply test_search_elim in E. destruct E as (a & w & b & -> & M).
  apply (absent_not_In H). apply in_or_app. right. apply in_or_app. left.
  apply date_with_sep. exact M.
Qed.

Lemma date_search_found : forall sep m d y,
  digits m -> digits d -> digits y ->
  1 <= List.length m <= 2 -> 1 <= List.length d <= 2 -> List.length y = 4 ->
  test_search (DocProc.DATE_WITH sep) (m ++ sep :: d ++ sep :: y) = true.
Proof.
  intros sep m d y Dm Dd Dy Lm Ld Ly.
  replace (m ++ sep :: d ++ sep :: y)
    with ([] ++ (m ++ [sep] ++ d ++ [sep] ++ y) ++ [])
    by (simpl; rewrite app_nil_r; reflexivity).
  apply test_search_intro. unfold DocProc.DATE_WITH.
  constructor; [apply matches_range; assumption |].
  constructor; [constructor; apply ch_refl |].
  constructor; [apply matches_range; assumption |].
  constructor; [constructor; apply ch_refl |].
  apply matches_rep; assumption.
Qed.

Lemma split_date : forall sep m d y,
  is_digit sep = false -> digits m -> digits d -> digits y ->
  split sep (m ++ sep :: d ++ sep :: y) = [m; d; y].
Proof.
  intros sep m d y N Dm Dd Dy.
  rewrite split_app by (apply digits_absent; assumption).
  rewrite split_app by (apply digits_absent; assumption).
  rewrite split_absent by (apply digits_absent; assumption).
  reflexivity.
Qed.

Lemma slash_not_dash : ch "-" "/" = false /\ ch "/" "-" = false
  /\ is_digit "/" = false /\ is_digit "-" = false.
Proof.
  repeat split; reflexivity.
Qed.

(** The two written forms are told apart by their separator. *)
Lemma other_sep_absent : forall sep other m d y,
  ch other sep = false -> is_digit other = false ->
  digits m -> digits d -> digits y ->
  absent other (m ++ sep :: d ++ sep :: y).
Proof.
  intros sep other m d y N1 N2 Dm Dd Dy.
  apply absent_app; [apply digits_absent; assumption |].
  apply absent_cons; [assumption |].
  apply absent_app; [apply digits_absent; assumption |].
  apply absent_cons; [assumption |].
  apply digits_absent; assumption.
Qed.

Lemma normalizeDate_written : forall dateParses sep m d y,
  sep = "/"%char \/ sep = "-"%char ->
  digits m -> digits d -> digits y ->
  1 <= List.length m <= 2 -> 1 <= List.length d <= 2 -> List.length y = 4 ->
  DocProc.normalizeDate dateParses (m ++ sep :: d ++ sep :: y)
  = Some (if dateParses (isoForm m d y) then isoForm m d y
          else m ++ sep :: d ++ sep :: y).
Proof.
  intros dateParses sep m d y Hsep Dm Dd Dy Lm Ld Ly.
  destruct slash_not_dash as (N1 & N2 & N3 & N4).
  unfold DocProc.normalizeDate.
  destruct (m ++ sep :: d ++ sep :: y) as [| c0 rest] eqn:E.
  { destruct m; discriminate E. }
  rewrite <- E. clear E c0 rest.
  destruct Hsep as [-> | ->].
  - rewrite date_search_found by assumption.
    rewrite (date_search_absent (@other_sep_absent "/"%char "-"%char m d y N1 N4 Dm Dd Dy)).
    rewrite split_date by assumption.
    change (DocProc.reorder [m; d; y]) with (isoForm m d y).
    destruct (dateParses (isoForm m d y)); reflexivity.
  - rewrite (date_search_absent (@other_sep_absent "-"%char "/"%char m d y N2 N3 Dm Dd Dy)).
    rewrite date_search_found by assumption.
    rewrite split_date by assumption.
    change (DocProc.reorder [m; d; y]) with (isoForm m d y).
    destruct (dateParses (isoForm m d y)); reflexivity.
Qed.

(** C7. [normalizeDate] rewrites every input written MM/DD/YYYY or
    MM-DD-YYYY (one or two digits, one or two digits, four digits) to
    YYYY-MM-DD with the month and the day padded to two digits, and returns
    the input unchanged when the runtime does not parse the rewritten form as
    a date; for any input at all, a result other than the input is a string
    that the runtime parses as a date. With a runtime that parses
    2025-05-01, "05/01/2025" becomes "2025-05-01"; with one that rejects
    2025-13-45, "13/45/2025" is returned as it is. *)
Theorem normalizeDate_rewrites_or_returns_input :
  forall dateParses : jstring -> bool,
    (forall sep m d y,
        sep = "/"%char \/ sep = "-"%char ->
        digits m -> digits d -> digits y ->
        1 <= List.length m <= 2 -> 1 <= List.length d <= 2 -> List.length y = 4 ->
        DocProc.normalizeDate dateParses (m ++ sep :: d ++ sep :: y)
        = Some (if dateParses (isoForm m d y) then isoForm m d y
                else m ++ sep :: d ++ sep :: y))
    /\ (forall input,
           input <> [] ->
           DocProc.normalizeDate dateParses input = Some input
           \/ exists rewritten,
                DocProc.normalizeDate dateParses input = Some rewritten
                /\ dateParses rewritten = true)
    /\ (dateParses (str "2025-05-01") = true ->
        DocProc.normalizeDate dateParses (str "05/01/2025") = Some (str "2025-05-01"))
    /\ (dateParses (str "2025-13-45") = false ->
        DocProc.normalizeDate dateParses (str "13/45/2025") = Some (str "13/45/2025")).
Proof.
  intros dateParses. split; [| split; [| split]].
  - apply normalizeDate_written.
  - intros input N. unfold DocProc.normalizeDate.
    destruct input as [| c rest]; [contradiction |].
    match goal with
    | |- context [dateParses ?x] => destruct (dateParses x) eqn:P
    end.
    + right. eexists. split; [reflexivity | exact P].
    + left. reflexivity.
  - intros P.
    pose proof (@normalizeDate_written dateParses "/"%char (str "05") (str "01") (str "2025")) as H.
    change (isoForm (str "05") (str "01") (str "2025")) with (str "2025-05-01") in H.
    rewrite P in H. apply H; try reflexivity; try (simpl; lia). left; reflexivity.
  - intros P.
    pose proof (@normalizeDate_written dateParses "/"%char (str "13") (str "45") (str "2025")) as H.
    change (isoForm (str "13") (str "45") (str "2025")) with (str "2025-13-45") in H.
    rewrite P in H. apply H; try reflexivity; try (simpl; lia). left; reflexivity.
Qed.

(** The theorem at a runtime that reads the date-only form. *)
Lemma normalizeDate_rewrites_or_returns_input_witness :
  DocProc.normalizeDate DocProc.isoDateOnly (str "05/01/2025") = Some (str "2025-05-01")
  /\ DocProc.normalizeDate DocProc.isoDateOnly (str "13/45/2025") = Some (str "13/45/2025")
  /\ DocProc.normalizeDate DocProc.isoDateOnly (str "7-4-2025") = Some (str "2025-07-04").
Proof.
  destruct (normalizeDate_rewrites_or_returns_input DocProc.isoDateOnly)
    as (G & _ & A & B).
  split; [apply A; reflexivity | split; [apply B; reflexivity |]].
  apply (G "-"%char (str "7") (str "4") (str "2025"));
    try reflexivity; try (simpl; lia). right; reflexivity.
Defined.

(* ================================================================== *)
(** * Text cleaning *)
(* ================================================================== *)

Lemma newline_is_space : forall c, is_newline c = true -> is_space c = true.
Proof.
  intros c H. unfold is_newline in H. unfold is_space.
  apply orb_true_iff in H. destruct H as [H | H];
    apply Nat.eqb_eq in H; rewrite H; reflexivity.
Qed.

Lemma not_space_not_newline : forall c, is_space c = false -> is_newline c = false.
Proof.
  intros c H. destruct (is_newline c) eqn:E; [| reflexivity].
  rewrite (newline_is_space c E) in H. discriminate.
Qed.

Lemma collapseWhitespace_single_line : forall s b,
  single_line (DocProc.collapseWhitespace b s).
Proof.
  unfold single_line.
  induction s as [| c s IH]; intros b; simpl.
  - constructor.
  - destruct (is_space c) eqn:E.
    + apply Forall_app. split; [| apply IH].
      destruct b; repeat constructor.
    + constructor; [apply not_space_not_newline; exact E | apply IH].
Qed.

Lemma single_line_no_LF : forall c s,
  single_line (c :: s) -> ch DocProc.LF c = false.
Proof.
  intros c s H. inversion H; subst.
  destruct (ch DocProc.LF c) eqn:E; [| reflexivity].
  apply ch_eq in E. subst c. discriminate.
Qed.

Lemma collapseBlankLinesFrom_single_line : forall fuel s,
  single_line s -> DocProc.collapseBlankLinesFrom fuel s = s.
Proof.
  induction fuel as [| f IH]; intros s H.
  - reflexivity.
  - destruct s as [| c s]; [reflexivity |].
    cbn [DocProc.collapseBlankLinesFrom].
    rewrite (single_line_no_LF H).
    inversion H; subst. rewrite IH by assumption. reflexivity.
Qed.

Lemma single_line_incl : forall s t,
  (forall a, In a t -> In a s) -> single_line s -> single_line t.
Proof.
  unfold single_line. intros s t I H. rewrite Forall_forall in *. auto.
Qed.

Lemma tightenCurrency_In : forall s b a,
  In a (DocProc.tightenCurrency b s) -> In a s.
Proof.
  induction s as [| c s IH]; intros b a; simpl.
  - auto.
  - destruct (b && is_space c).
    + intros H. right. eapply IH. exact H.
    + intros [H | H]; [left; exact H | right; eapply IH; exact H].
Qed.

Lemma fixBeforeDigit_single_line : forall p r s,
  is_newline r = false -> single_line s -> single_line (DocProc.fixBeforeDigit p r s).
Proof.
  unfold single_line. intros p r s R. induction s as [| c s IH]; intros H; simpl.
  - constructor.
  - inversion H; subst. constructor; [| apply IH; assumption].
    destruct (p c && match s with [] => false | d :: _ => is_digit d end); assumption.
Qed.

Lemma trimStart_In : forall s a, In a (trimStart s) -> In a s.
Proof.
  induction s as [| c s IH]; intros a; simpl.
  - auto.
  - destruct (is_space c); [intros H; right; apply IH; exact H | auto].
Qed.

Lemma trim_In : forall s a, In a (trim s) -> In a s.
Proof.
  intros s a H. unfold trim, trimEnd in H.
  apply in_rev in H. apply trimStart_In in H. apply in_rev in H.
  apply trimStart_In. exact H.
Qed.

Lemma lineRun_single_line : forall s, single_line s -> DocProc.lineRun s = s.
Proof.
  unfold DocProc.lineRun, single_line.
  induction s as [| c s IH]; intros H; simpl.
  - reflexivity.
  - inversion H; subst. rewrite H2. simpl.
    specialize (IH H3).
    destruct (span (fun c0 => negb (is_newline c0)) s) as [a b]. simpl in *.
    rewrite IH. reflexivity.
Qed.

Lemma cleanExtractedText_is_single_line : forall text,
  single_line (DocProc.cleanExtractedText text).
Proof.
  intros text. unfold DocProc.cleanExtractedText.
  destruct text as [| c0 t]; [constructor |].
  eapply single_line_incl; [apply trim_In |].
  repeat (apply fixBeforeDigit_single_line; [reflexivity |]).
  eapply single_line_incl; [apply tightenCurrency_In |].
  eapply single_line_incl;
    [intros a H; apply filter_In in H; destruct H as [H _]; exact H |].
  unfold DocProc.collapseBlankLines.
  rewrite collapseBlankLinesFrom_single_line
    by apply collapseWhitespace_single_line.
  apply collapseWhitespace_single_line.
Qed.

(** C10. The text that [cleanExtractedText] returns has no line feed and no
    carriage return: the first replacement turns every run of white space,
    line breaks included, into one space, so the replacement of blank lines
    that follows changes nothing, and from any place of the cleaned text a
    run of [[^\n\r]+] reaches the end of the text. *)
Theorem cleanExtractedText_has_no_line_break :
  forall text : jstring,
    Forall (fun c => is_newline c = false) (DocProc.cleanExtractedText text)
    /\ DocProc.collapseBlankLines (DocProc.collapseWhitespace false text)
       = DocProc.collapseWhitespace false text
    /\ (forall before rest,
           DocProc.cleanExtractedText text = before ++ rest ->
           DocProc.lineRun rest = rest).
Proof.
  intros text. split; [| split].
  - apply cleanExtractedText_is_single_line.
  - unfold DocProc.collapseBlankLines.
    apply collapseBlankLinesFrom_single_line, collapseWhitespace_single_line.
  - intros before rest E. apply lineRun_single_line.
    pose proof (cleanExtractedText_is_single_line text) as H.
    rewrite E in H. unfold single_line in *.
    apply Forall_app in H. destruct H as [_ H]. exact H.
Qed.

(* ================================================================== *)
(** * Itinerary pairing *)
(* ================================================================== *)

Section Pairing.

Variable dateParses : jstring -> bool.

Lemma reorder_truthy : forall parts, opt_truthy (Some (DocProc.reorder parts)) = true.
Proof.
  intros parts. unfold DocProc.reorder.
  destruct (nth 2 parts []); reflexivity.
Qed.

Lemma normalizeDate_truthy : forall d,
  d <> [] -> opt_truthy (DocProc.normalizeDate dateParses d) = true.
Proof.
  intros d N. unfold DocProc.normalizeDate.
  destruct d as [| c d']; [contradiction |].
  destruct (test_search (DocProc.DATE_WITH "/") (c :: d'));
    destruct (test_search (DocProc.DATE_WITH "-") (c :: d'));
    match goal with
    | |- context [dateParses ?x] => destruct (dateParses x)
    end; simpl negb; cbv iota; try reflexivity; apply reorder_truthy.
Qed.

Variable dates : list jstring.
Variable locations : list (jstring * jstring).
Hypothesis dates_nonempty : Forall (fun d => d <> []) dates.

Let item := DocProc.itemAt dateParses dates locations.

Lemma item_dated : forall i d,
  nth_error dates i = Some d ->
  date (item i) = DocProc.normalizeDate dateParses d /\ DocProc.emitted (item i) = true.
Proof.
  intros i d E. unfold item, DocProc.itemAt, DocProc.emitted. rewrite E. simpl.
  split; [reflexivity |].
  rewrite normalizeDate_truthy; [apply orb_true_r |].
  rewrite Forall_forall in dates_nonempty. apply dates_nonempty.
  eapply nth_error_In. exact E.
Qed.

Lemma item_undated : forall i, List.length dates <= i -> date (item i) = None.
Proof.
  intros i L. unfold item, DocProc.itemAt.
  apply nth_error_None in L. rewrite L. reflexivity.
Qed.

Lemma filter_dated_prefix : forall k,
  k <= List.length dates ->
  filter DocProc.emitted (map item (seq 0 k)) = map item (seq 0 k).
Proof.
  induction k as [| k IH]; intros L.
  - reflexivity.
  - rewrite seq_S, map_app, filter_app, IH by lia. simpl.
    destruct (nth_error dates k) as [d |] eqn:E.
    + destruct (item_dated k E) as [_ Em]. rewrite Em. reflexivity.
    + apply nth_error_None in E. lia.
Qed.

(** The stops: one per date, in order, then the emitted items of the
    locations beyond the dates. *)
Lemma combineStops_split :
  DocProc.combineStops dateParses dates locations
  = map item (seq 0 (List.length dates))
    ++ filter DocProc.emitted
         (map item (seq (List.length dates)
                        (Nat.max (List.length dates) (List.length locations)
                         - List.length dates))).
Proof.
  unfold DocProc.combineStops. fold item.
  replace (Nat.max (List.length dates) (List.length locations))
    with (List.length dates
          + (Nat.max (List.length dates) (List.length locations) - List.length dates))
    at 1 by lia.
  rewrite seq_app, map_app, filter_app, filter_dated_prefix by lia.
  reflexivity.
Qed.

Lemma tail_undated :
  Forall (fun s => date s = None)
    (filter DocProc.emitted
       (map item (seq (List.length dates)
                      (Nat.max (List.length dates) (List.length locations)
                       - List.length dates)))).
Proof.
  rewrite Forall_forall. intros s H.
  apply filter_In in H. destruct H as [H _].
  apply in_map_iff in H. destruct H as (i & <- & H).
  apply in_seq in H. apply item_undated. lia.
Qed.

Lemma stop_at_date : forall i d,
  nth_error dates i = Some d ->
  nth_error (DocProc.combineStops dateParses dates locations) i = Some (item i).
Proof.
  intros i d E. rewrite combineStops_split.
  assert (L : i < List.length dates) by (apply nth_error_Some; congruence).
  rewrite nth_error_app1 by (rewrite length_map, length_seq; exact L).
  rewrite nth_error_map, nth_error_seq.
  destruct (Nat.ltb_spec i (List.length dates)); [reflexivity | lia].
Qed.

Lemma stops_after_dates : forall j s,
  List.length dates <= j ->
  nth_error (DocProc.combineStops dateParses dates locations) j = Some s ->
  date s = None.
Proof.
  intros j s L E. rewrite combineStops_split in E.
  rewrite nth_error_app2 in E by (rewrite length_map, length_seq; exact L).
  apply nth_error_In in E.
  pose proof tail_undated as T. rewrite Forall_forall in T. apply T. exact E.
Qed.

Lemma filter_dated_stops :
  filter dated (DocProc.combineStops dateParses dates locations)
  = map item (seq 0 (List.length dates)).
Proof.
  rewrite combineStops_split, filter_app.
  assert (A : filter dated (map item (seq 0 (List.length dates)))
              = map item (seq 0 (List.length dates))).
  { apply forallb_filter_id. apply forallb_forall. intros s H.
    apply in_map_iff in H. destruct H as (i & <- & H). apply in_seq in H.
    destruct (nth_error dates i) as [d |] eqn:E.
    - destruct (item_dated i E) as [Ed _]. unfold dated. rewrite Ed.
      apply normalizeDate_truthy.
      rewrite Forall_forall in dates_nonempty. apply dates_nonempty.
      eapply nth_error_In. exact E.
    - apply nth_error_None in E. lia. }
  assert (B : filter dated
                (filter DocProc.emitted
                   (map item (seq (List.length dates)
                      (Nat.max (List.length dates) (List.length locations)
                       - List.length dates)))) = []).
  { pose proof tail_undated as T. induction T as [| s l Hs _ IH]; [reflexivity |].
    simpl. unfold dated at 1. rewrite Hs. simpl. exact IH. }
  rewrite A, B, app_nil_r. reflexivity.
Qed.

Lemma stops_count :
  List.length locations <= List.length dates ->
  List.length (DocProc.combineStops dateParses dates locations) = List.length dates.
Proof.
  intros L. rewrite combineStops_split.
  replace (Nat.max (List.length dates) (List.length locations) - List.length dates)
    with 0 by lia.
  simpl. rewrite app_nil_r, length_map, length_seq. reflexivity.
Qed.

Lemma item_with_own_location : forall i d l,
  nth_error dates i = Some d -> nth_error locations i = Some l ->
  item i = mkStop (DocProc.normalizeDate dateParses d) (Some (fst l)) (Some (snd l)).
Proof.
  intros i d l Ed El. unfold item, DocProc.itemAt. rewrite Ed, El. reflexivity.
Qed.

Lemma item_with_last_location : forall i d front l,
  nth_error dates i = Some d -> locations = front ++ [l] ->
  List.length locations <= i ->
  item i = mkStop (DocProc.normalizeDate dateParses d) (Some (fst l)) (Some (snd l)).
Proof.
  intros i d front l Ed El L. unfold item, DocProc.itemAt. rewrite Ed.
  apply nth_error_None in L. rewrite L.
  rewrite El, map_app. simpl. rewrite last_last. reflexivity.
Qed.

Lemma item_without_location : forall i d,
  nth_error dates i = Some d -> locations = [] ->
  item i = mkStop (DocProc.normalizeDate dateParses d) None None.
Proof.
  intros i d Ed El. unfold item, DocProc.itemAt. rewrite Ed, El.
  destruct i; reflexivity.
Qed.

Lemma item_beyond_dates : forall i l,
  List.length dates <= i -> nth_error locations i = Some l ->
  item i = undatedStop l
  /\ DocProc.emitted (item i) = hasCity l.
Proof.
  intros i l L El. unfold item, DocProc.itemAt, DocProc.emitted.
  apply nth_error_None in L. rewrite L, El.
  split; [reflexivity |].
  cbn [city date option_map opt_truthy]. rewrite orb_false_r. reflexivity.
Qed.

(** The items of the locations beyond the dates: each with a city comes
    out, without a date, in the order of the locations. *)
Lemma stops_beyond_dates :
  filter DocProc.emitted
    (map item (seq (List.length dates)
                   (Nat.max (List.length dates) (List.length locations)
                    - List.length dates)))
  = map undatedStop (filter hasCity (skipn (List.length dates) locations)).
Proof.
  replace (Nat.max (List.length dates) (List.length locations) - List.length dates)
    with (List.length locations - List.length dates) by lia.
  assert (G : forall (l : list (jstring * jstring)) (f : nat -> stop) n,
             (forall i a, n <= i -> nth_error l i = Some a ->
                          f i = undatedStop a /\ DocProc.emitted (f i) = hasCity a) ->
             filter DocProc.emitted (map f (seq n (List.length l - n)))
             = map undatedStop (filter hasCity (skipn n l))).
  { induction l as [| a l IH]; intros f n H.
    - destruct n; reflexivity.
    - destruct n as [| n].
      + cbn [List.length Nat.sub seq map filter skipn].
        destruct (H 0 a (Nat.le_refl 0) eq_refl) as [H1 H2].
        rewrite H2, H1, <- seq_shift, map_map.
        rewrite <- (Nat.sub_0_r (List.length l)).
        rewrite (IH (fun i => f (S i)) 0).
        * cbn [skipn]. destruct (hasCity a); reflexivity.
        * intros i b _ E. apply (H (S i) b); [lia | exact E].
      + cbn [List.length Nat.sub skipn].
        rewrite <- seq_shift, map_map.
        apply (IH (fun i => f (S i)) n).
        intros i b L E. apply (H (S i) b); [lia | exact E]. }
  apply G. intros i a L E. apply item_beyond_dates; assumption.
Qed.

End Pairing.

Lemma enhanced_is_combine :
  forall dateParses sectionPatterns datePatterns locationPatterns general
         text (section : jstring),
    DocProc.firstMatch sectionPatterns text = Some section ->
    section <> [] ->
    DocProc.extractItineraryDataEnhanced dateParses sectionPatterns
      datePatterns locationPatterns general text
    = DocProc.combineStops dateParses
        (DocProc.firstYield datePatterns section)
        (map (fun m => (trim (fst m), trim (snd m)))
             (DocProc.firstYield locationPatterns section)).
Proof.
  intros dateParses sp dp lp general text section S N.
  unfold DocProc.extractItineraryDataEnhanced. rewrite S.
  destruct section as [| c sec]; [contradiction | reflexivity].
Qed.

Lemma combineStops_parts :
  forall dateParses dates locations,
    Forall (fun d => d <> []) dates ->
    DocProc.combineStops dateParses dates locations
    = map (DocProc.itemAt dateParses dates locations) (seq 0 (List.length dates))
      ++ map undatedStop (filter hasCity (skipn (List.length dates) locations)).
Proof.
  intros dateParses dates locations F.
  rewrite (@combineStops_split dateParses dates locations F).
  rewrite (stops_beyond_dates dateParses dates locations). reflexivity.
Qed.

(** C8 ([extractItineraryData], [utils.js]). In an itinerary section where
    the winning date pattern yields the dates [dates] and the winning
    location pattern the locations [locations],
    [extractItineraryDataEnhanced] returns one stop for each date, in order:
    the i-th date, normalised, with the i-th location, with the last
    location when the locations have run out, and with no location when
    there is none at all. After these come the locations beyond the dates,
    in order, each without a date, those with an empty city left out: a
    stop comes out exactly when it has a city or a date. The dated stops
    are the first ones, as many as the dates. Three dates and one location
    give three stops with that location; one date and three locations give
    one dated stop and an undated stop for each further location.

    The basic [extractItineraryData] of [utils.js], which
    [validateTarWithPerDiem] reaches through [extractGSAFormData], pairs
    dates and locations up to the shorter of the two and drops the rest:
    three dates and one location give one stop, where the enhanced
    extraction gives three. *)
Theorem itinerary_pairs_dates_with_locations :
  (forall dateParses sectionPatterns datePatterns locationPatterns general
          text (section : jstring) (dates : list jstring)
          (locations : list (jstring * jstring)),
      DocProc.firstMatch sectionPatterns text = Some section ->
      section <> [] ->
      dates = DocProc.firstYield datePatterns section ->
      locations = map (fun m => (trim (fst m), trim (snd m)))
                      (DocProc.firstYield locationPatterns section) ->
      Forall (fun d => d <> []) dates ->
      let stops :=
        DocProc.extractItineraryDataEnhanced dateParses sectionPatterns
          datePatterns locationPatterns general text in
      (forall i d l,
          nth_error dates i = Some d -> nth_error locations i = Some l ->
          nth_error stops i = Some (pairedStop dateParses d l))
      /\ (forall i d front l,
             nth_error dates i = Some d -> locations = front ++ [l] ->
             List.length locations <= i ->
             nth_error stops i = Some (pairedStop dateParses d l))
      /\ (forall i d,
             nth_error dates i = Some d -> locations = [] ->
             nth_error stops i
             = Some (mkStop (DocProc.normalizeDate dateParses d) None None))
      /\ skipn (List.length dates) stops
         = map undatedStop (filter hasCity (skipn (List.length dates) locations))
      /\ List.length stops
         = List.length dates
           + List.length (filter hasCity (skipn (List.length dates) locations))
      /\ filter dated stops = firstn (List.length dates) stops
      /\ List.length (filter dated stops) = List.length dates
      /\ Forall (fun s => DocProc.emitted s = true) stops
      /\ (forall d1 d2 d3 l,
             dates = [d1; d2; d3] -> locations = [l] ->
             stops = [ pairedStop dateParses d1 l; pairedStop dateParses d2 l;
                       pairedStop dateParses d3 l ])
      /\ (forall d l1 l2 l3,
             dates = [d] -> locations = [l1; l2; l3] ->
             stops = pairedStop dateParses d l1
                     :: map undatedStop (filter hasCity [l2; l3])
             /\ filter dated stops = [pairedStop dateParses d l1]))
  /\ (forall itinerarySection datePattern cityStatePattern text
             (section : jstring),
         itinerarySection text = Some section ->
         let dates := datePattern section in
         let found := cityStatePattern section in
         let stops :=
           extractItineraryData itinerarySection datePattern cityStatePattern text in
         let pair d (l : jstring * jstring) :=
           mkStop (Some d) (Some (trim (fst l))) (Some (trim (snd l))) in
         List.length stops = Nat.min (List.length dates) (List.length found)
         /\ (forall i d l,
                nth_error dates i = Some d -> nth_error found i = Some l ->
                nth_error stops i = Some (pair d l))
         /\ (forall d1 d2 d3 l,
                dates = [d1; d2; d3] -> found = [l] -> stops = [pair d1 l])
         /\ (forall d l1 l2 l3,
                dates = [d] -> found = [l1; l2; l3] -> stops = [pair d l1])).
Proof.
  split.
  - intros dateParses sp dp lp general text section dates locations S N Ed El F
           stops.
    assert (C : stops = DocProc.combineStops dateParses dates locations).
    { unfold stops.
      rewrite (@enhanced_is_combine dateParses sp dp lp general text section S N).
      rewrite <- Ed, <- El. reflexivity. }
    clearbody stops. subst stops. clear S N Ed El.
    assert (P := combineStops_parts dateParses locations F).
    assert (D : filter dated (DocProc.combineStops dateParses dates locations)
                = map (DocProc.itemAt dateParses dates locations)
                      (seq 0 (List.length dates))).
    { apply (@filter_dated_stops dateParses dates locations F). }
    split; [| split; [| split; [| split; [| split; [| split; [| split;
      [| split; [| split]]]]]]]].
    + intros i d l Hd Hl.
      rewrite (@stop_at_date dateParses dates locations F i d Hd).
      rewrite (@item_with_own_location dateParses dates locations i d l Hd Hl).
      reflexivity.
    + intros i d front l Hd Hl Le.
      rewrite (@stop_at_date dateParses dates locations F i d Hd).
      rewrite (@item_with_last_location dateParses dates locations i d front l Hd Hl Le).
      reflexivity.
    + intros i d Hd Hl.
      rewrite (@stop_at_date dateParses dates locations F i d Hd).
      rewrite (@item_without_location dateParses dates locations i d Hd Hl).
      reflexivity.
    + rewrite P, skipn_app, length_map, length_seq, Nat.sub_diag.
      rewrite skipn_all2
        by (rewrite length_map, length_seq; apply Nat.le_refl).
      reflexivity.
    + rewrite P, length_app, !length_map, length_seq. reflexivity.
    + rewrite D. rewrite P at 1.
      rewrite firstn_app, length_map, length_seq, Nat.sub_diag.
      rewrite firstn_all2
        by (rewrite length_map, length_seq; apply Nat.le_refl).
      cbn [firstn]. rewrite app_nil_r. reflexivity.
    + rewrite D, length_map, length_seq. reflexivity.
    + apply Forall_forall. intros s I. unfold DocProc.combineStops in I.
      apply filter_In in I. apply I.
    + intros d1 d2 d3 l -> ->. rewrite P. reflexivity.
    + intros d l1 l2 l3 -> ->. split; [rewrite P; reflexivity |].
      rewrite D. reflexivity.
  - intros itinerarySection datePattern cityStatePattern text section S
           dates found stops pair.
    assert (C : stops = pairItinerary dates found).
    { unfold stops, extractItineraryData. rewrite S. reflexivity. }
    clearbody stops. subst stops.
    split; [| split; [| split]].
    + unfold pairItinerary. rewrite length_map, length_seq. reflexivity.
    + intros i d l Hd Hl. unfold pairItinerary.
      assert (Li : i < Nat.min (List.length dates) (List.length found)).
      { apply Nat.min_glb_lt; apply nth_error_Some; congruence. }
      rewrite nth_error_map, nth_error_seq.
      destruct (Nat.ltb_spec i (Nat.min (List.length dates) (List.length found)));
        [| lia].
      cbn [option_map Nat.add]. rewrite Hd, Hl. reflexivity.
    + intros d1 d2 d3 l E1 E2. rewrite E1, E2. reflexivity.
    + intros d l1 l2 l3 E1 E2. rewrite E1, E2. reflexivity.
Qed.

(** The theorem on sections with one date and three locations, and with
    three dates and one location. *)
Lemma itinerary_pairs_dates_with_locations_witness :
  DocProc.extractItineraryDataEnhanced DocProc.isoDateOnly
    [fun _ => Some (str " 1/2/2025 Boston, MA Chicago, IL Denver, CO")]
    [fun _ => [str "1/2/2025"]]
    [fun _ => [(str " Boston", str "MA"); (str " Chicago", str "IL");
               (str " Denver", str "CO")]]
    (fun _ => [])
    (str "ITINERARY 1/2/2025 Boston, MA Chicago, IL Denver, CO")
  = [ mkStop (Some (str "2025-01-02")) (Some (str "Boston")) (Some (str "MA"));
      mkStop None (Some (str "Chicago")) (Some (str "IL"));
      mkStop None (Some (str "Denver")) (Some (str "CO")) ]
  /\ DocProc.extractItineraryDataEnhanced DocProc.isoDateOnly
       [fun _ => Some (str " 1/2/2025 1/3/2025 1/4/2025 Boston, MA")]
       [fun _ => [str "1/2/2025"; str "1/3/2025"; str "1/4/2025"]]
       [fun _ => [(str " Boston", str "MA")]]
       (fun _ => [])
       (str "ITINERARY 1/2/2025 1/3/2025 1/4/2025 Boston, MA")
     = [ mkStop (Some (str "2025-01-02")) (Some (str "Boston")) (Some (str "MA"));
         mkStop (Some (str "2025-01-03")) (Some (str "Boston")) (Some (str "MA"));
         mkStop (Some (str "2025-01-04")) (Some (str "Boston")) (Some (str "MA")) ]
  /\ extractItineraryData
       (fun _ => Some (str " 1/2/2025 1/3/2025 1/4/2025 Boston, MA"))
       (fun _ => [str "1/2/2025"; str "1/3/2025"; str "1/4/2025"])
       (fun _ => [(str " Boston", str "MA")])
       (str "AUTHORIZED OFFICIAL ITINERARY 1/2/2025 1/3/2025 1/4/2025 Boston, MA"
          ++ [DocProc.LF; DocProc.LF] ++ str "TOTAL")
     = [ mkStop (Some (str "1/2/2025")) (Some (str "Boston")) (Some (str "MA")) ].
Proof.
  split; [| split].
  - destruct (proj1 itinerary_pairs_dates_with_locations DocProc.isoDateOnly
         [fun _ => Some (str " 1/2/2025 Boston, MA Chicago, IL Denver, CO")]
         [fun _ => [str "1/2/2025"]]
         [fun _ => [(str " Boston", str "MA"); (str " Chicago", str "IL");
                    (str " Denver", str "CO")]]
         (fun _ => [])
         (str "ITINERARY 1/2/2025 Boston, MA Chicago, IL Denver, CO")
         (str " 1/2/2025 Boston, MA Chicago, IL Denver, CO")
         [str "1/2/2025"]
         [(str "Boston", str "MA"); (str "Chicago", str "IL");
          (str "Denver", str "CO")]
         eq_refl ltac:(discriminate) eq_refl eq_refl
         ltac:(repeat constructor; discriminate))
      as (_ & _ & _ & _ & _ & _ & _ & _ & _ & H).
    exact (proj1 (H (str "1/2/2025") (str "Boston", str "MA")
                    (str "Chicago", str "IL") (str "Denver", str "CO")
                    eq_refl eq_refl)).
  - destruct (proj1 itinerary_pairs_dates_with_locations DocProc.isoDateOnly
         [fun _ => Some (str " 1/2/2025 1/3/2025 1/4/2025 Boston, MA")]
         [fun _ => [str "1/2/2025"; str "1/3/2025"; str "1/4/2025"]]
         [fun _ => [(str " Boston", str "MA")]]
         (fun _ => [])
         (str "ITINERARY 1/2/2025 1/3/2025 1/4/2025 Boston, MA")
         (str " 1/2/2025 1/3/2025 1/4/2025 Boston, MA")
         [str "1/2/2025"; str "1/3/2025"; str "1/4/2025"]
         [(str "Boston", str "MA")]
         eq_refl ltac:(discriminate) eq_refl eq_refl
         ltac:(repeat constructor; discriminate))
      as (_ & _ & _ & _ & _ & _ & _ & _ & H & _).
    exact (H (str "1/2/2025") (str "1/3/2025") (str "1/4/2025")
             (str "Boston", str "MA") eq_refl eq_refl).
  - destruct (proj2 itinerary_pairs_dates_with_locations
         (fun _ => Some (str " 1/2/2025 1/3/2025 1/4/2025 Boston, MA"))
         (fun _ => [str "1/2/2025"; str "1/3/2025"; str "1/4/2025"])
         (fun _ => [(str " Boston", str "MA")])
         (str "AUTHORIZED OFFICIAL ITINERARY 1/2/2025 1/3/2025 1/4/2025 Boston, MA"
          ++ [DocProc.LF; DocProc.LF] ++ str "TOTAL")
         (str " 1/2/2025 1/3/2025 1/4/2025 Boston, MA") eq_refl)
      as (_ & _ & H & _).
    exact (H (str "1/2/2025") (str "1/3/2025") (str "1/4/2025")
             (str " Boston", str "MA") eq_refl eq_refl).
Defined.

(* ================================================================== *)
(** * The validation report *)
(* ================================================================== *)

(** ** The Apps Script build *)

Lemma gas_percent_of_zero_expected :
  forall host extracted expected claimed,
    nstrict_eq (totalExpected expected) (num 0) = true ->
    variancePercent
      (validation (Gas.generateValidationReport host extracted expected claimed))
    = str "0.00".
Proof.
  intros host extracted expected claimed Z.
  unfold Gas.generateValidationReport. simpl. rewrite Z. reflexivity.
Qed.

Lemma gas_checks :
  forall host extracted expected claimed,
    let v := validation (Gas.generateValidationReport host extracted expected claimed) in
    variance v = nsub claimed (totalExpected expected)
    /\ isWithinBuffer v = withinBuffer claimed (totalExpected expected)
    /\ isWithinDeviation v = withinDeviation claimed (totalExpected expected).
Proof.
  intros. repeat split.
Qed.

Lemma gas_recommendations :
  forall host extracted expected claimed,
    let report := Gas.generateValidationReport host extracted expected claimed in
    let v := validation report in
    recommendations report
    = (if isWithinBuffer v then [] else [MSG_BUFFER])
      ++ (if isWithinDeviation v then [] else [MSG_DEVIATION (variancePercent v)])
      ++ (match breakdown expected with [] => [MSG_NO_ITINERARY] | _ => [] end).
Proof.
  intros host extracted expected claimed. cbv zeta.
  unfold Gas.generateValidationReport.
  cbn [recommendations validation isWithinBuffer isWithinDeviation
       variancePercent breakdown].
  repeat match goal with
         | |- context [nle ?a ?b] => destruct (nle a b)
         end; reflexivity.
Qed.

(** ** The Node build *)

(** C1 ([utils.js]). The report of the Node build divides by the expected
    total without a guard: for the expected costs of an empty itinerary
    (total 0) and a claimed cost of 100 its [variancePercent] is "Infinity",
    and for a claimed cost of 0 it is "NaN", where the specification asks
    for 0. *)
Theorem node_percent_of_zero_expected :
  forall (host : Host) (extracted : jobj),
    let expected := calculateExpectedCosts Node.CONFIG host [] in
    totalExpected expected = num 0
    /\ variancePercent
         (validation (Node.generateValidationReport host extracted expected (num 100)))
       = str "Infinity"
    /\ variancePercent
         (validation (Node.generateValidationReport host extracted expected (num 0)))
       = str "NaN".
Proof.
  intros host extracted expected. repeat split.
Qed.

(** C2 ([utils.js]). The deviation check of the Node build takes the
    absolute value of the variance only, not of the percentage: for a
    duration of -1 and the default rates the expected total is -229, and for
    a claimed cost of 0 the report sets [isWithinDeviation] to true although
    |100 (c - e) / e| = 100 exceeds 15. With an expected total of 0 and a
    claimed cost of 5 the check is false although the deviation is taken as 0
    there. For an expected total of 1000 the checks are as specified:
    1015 fails the buffer only, 1200 fails both. *)
Theorem node_deviation_check_of_negative_total :
  forall pdf now render,
    let host := offline pdf now render in
    (exists r,
        Node.validateTarWithPerDiem host (sampleForm (-1) 0) = Validated r
        /\ totalExpected (expectedCosts (validation (r_validationReport r))) = num (-229)
        /\ claimedCost (validation (r_validationReport r)) = num 0
        /\ isWithinDeviation (validation (r_validationReport r)) = true
        /\ withinDeviation (num 0) (num (-229)) = false)
    /\ (let v := validation
                   (Node.generateValidationReport host [] (mkExpected (num 0) []) (num 5)) in
        isWithinBuffer v = true /\ isWithinDeviation v = false
        /\ withinDeviation (num 5) (num 0) = true)
    /\ (let v := validation
                   (Node.generateValidationReport host [] (mkExpected (num 1000) []) (num 1015)) in
        isWithinBuffer v = false /\ isWithinDeviation v = true)
    /\ (let v := validation
                   (Node.generateValidationReport host [] (mkExpected (num 1000) []) (num 1200)) in
        isWithinBuffer v = false /\ isWithinDeviation v = false).
Proof.
  intros pdf now render host. split; [| repeat split].
  eexists. split; [vm_compute; reflexivity | repeat split].
Qed.

(** C4 ([utils.js]). The buffer rule of the Node build reads the signed
    variance: for an expected total of 229 and a claimed cost of 100 the
    report has [isWithinBuffer] false and no buffer message. Its deviation
    rule reads the percentage rounded to two decimals: for an expected total
    of 100000 and a claimed cost of 115004 the report has
    [isWithinDeviation] false and no deviation message. *)
Theorem node_recommendations_miss_cases :
  forall pdf now render,
    let host := offline pdf now render in
    (exists r,
        Node.validateTarWithPerDiem host (sampleForm 1 100) = Validated r
        /\ totalExpected (expectedCosts (validation (r_validationReport r))) = num 229
        /\ isWithinBuffer (validation (r_validationReport r)) = false
        /\ recommendations (r_validationReport r) = [MSG_DEVIATION (str "-56.33")])
    /\ (let report :=
          Node.generateValidationReport host [] (mkExpected (num 100000) []) (num 115004) in
        isWithinDeviation (validation report) = false
        /\ recommendations report = [MSG_BUFFER; MSG_NO_ITINERARY]).
Proof.
  intros pdf now render host. split; [| repeat split].
  eexists. split; [vm_compute; reflexivity | repeat split].
Qed.

(* ================================================================== *)
(** * Reading numbers *)
(* ================================================================== *)

Ltac ascii_cases c :=
  destruct c as [[] [] [] [] [] [] [] []]; vm_compute;
  repeat split; intros; try reflexivity; try discriminate.

Lemma digit_class : forall c,
  is_digit c = true ->
  is_space c = false /\ ch "." c = false /\ ch "-" c = false /\ ch "+" c = false
  /\ ch "e" c = false /\ ch "E" c = false /\ Ascii.eqb "I" c = false.
Proof.
  intros c. ascii_cases c.
Qed.

Lemma space_class : forall c,
  is_space c = true ->
  is_digit c = false /\ ch "." c = false /\ ch "-" c = false /\ ch "+" c = false
  /\ ch "e" c = false /\ ch "E" c = false /\ Ascii.eqb "I" c = false.
Proof.
  intros c. ascii_cases c.
Qed.

Lemma point_class :
  is_digit "." = false /\ is_space "." = false /\ ch "-" "." = false
  /\ ch "+" "." = false /\ Ascii.eqb "I" "." = false.
Proof.
  repeat split.
Qed.

Lemma span_digits : forall ds rest,
  digits ds ->
  match rest with c :: _ => is_digit c = false | [] => True end ->
  span is_digit (ds ++ rest) = (ds, rest).
Proof.
  induction ds as [| d ds IH]; intros rest D R.
  - destruct rest as [| c rest]; [reflexivity |]. simpl. rewrite R. reflexivity.
  - unfold digits in D. simpl in D. apply andb_true_iff in D. destruct D as [D1 D2].
    simpl. rewrite D1. rewrite (IH rest D2 R). reflexivity.
Qed.

Lemma trimStart_blank_app : forall a x, blank a -> trimStart (a ++ x) = trimStart x.
Proof.
  induction a as [| c a IH]; intros x B.
  - reflexivity.
  - unfold blank in B. simpl in B. apply andb_true_iff in B. destruct B as [B1 B2].
    simpl. rewrite B1. apply IH. exact B2.
Qed.

Lemma trimStart_head : forall c x, is_space c = false -> trimStart (c :: x) = c :: x.
Proof.
  intros c x H. simpl. rewrite H. reflexivity.
Qed.

Lemma trimStart_blank : forall a, blank a -> trimStart a = [].
Proof.
  intros a B. rewrite <- (app_nil_r a). rewrite trimStart_blank_app by exact B.
  reflexivity.
Qed.

Lemma blank_rev : forall a, blank a -> blank (rev a).
Proof.
  intros a B. unfold blank in *. rewrite forallb_forall in *.
  intros c I. apply B. apply in_rev. exact I.
Qed.

Lemma trim_blank : forall a, blank a -> trim a = [].
Proof.
  intros a B. unfold trim, trimEnd. rewrite (trimStart_blank B). reflexivity.
Qed.

(** A text without white space at its two ends, padded with white space,
    is what [trim] returns. *)
Lemma trim_padded : forall a t b,
  blank a -> blank b -> solid t ->
  trim (a ++ t ++ b) = t.
Proof.
  intros a t b Ba Bb St. unfold trim, trimEnd.
  rewrite trimStart_blank_app by exact Ba.
  destruct t as [| c t].
  - simpl. rewrite (trimStart_blank Bb). simpl. reflexivity.
  - assert (Hc : is_space c = false).
    { unfold solid in St. simpl in St. apply andb_true_iff in St.
      destruct St as [St _]. destruct (is_space c); [discriminate | reflexivity]. }
    change ((c :: t) ++ b) with (c :: t ++ b).
    rewrite (@trimStart_head c (t ++ b) Hc).
    change (c :: t ++ b) with ((c :: t) ++ b).
    rewrite rev_app_distr.
    rewrite trimStart_blank_app by (apply blank_rev; exact Bb).
    assert (R : trimStart (rev (c :: t)) = rev (c :: t)).
    { destruct (rev (c :: t)) as [| z r] eqn:E; [reflexivity |].
      apply trimStart_head.
      assert (I : In z (c :: t)).
      { apply in_rev. rewrite E. left. reflexivity. }
      unfold solid in St. rewrite forallb_forall in St. specialize (St z I).
      destruct (is_space z); [discriminate | reflexivity]. }
    rewrite R. apply rev_involutive.
Qed.

Lemma literal_text_solid : forall l, literal_ok l -> solid (literal_text l).
Proof.
  intros l (Di & Df & _). unfold solid, literal_text, frac_digits in *.
  rewrite forallb_app. apply andb_true_iff. split.
  - unfold digits in Di. rewrite forallb_forall in *. intros c I.
    destruct (digit_class c (Di c I)) as (S & _). rewrite S. reflexivity.
  - destruct (frac_part l) as [f |]; [| reflexivity].
    simpl. unfold digits in Df. rewrite forallb_forall in *. intros c I.
    destruct (digit_class c (Df c I)) as (S & _). rewrite S. reflexivity.
Qed.

Lemma literal_text_absent : forall c l,
  is_digit c = false -> ch c "." = false -> literal_ok l -> absent c (literal_text l).
Proof.
  intros c l N P (Di & Df & _). unfold literal_text, frac_digits in *.
  apply absent_app; [apply digits_absent; assumption |].
  destruct (frac_part l) as [f |]; [| reflexivity].
  apply absent_cons; [exact P | apply digits_absent; assumption].
Qed.

Lemma blank_absent : forall c s, is_space c = false -> blank s -> absent c s.
Proof.
  intros c s N B. unfold absent, blank in *. rewrite forallb_forall in *.
  intros a I. specialize (B a I).
  destruct (ch c a) eqn:E; [| reflexivity].
  apply ch_eq in E. subst a. congruence.
Qed.

Lemma endsLiteral_head : forall c s,
  endsLiteral (c :: s) = true ->
  is_digit c = false /\ ch "." c = false /\ ch "e" c = false /\ ch "E" c = false.
Proof.
  intros c s H. unfold endsLiteral in H.
  destruct (is_digit c); [discriminate |].
  destruct (ch "." c); [discriminate |].
  destruct (ch "e" c); [discriminate |].
  destruct (ch "E" c); [discriminate |].
  repeat split.
Qed.

Lemma endsLiteral_no_digit : forall s,
  endsLiteral s = true ->
  match s with c :: _ => is_digit c = false | [] => True end.
Proof.
  intros [| c s] H; [exact I |]. apply (@endsLiteral_head _ _ H).
Qed.

Lemma scanExponent_end : forall post,
  endsLiteral post = true -> scanExponent post = (0%Z, post).
Proof.
  intros [| c s] H; [reflexivity |].
  destruct (@endsLiteral_head _ _ H) as (_ & _ & He & HE).
  unfold scanExponent. rewrite He, HE. reflexivity.
Qed.

Lemma scanUnsigned_literal : forall l post,
  literal_ok l -> endsLiteral post = true ->
  scanUnsigned (literal_text l ++ post) = Some (literal_value l, post).
Proof.
  intros [ip fr] post (Di & Df & Ne) E.
  unfold literal_text, literal_value, frac_digits in *. simpl in *.
  unfold scanUnsigned.
  destruct fr as [fp |].
  - rewrite <- app_assoc. simpl.
    rewrite (@span_digits ip ("."%char :: fp ++ post) Di) by reflexivity.
    cbv beta iota zeta.
    rewrite (@span_digits fp post Df) by (apply endsLiteral_no_digit; exact E).
    rewrite (@scanExponent_end post E).
    destruct ip as [| i ip]; [| reflexivity].
    destruct fp as [| f fp]; [| reflexivity].
    exfalso. apply Ne. reflexivity.
  - rewrite app_nil_r in *.
    rewrite (@span_digits ip post Di) by (apply endsLiteral_no_digit; exact E).
    cbv beta iota zeta.
    destruct ip as [| i ip]; [exfalso; apply Ne; reflexivity |].
    destruct post as [| c post]; [reflexivity |].
    destruct (@endsLiteral_head _ _ E) as (_ & Hp & _).
    rewrite Hp. rewrite (@scanExponent_end (c :: post) E). reflexivity.
Qed.

(** A literal begins with a digit or with the point. *)
Lemma literal_head : forall l,
  literal_ok l ->
  exists c t, literal_text l = c :: t /\ (is_digit c = true \/ c = "."%char).
Proof.
  intros [ip fr] (Di & Df & Ne). unfold literal_text, frac_digits in *. simpl in *.
  destruct ip as [| i ip].
  - destruct fr as [fp |].
    + exists "."%char, fp. split; [reflexivity | right; reflexivity].
    + exfalso. apply Ne. reflexivity.
  - unfold digits in Di. simpl in Di. apply andb_true_iff in Di.
    eexists. eexists. split; [reflexivity | left; apply Di].
Qed.

Lemma literal_head_class : forall l,
  literal_ok l ->
  exists c t, literal_text l = c :: t
    /\ is_space c = false /\ ch "-" c = false /\ ch "+" c = false
    /\ Ascii.eqb "I" c = false.
Proof.
  intros l H. destruct (literal_head H) as (c & t & E & [D | ->]).
  - exists c, t. destruct (@digit_class c D) as (A & _ & B & C & _ & _ & F).
    repeat split; assumption.
  - exists "."%char, t. repeat split; assumption || reflexivity.
Qed.

Lemma strip_infinity_none : forall c s,
  Ascii.eqb "I" c = false -> strip_prefix (str "Infinity") (c :: s) = None.
Proof.
  intros c s H. change (str "Infinity") with ("I"%char :: str "nfinity").
  cbn [strip_prefix]. rewrite H. reflexivity.
Qed.

Lemma scanStrDecimal_literal : forall l post,
  literal_ok l -> endsLiteral post = true ->
  scanStrDecimal (literal_text l ++ post) = Some (Fin (literal_value l), post).
Proof.
  intros l post L E.
  pose proof (@scanUnsigned_literal l post L E) as U.
  destruct (literal_head_class L) as (c & t & T & _ & Hm & Hp & Hi).
  rewrite T in *. simpl app in *.
  unfold scanStrDecimal. rewrite Hp, Hm.
  unfold scanMagnitude.
  rewrite (@strip_infinity_none c (t ++ post) Hi).
  rewrite U. reflexivity.
Qed.

Lemma scanStrDecimal_negative : forall l post,
  literal_ok l -> endsLiteral post = true ->
  scanStrDecimal ("-"%char :: literal_text l ++ post)
  = Some (nneg (Fin (literal_value l)), post).
Proof.
  intros l post L E.
  pose proof (@scanUnsigned_literal l post L E) as U.
  destruct (literal_head_class L) as (c & t & T & _ & _ & _ & Hi).
  rewrite T in *. simpl app in *.
  unfold scanStrDecimal.
  change (ch "+" "-") with false. change (ch "-" "-") with true. cbv iota.
  unfold scanMagnitude.
  rewrite (@strip_infinity_none c (t ++ post) Hi).
  rewrite U. reflexivity.
Qed.

Lemma blank_endsLiteral : forall s, blank s -> endsLiteral s = true.
Proof.
  intros [| c s] B; [reflexivity |].
  unfold blank in B. simpl in B. apply andb_true_iff in B. destruct B as [B _].
  destruct (@space_class c B) as (D & P & _ & _ & He & HE & _).
  unfold endsLiteral. rewrite D, P, He, HE. reflexivity.
Qed.

(** [parseFloat] of a numeric string. *)
Lemma parseFloat_str_numeric : forall pre (negative : bool) l post,
  blank pre -> literal_ok l -> blank post ->
  parseFloat_str (pre ++ (if negative then str "-" else []) ++ literal_text l ++ post)
  = if negative then nneg (Fin (literal_value l)) else Fin (literal_value l).
Proof.
  intros pre negative l post Bp L Bq.
  unfold parseFloat_str. rewrite trimStart_blank_app by exact Bp.
  pose proof (blank_endsLiteral Bq) as E.
  destruct negative.
  - change (str "-" ++ literal_text l ++ post)
      with ("-"%char :: literal_text l ++ post).
    rewrite trimStart_head by reflexivity.
    rewrite (@scanStrDecimal_negative l post L E). reflexivity.
  - simpl app.
    destruct (literal_head_class L) as (c & t & T & Hs & _).
    assert (X : trimStart (literal_text l ++ post) = literal_text l ++ post).
    { rewrite T. simpl app. apply trimStart_head. exact Hs. }
    rewrite X. rewrite (@scanStrDecimal_literal l post L E). reflexivity.
Qed.

Lemma span_no_digit : forall s,
  match s with c :: _ => is_digit c = false | [] => True end ->
  span is_digit s = ([], s).
Proof.
  intros [| c s] H; [reflexivity |]. simpl. rewrite H. reflexivity.
Qed.

Lemma scanUnsigned_no_start : forall s,
  match s with
  | c :: s' =>
      is_digit c || (ch "." c && match s' with d :: _ => is_digit d | [] => false end)
  | [] => false
  end = false ->
  scanUnsigned s = None.
Proof.
  intros [| c s'] H; [reflexivity |].
  apply orb_false_iff in H. destruct H as [Hd Hp].
  unfold scanUnsigned.
  rewrite (@span_no_digit (c :: s') Hd).
  destruct (ch "." c) eqn:P; [| reflexivity].
  simpl in Hp.
  rewrite (@span_no_digit s') by (destruct s'; [exact I | exact Hp]).
  reflexivity.
Qed.

Lemma scanMagnitude_no_start : forall s,
  magnitudeStart s = false -> scanMagnitude s = None.
Proof.
  intros s H. unfold magnitudeStart in H. unfold scanMagnitude.
  destruct (strip_prefix (str "Infinity") s); [discriminate |].
  rewrite (scanUnsigned_no_start s H). reflexivity.
Qed.

(** A string that does not begin with a number has no numeric prefix. *)
Lemma scanStrDecimal_no_start : forall s,
  numericStart s = false -> scanStrDecimal s = None.
Proof.
  intros [| c s'] H; [reflexivity |].
  unfold numericStart in H. unfold scanStrDecimal.
  destruct (ch "+" c), (ch "-" c); cbn [orb] in H;
    try (apply scanMagnitude_no_start; exact H);
    rewrite (scanMagnitude_no_start s' H); reflexivity.
Qed.

Lemma parseFloat_str_no_start : forall s,
  numericStart (trimStart s) = false -> parseFloat_str s = NaN.
Proof.
  intros s H. unfold parseFloat_str.
  rewrite (scanStrDecimal_no_start _ H). reflexivity.
Qed.

Lemma strip_prefix_app : forall p a b r,
  strip_prefix p a = Some r -> strip_prefix p (a ++ b) = Some (r ++ b).
Proof.
  induction p as [| x p IH]; intros a b r H.
  - simpl in *. injection H as <-. reflexivity.
  - destruct a as [| y a]; [discriminate |].
    simpl in *. destruct (Ascii.eqb x y); [| discriminate].
    apply IH. exact H.
Qed.

Lemma magnitudeStart_app : forall a b,
  magnitudeStart a = true -> magnitudeStart (a ++ b) = true.
Proof.
  intros a b H. unfold magnitudeStart in *.
  destruct (strip_prefix (str "Infinity") a) as [r |] eqn:E.
  - rewrite (strip_prefix_app _ _ b E). reflexivity.
  - destruct (strip_prefix (str "Infinity") (a ++ b)); [reflexivity |].
    destruct a as [| c a]; [discriminate |].
    change ((c :: a) ++ b) with (c :: a ++ b). cbv beta iota.
    apply orb_true_iff in H. destruct H as [H | H].
    + rewrite H. reflexivity.
    + apply andb_true_iff in H. destruct H as [H1 H2].
      destruct a as [| d a]; [discriminate |].
      change ((d :: a) ++ b) with (d :: a ++ b). cbv beta iota.
      rewrite H1, H2. apply orb_true_r.
Qed.

Lemma numericStart_app : forall a b,
  numericStart a = true -> numericStart (a ++ b) = true.
Proof.
  intros [| c a] b H; [discriminate |].
  change ((c :: a) ++ b) with (c :: a ++ b).
  unfold numericStart in *.
  destruct (ch "+" c), (ch "-" c); cbn [orb] in *;
    solve [ apply magnitudeStart_app; exact H
          | apply (magnitudeStart_app (c :: a) b H) ].
Qed.

Lemma trimStart_app_nonblank : forall a b,
  trimStart a <> [] -> trimStart (a ++ b) = trimStart a ++ b.
Proof.
  induction a as [| c a IH]; intros b H.
  - contradiction H. reflexivity.
  - simpl in *. destruct (is_space c); [apply IH; exact H | reflexivity].
Qed.

Lemma trimStart_idem : forall a, trimStart (trimStart a) = trimStart a.
Proof.
  induction a as [| c a IH]; [reflexivity |].
  simpl. destruct (is_space c) eqn:E; [exact IH |].
  simpl. rewrite E. reflexivity.
Qed.

Lemma trimStart_suffix : forall a, exists w, a = w ++ trimStart a.
Proof.
  induction a as [| c a (w & IH)].
  - exists []. reflexivity.
  - simpl. destruct (is_space c).
    + exists (c :: w). simpl. rewrite <- IH. reflexivity.
    + exists []. reflexivity.
Qed.

Lemma trimEnd_prefix : forall a, exists w, a = trimEnd a ++ w.
Proof.
  intros a. unfold trimEnd.
  destruct (trimStart_suffix (rev a)) as (w & E).
  exists (rev w).
  rewrite <- rev_app_distr, <- E. symmetry. apply rev_involutive.
Qed.

Lemma numeric_trim_app : forall a b,
  numericStart (trimStart a) = true -> numericStart (trimStart (a ++ b)) = true.
Proof.
  intros a b H.
  rewrite trimStart_app_nonblank.
  - apply numericStart_app. exact H.
  - intros E. rewrite E in H. discriminate.
Qed.

(** If the text before the first hyphen reads as a number, so does the
    whole string. *)
Lemma numeric_first_piece : forall p0 rest,
  numericStart (trimStart (trim p0)) = true ->
  numericStart (trimStart (p0 ++ rest)) = true.
Proof.
  intros p0 rest H. unfold trim in H.
  destruct (trimEnd_prefix (trimStart p0)) as (w & E).
  apply numeric_trim_app. rewrite <- trimStart_idem. rewrite E.
  apply numeric_trim_app. exact H.
Qed.

Lemma includes_absent : forall c s, absent c s -> includes c s = false.
Proof.
  intros c. induction s as [| a s IH]; intros H; [reflexivity |].
  unfold absent in H. simpl in H. apply andb_true_iff in H. destruct H as [H1 H2].
  unfold includes. simpl. destruct (ch c a); [discriminate |].
  apply IH. exact H2.
Qed.

Lemma includes_middle : forall c a b, includes c (a ++ c :: b) = true.
Proof.
  intros c a b. unfold includes. rewrite existsb_app. simpl.
  rewrite ch_refl. apply orb_true_r.
Qed.

Lemma includes_first : forall c s,
  includes c s = true -> exists a b, s = a ++ c :: b /\ absent c a.
Proof.
  intros c. induction s as [| x s IH]; intros H; [discriminate |].
  unfold includes in H. simpl in H.
  destruct (ch c x) eqn:E.
  - apply ch_eq in E. subst x. exists [], s. split; reflexivity.
  - destruct (IH H) as (a & b & -> & A).
    exists (x :: a), b. split; [reflexivity |].
    apply absent_cons; assumption.
Qed.

Lemma split_nonempty : forall c s, exists q qs, split c s = q :: qs.
Proof.
  intros c. induction s as [| x s (q & qs & IH)].
  - eexists. eexists. reflexivity.
  - simpl. destruct (ch c x); [eexists; eexists; reflexivity |].
    rewrite IH. eexists. eexists. reflexivity.
Qed.

(* ================================================================== *)
(** * Averaging the monthly rates *)
(* ================================================================== *)

Lemma parseRate_plain : forall s,
  includes "-" s = false -> parseRate (VStr s) = parseFloat_str s.
Proof.
  intros s H. unfold parseRate. rewrite H. reflexivity.
Qed.

Lemma parseRate_low_nan : forall s p0 rest,
  split "-" s = p0 :: rest -> parseFloat_str (trim p0) = NaN ->
  parseRate (VStr s) = parseFloat_str s.
Proof.
  intros s p0 rest S L. unfold parseRate. rewrite S.
  destruct (includes "-" s); [| reflexivity].
  cbn [map]. rewrite L.
  destruct (map (fun p => parseFloat_str (trim p)) rest); reflexivity.
Qed.

Lemma parseRate_range : forall s p0 p1 rest a b,
  includes "-" s = true -> split "-" s = p0 :: p1 :: rest ->
  parseFloat_str (trim p0) = Fin a -> parseFloat_str (trim p1) = Fin b ->
  parseRate (VStr s) = ndiv (nadd (Fin a) (Fin b)) (num 2).
Proof.
  intros s p0 p1 rest a b I S A B. unfold parseRate.
  rewrite I, S. cbn [map]. rewrite A, B. reflexivity.
Qed.

Lemma parseFloat_str_literal : forall l,
  literal_ok l -> parseFloat_str (literal_text l) = Fin (literal_value l).
Proof.
  intros l L.
  pose proof (@parseFloat_str_numeric [] false l [] eq_refl L eq_refl) as H.
  simpl app in H. rewrite app_nil_r in H. exact H.
Qed.

Lemma hyphen_class : is_digit "-" = false /\ ch "-" "." = false /\ is_space "-" = false.
Proof.
  repeat split.
Qed.

Lemma padded_literal_absent : forall a l b,
  blank a -> literal_ok l -> blank b -> absent "-" (a ++ literal_text l ++ b).
Proof.
  intros a l b Ba L Bb. destruct hyphen_class as (Hd & Hp & Hs).
  apply absent_app; [apply blank_absent; assumption |].
  apply absent_app; [apply literal_text_absent; assumption |].
  apply blank_absent; assumption.
Qed.

(** What [parseRate] reads from an entry: the number it contributes, or
    [NaN] when it contributes nothing. *)
Lemma parseRate_entry : forall e,
  entry_ok e ->
  parseRate (entry_value e)
  = match entry_number e with x :: _ => x | [] => NaN end.
Proof.
  intros [x | pre negative l post | p1 low p2 p3 high p4 | [|] | s] OK;
    cbn [entry_value entry_number].
  - destruct x; reflexivity.
  - destruct OK as (Bp & L & Bq).
    rewrite <- (@parseFloat_str_numeric pre negative l post Bp L Bq).
    destruct negative.
    + change (str "-" ++ literal_text l ++ post)
        with ("-"%char :: literal_text l ++ post).
      eapply parseRate_low_nan.
      * apply split_app. apply blank_absent; [reflexivity | exact Bp].
      * rewrite (trim_blank Bp). reflexivity.
    + apply parseRate_plain. apply includes_absent.
      change ([] ++ literal_text l ++ post) with (literal_text l ++ post).
      apply padded_literal_absent; assumption.
  - destruct OK as (B1 & B2 & B3 & B4 & Ll & Lh).
    eapply parseRate_range.
    + apply includes_middle.
    + rewrite split_app by (apply padded_literal_absent; assumption).
      rewrite split_absent by (apply padded_literal_absent; assumption).
      reflexivity.
    + rewrite (@trim_padded p1 (literal_text low) p2 B1 B2 (literal_text_solid Ll)).
      apply parseFloat_str_literal. exact Ll.
    + rewrite (@trim_padded p3 (literal_text high) p4 B3 B4 (literal_text_solid Lh)).
      apply parseFloat_str_literal. exact Lh.
  - reflexivity.
  - reflexivity.
  - simpl in OK. rewrite <- (parseFloat_str_no_start s OK).
    destruct (includes "-" s) eqn:I.
    + destruct (includes_first _ _ I) as (p0 & rest & E & A).
      destruct (split_nonempty "-" rest) as (q & qs & Q).
      eapply parseRate_low_nan.
      * rewrite E. rewrite (split_app _ A). reflexivity.
      * apply parseFloat_str_no_start.
        destruct (numericStart (trimStart (trim p0))) eqn:N; [| reflexivity].
        rewrite E in OK.
        rewrite (numeric_first_piece p0 ("-"%char :: rest) N) in OK. discriminate.
    + apply parseRate_plain. exact I.
Qed.

Lemma entry_number_defined : forall e,
  Forall (fun x => isNaN x = false) (entry_number e).
Proof.
  intros [x | pre negative l post | p1 low p2 p3 high p4 | n | s];
    simpl entry_number; try constructor.
  - destruct x; repeat constructor.
  - destruct negative; reflexivity.
  - constructor.
  - unfold ndiv, nadd, num. reflexivity.
  - constructor.
Qed.

Lemma parsed_entries : forall es,
  Forall entry_ok es ->
  filter (fun n => negb (isNaN n)) (map parseRate (map entry_value es))
  = flat_map entry_number es.
Proof.
  induction 1 as [| e es OK _ IH]; [reflexivity |].
  cbn [map filter flat_map]. rewrite IH.
  rewrite (parseRate_entry e OK).
  pose proof (entry_number_defined e) as D.
  destruct (entry_number e) as [| x [| y r]] eqn:N.
  - reflexivity.
  - inversion D as [| ? ? Hx _]; subst. rewrite Hx. reflexivity.
  - exfalso. destruct e as [z | | | |]; simpl in N; try discriminate.
    destruct z; discriminate.
Qed.



(* ================================================================== *)
(** * The duration mode of [validateTarWithPerDiem] *)
(* ================================================================== *)

Lemma duration_mode_costsOf : forall host m,
  durationMode m = true ->
  Node.costsOf host m = Some (Node.durationCosts host m).
Proof.
  intros host m D. unfold Node.costsOf, durationMode in *.
  destruct (get (str "itinerary") m) as [| | b | x | s | l]; try reflexivity.
  - destruct s; [reflexivity | discriminate].
  - destruct l; [reflexivity | discriminate].
Qed.

(** [average] on the values of entries is the mean of what they
    contribute. *)
Lemma average_entries : forall es,
  Forall entry_ok es ->
  average (map entry_value es) = mean (flat_map entry_number es).
Proof.
  intros es OK. unfold average. rewrite (parsed_entries OK). reflexivity.
Qed.

(** The mean of twelve numbers. *)
Lemma mean_of_numbers : forall qs : list Q,
  List.length qs = 12 ->
  mean (flat_map entry_number (map (fun q => ENumber (Fin q)) qs))
  = ndiv (fold_left nadd (map Fin qs) (num 0)) (num 12).
Proof.
  intros qs L.
  assert (E : flat_map entry_number (map (fun q => ENumber (Fin q)) qs) = map Fin qs).
  { clear L. induction qs as [| q qs IH]; [reflexivity |].
    cbn [map flat_map entry_number app]. rewrite IH. reflexivity. }
  rewrite E. unfold mean.
  destruct qs as [| q qs]; [discriminate L |].
  cbn [map]. rewrite <- (length_map Fin) in L. cbn [map] in L. rewrite L.
  reflexivity.
Qed.

(** C3. Without an itinerary, [validateTarWithPerDiem] takes the expected
    total as (M&IE + lodging) x duration and gives one breakdown item,
    located at "<city>, <state>", with these two rates and their sum. When
    the lookup finds nothing the rates are DEFAULT_MIE and DEFAULT_LODGING,
    79 and 150. When it finds a rate, the M&IE is the number that its Meals
    reads as (79 when it reads as none or as 0), and the lodging is the
    arithmetic mean of what the twelve months Jan..Dec contribute: for
    twelve numbers, their sum divided by 12. For Washington, DC, a duration
    of 3 and a rate of Meals "79" with twelve months at "250", the expected
    total is 987; a claimed cost of 1000 gives the variance 13, the buffer
    message, and no deviation message. With Meals "64" and the months from
    "100" to "210" in steps of 10 the lodging is 155 and the expected total
    (64 + 155) x 3 = 657. *)
Theorem duration_mode_expected_costs :
  (forall host data,
      let m := Node.merged host data in
      let city := or_else (get (str "city") m) (VStr (str "Unknown")) in
      let state := or_else (get (str "state") m) (VStr (str "Unknown")) in
      isValid (validateFormData Node.CONFIG host m) = true ->
      durationMode m = true ->
      exists r mie lodging,
        Node.validateTarWithPerDiem host data = Validated r
        /\ totalExpected (expectedCosts (validation (r_validationReport r)))
           = nmul (nadd mie lodging) (ToNumber (get (str "duration") m))
        /\ breakdown (expectedCosts (validation (r_validationReport r)))
           = r_breakdown r
        /\ r_breakdown r
           = [ mkItem (ToStr host city ++ str ", " ++ ToStr host state)
                      (or_else (get (str "tripDate") m) (VStr (today host)))
                      mie lodging (nadd mie lodging) ]
        /\ (fetchPerDiemByCityState host city state = None ->
            mie = num 79 /\ lodging = num 150)
        /\ (forall rate,
              fetchPerDiemByCityState host city state = Some rate ->
              mie = nor_else (parseFloat (get (str "Meals") rate)) (num 79)
              /\ (forall months,
                     Forall entry_ok months ->
                     map entry_value months = map (fun mo => get mo rate) MONTHS ->
                     lodging = mean (flat_map entry_number months))
              /\ (forall qs,
                     map (fun q => VNum (Fin q)) qs
                     = map (fun mo => get mo rate) MONTHS ->
                     lodging
                     = ndiv (fold_left nadd (map Fin qs) (num 0)) (num 12))))
  /\ (forall pdf now render,
         let host := mkHost (rateOfWashington washingtonRate) pdf now render in
         exists r,
           Node.validateTarWithPerDiem host (sampleForm 3 1000) = Validated r
           /\ totalExpected (expectedCosts (validation (r_validationReport r))) = num 987
           /\ map (fun i => (location i, mie i, lodging i, total i)) (r_breakdown r)
              = [(str "Washington, DC", num 79, num 250, num 329)]
           /\ claimedCost (validation (r_validationReport r)) = num 1000
           /\ variance (validation (r_validationReport r)) = num 13
           /\ isWithinBuffer (validation (r_validationReport r)) = false
           /\ isWithinDeviation (validation (r_validationReport r)) = true
           /\ r_variancePercent r = str "1.32"
           /\ r_isValid r = false
           /\ recommendations (r_validationReport r) = [MSG_BUFFER])
  /\ (forall pdf now render,
         let host := mkHost (rateOfWashington seasonalRate) pdf now render in
         exists r,
           Node.validateTarWithPerDiem host (sampleForm 3 1000) = Validated r
           /\ totalExpected (expectedCosts (validation (r_validationReport r))) = num 657
           /\ map (fun i => (location i, mie i, lodging i, total i)) (r_breakdown r)
              = [(str "Washington, DC", num 64, num 155, num 219)]).
Proof.
  split; [| split].
  - intros host data m city state V D.
    unfold Node.validateTarWithPerDiem.
    destruct (Node.extraction host data) as [extracted warns] eqn:E.
    fold m. rewrite V. simpl negb. cbv iota.
    rewrite (duration_mode_costsOf host m D).
    unfold Node.durationCosts. fold city state.
    destruct (fetchPerDiemByCityState host city state) as [rate |] eqn:F.
    + cbn [ratesOf].
      eexists.
      exists (nor_else (parseFloat (get (str "Meals") rate)) (DEFAULT_MIE Node.CONFIG)),
             (averageLodging rate).
      split; [reflexivity |]. split; [reflexivity |].
      split; [reflexivity |]. split; [reflexivity |].
      split; [intros X; discriminate X |].
      intros rate' X. injection X as <-.
      split; [reflexivity |]. split.
      * intros months OK Q. unfold averageLodging. rewrite <- Q.
        apply average_entries. exact OK.
      * intros qs Q. unfold averageLodging. rewrite <- Q.
        replace (map (fun q => VNum (Fin q)) qs)
          with (map entry_value (map (fun q => ENumber (Fin q)) qs))
          by (rewrite map_map; reflexivity).
        rewrite average_entries.
        -- apply mean_of_numbers.
           apply (f_equal (@List.length _)) in Q.
           rewrite !length_map in Q. exact Q.
        -- apply Forall_forall. intros e I. apply in_map_iff in I.
           destruct I as (q & <- & _). exact I.
    + cbn [ratesOf].
      eexists. exists (DEFAULT_MIE Node.CONFIG), (DEFAULT_LODGING Node.CONFIG).
      split; [reflexivity |]. split; [reflexivity |].
      split; [reflexivity |]. split; [reflexivity |].
      split; [intros _; split; reflexivity |].
      intros rate X. discriminate X.
  - intros pdf now render host.
    eexists. split; [vm_compute; reflexivity | repeat split].
  - intros pdf now render host.
    eexists. split; [vm_compute; reflexivity | repeat split].
Qed.

(** The general statement at the form of the example, with Meals "64" and
    the months from "100" to "210": the lodging is their mean, 155. *)
Lemma duration_mode_expected_costs_witness :
  exists r,
    Node.validateTarWithPerDiem
      (mkHost (rateOfWashington seasonalRate) (fun _ => None)
              (str "2025-06-01T09:00:00.000Z") (fun _ => []))
      (sampleForm 3 1000) = Validated r
    /\ totalExpected (expectedCosts (validation (r_validationReport r))) = num 657
    /\ map lodging (r_breakdown r) = [num 155].
Proof.
  destruct (proj1 duration_mode_expected_costs
              (mkHost (rateOfWashington seasonalRate) (fun _ => None)
                      (str "2025-06-01T09:00:00.000Z") (fun _ => []))
              (sampleForm 3 1000) eq_refl eq_refl)
    as (r & mie & lodging & R & T & _ & B & _ & S).
  destruct (S seasonalRate eq_refl) as (M & L & _).
  specialize (L (map (fun s => ENumeric [] false (mkLiteral s None) [])
                     [ str "100"; str "110"; str "120"; str "130"; str "140";
                       str "150"; str "160"; str "170"; str "180"; str "190";
                       str "200"; str "210" ])).
  exists r. split; [exact R |].
  rewrite T, B, M, L.
  - split; reflexivity.
  - repeat constructor; discriminate.
  - reflexivity.
Defined.

(* ================================================================== *)
(** * Form validation *)
(* ================================================================== *)

(** C6 ([validateFormData]). The check of the estimated cost is guarded by
    the truthiness of the value, so the number 0 (and [NaN]) is never
    compared: a record with every required field and an estimated cost of 0
    is valid with no error, where the specification asks for a positive
    number. A
    form without any cost reaches that state through the fallback to the
    total cost and is validated. The two examples of the specification
    hold: a
    record without contactNumber fails with the error that names it, and
    "(555) 123-4567" passes the telephone check. *)
Theorem validateFormData_accepts_zero_cost :
  forall host : Host,
    validateFormData Gas.CONFIG host (formWithCost (VNum (num 0)))
    = mkFormValidation true []
    /\ validateFormData Gas.CONFIG host (formWithCost (VNum NaN))
       = mkFormValidation true []
    /\ validateFormData Gas.CONFIG host (formWithCost (VStr (str "0")))
       = mkFormValidation false [str "Invalid estimated cost"]
    /\ (exists r,
          Node.validateTarWithPerDiem
            (offline (pdfExtract host) (nowISO host) (numberString host))
            formWithoutCost = Validated r
          /\ get (str "estimatedCost") (extractedData (validation (r_validationReport r)))
             = VNum (num 0))
    /\ validateFormData Gas.CONFIG host
         (set (str "contactNumber") VUndef (formWithCost (VNum (num 500))))
       = mkFormValidation false [str "Missing required field: contactNumber"]
    /\ phoneErrors Gas.CONFIG host (formWithCost (VNum (num 500))) = []
    /\ stripSeparators (str "(555) 123-4567") = str "5551234567".
Proof.
  intros host. repeat split.
  eexists. split; [vm_compute; reflexivity | reflexivity].
Qed.

(* ================================================================== *)
(** * Bulk aggregation *)
(* ================================================================== *)

(** C9 ([aggregateByTarId], [processBulkRecords]). The explicit total is
    read from the first record of the group only: for two records of one
    TAR ID, the first with a blank Total Actual Cost and a cost line of 100,
    the second with the explicit total 500 and a cost line of 200, the
    aggregated total is the sum 300, where the first non-zero explicit
    total of the group is 500. *)
Theorem aggregate_reads_total_of_first_record :
  forall (dateParse : jstring -> option Z) (isoDay : Z -> jstring)
         (numberString : Q -> jstring),
    Bulk.groupOf (str "T-1") sampleRecords = [costLine (str "") (str "100");
                                             costLine (str "500") (str "200")]
    /\ Bulk.totalActual (costLine (str "") (str "100"))
         (Bulk.groupOf (str "T-1") sampleRecords) = num 300
    /\ option_map (Bulk.col Bulk.TOTAL_ACTUAL)
         (Bulk.aggregateGroup dateParse isoDay numberString
            (Bulk.groupOf (str "T-1") sampleRecords))
       = Some (Some (str "300"))
    /\ Bulk.firstExplicitTotal (Bulk.groupOf (str "T-1") sampleRecords) = num 500.
Proof.
  intros dateParse isoDay numberString. repeat split.
Qed.

Lemma find_nowhere : forall (A : Type) (f : A -> bool) (l : list A),
  (forall x, In x l -> f x = false) -> find f l = None.
Proof.
  intros A f. induction l as [| x l IH]; intros H; [reflexivity |].
  cbn [find]. rewrite (H x (or_introl eq_refl)).
  apply IH. intros y I. apply H. right. exact I.
Qed.

(** Where the aggregation agrees with the contract: when the first record
    carries a non-zero explicit total, and when no record does. *)
Lemma totalActual_of_first_or_none : forall base rest,
  ntruthy (Bulk.amount Bulk.TOTAL_ACTUAL base) = true
  \/ (forall r, In r (base :: rest) ->
        ntruthy (Bulk.amount Bulk.TOTAL_ACTUAL r) = false) ->
  Bulk.totalActual base (base :: rest) = Bulk.firstExplicitTotal (base :: rest).
Proof.
  intros base rest [T | N]; unfold Bulk.totalActual, Bulk.firstExplicitTotal.
  - cbn [find]. rewrite T. unfold nor_else. rewrite T, T. reflexivity.
  - assert (F : find (fun r => ntruthy (Bulk.amount Bulk.TOTAL_ACTUAL r)) (base :: rest)
                = None).
    { apply find_nowhere. exact N. }
    rewrite F. unfold nor_else.
    rewrite (N base (or_introl eq_refl)). reflexivity.
Qed.

(* ================================================================== *)
(** * The field checks, condition by condition *)
(* ================================================================== *)

Lemma flat_map_nil : forall (A B : Type) (g : A -> list B) (l : list A),
  flat_map g l = [] <-> Forall (fun x => g x = []) l.
Proof.
  intros A B g. induction l as [| x l IH]; cbn [flat_map].
  - split; [constructor | reflexivity].
  - split.
    + intros H. apply app_eq_nil in H. destruct H as [H1 H2].
      constructor; [exact H1 | apply IH; exact H2].
    + intros H. inversion H as [| ? ? H1 H2]; subst.
      rewrite H1. apply IH. exact H2.
Qed.

Lemma required_one : forall (v : jvalue) (msg : jstring),
  (if is_nullish v
      || match v with
         | VStr s => match trim s with [] => true | _ => false end
         | _ => false
         end
   then [msg] else []) = []
  <-> fieldPresent v = true.
Proof.
  intros v msg. unfold fieldPresent.
  destruct v as [| | b | x | t | l]; cbn [is_nullish orb negb andb];
    try (split; [discriminate | discriminate]);
    try (split; reflexivity).
  destruct (trim t); split; (reflexivity || discriminate).
Qed.

Lemma requiredErrors_nil : forall cfg data,
  requiredErrors cfg data = []
  <-> Forall (fun f => fieldPresent (get f data) = true) (requiredFields cfg).
Proof.
  intros cfg data. unfold requiredErrors. rewrite flat_map_nil.
  split; intros H; (eapply Forall_impl; [| exact H]); intros f; cbv beta zeta;
    apply required_one.
Qed.

(** X24. [validateFormData] answers valid exactly when every required field is
    neither absent nor a blank string, a truthy vendor code and a truthy
    contact number match their patterns, and a truthy estimated cost converts
    to a number above 0. *)
Lemma validateFormData_valid_iff : forall cfg host data,
  isValid (validateFormData cfg host data) = true
  <-> Forall (fun f => fieldPresent (get f data) = true) (requiredFields cfg)
      /\ (truthy (get (str "vendorCode") data) = true ->
          test_anchored (vendorCodeFormat cfg)
            (trim (ToStr host (get (str "vendorCode") data))) = true)
      /\ (truthy (get (str "contactNumber") data) = true ->
          test_anchored (phoneFormat cfg)
            (stripSeparators (ToStr host (get (str "contactNumber") data))) = true)
      /\ (truthy (get (str "estimatedCost") data) = true ->
          isNaN (ToNumber (get (str "estimatedCost") data)) = false
          /\ nle (ToNumber (get (str "estimatedCost") data)) (num 0) = false).
Proof.
  intros cfg host data. unfold validateFormData. cbn [isValid].
  assert (E : match formErrors cfg host data with [] => true | _ :: _ => false end = true
              <-> formErrors cfg host data = []).
  { destruct (formErrors cfg host data); split; congruence. }
  rewrite E. unfold formErrors.
  rewrite <- requiredErrors_nil.
  split.
  - intros H. apply app_eq_nil in H. destruct H as [H1 H].
    apply app_eq_nil in H. destruct H as [H2 H].
    apply app_eq_nil in H. destruct H as [H3 H4].
    split; [exact H1 |]. unfold vendorErrors, phoneErrors, costErrors in *.
    split; [| split].
    + intros T. rewrite T in H2.
      destruct (test_anchored (vendorCodeFormat cfg) _); [reflexivity | discriminate].
    + intros T. rewrite T in H3.
      destruct (test_anchored (phoneFormat cfg) _); [reflexivity | discriminate].
    + intros T. rewrite T in H4. cbn [andb] in H4.
      destruct (isNaN _); [discriminate |].
      destruct (nle _ _); [discriminate |]. split; reflexivity.
  - intros (H1 & H2 & H3 & H4). rewrite H1. cbn [app].
    unfold vendorErrors, phoneErrors, costErrors.
    destruct (truthy (get (str "vendorCode") data)).
    + rewrite (H2 eq_refl). cbn [negb app].
      destruct (truthy (get (str "contactNumber") data)).
      * rewrite (H3 eq_refl). cbn [negb app].
        destruct (truthy (get (str "estimatedCost") data)); [| reflexivity].
        destruct (H4 eq_refl) as [A B]. rewrite A, B. reflexivity.
      * cbn [app].
        destruct (truthy (get (str "estimatedCost") data)); [| reflexivity].
        destruct (H4 eq_refl) as [A B]. rewrite A, B. reflexivity.
    + cbn [app].
      destruct (truthy (get (str "contactNumber") data)).
      * rewrite (H3 eq_refl). cbn [negb app].
        destruct (truthy (get (str "estimatedCost") data)); [| reflexivity].
        destruct (H4 eq_refl) as [A B]. rewrite A, B. reflexivity.
      * cbn [app].
        destruct (truthy (get (str "estimatedCost") data)); [| reflexivity].
        destruct (H4 eq_refl) as [A B]. rewrite A, B. reflexivity.
Qed.

(* ================================================================== *)
(** * The checks of the Node build for a positive expected total *)
(* ================================================================== *)

Lemma Qle_bool_compat : forall x y z, Qeq x y -> Qle_bool x z = Qle_bool y z.
Proof.
  intros x y z E.
  destruct (Qle_bool x z) eqn:A; destruct (Qle_bool y z) eqn:B; try reflexivity.
  - apply Qle_bool_iff in A. rewrite E in A. apply Qle_bool_iff in A. congruence.
  - apply Qle_bool_iff in B. rewrite <- E in B. apply Qle_bool_iff in B. congruence.
Qed.

Lemma node_buffer_check : forall host extracted expected claimed,
  isWithinBuffer
    (validation (Node.generateValidationReport host extracted expected claimed))
  = withinBuffer claimed (totalExpected expected).
Proof.
  reflexivity.
Qed.

(** For finite costs and a positive expected total the deviation check of
    the Node build is the one of the specification. *)
Lemma node_deviation_check_positive : forall host extracted items a b,
  Qlt 0 b ->
  isWithinDeviation
    (validation
       (Node.generateValidationReport host extracted (mkExpected (Fin b) items) (Fin a)))
  = withinDeviation (Fin a) (Fin b).
Proof.
  intros host extracted items a b P.
  assert (Z : Qeq_bool b 0 = false).
  { destruct (Qeq_bool b 0) eqn:E; [| reflexivity].
    apply Qeq_bool_iff in E. rewrite E in P. discriminate. }
  unfold Node.generateValidationReport, withinDeviation, percentOf.
  cbn [validation isWithinDeviation totalExpected].
  unfold nstrict_eq, num, nsub, nneg, nadd, nabs, ndiv, nmul, qzero.
  change (inject_Z 0) with 0%Q. rewrite Z.
  cbn [MAX_DEVIATION_PERCENT Node.CONFIG]. unfold nle, num.
  apply Qle_bool_compat.
  rewrite !Qred_correct.
  unfold Qdiv. rewrite !Qabs_Qmult, Qabs_Qinv.
  rewrite (Qabs_pos b) by (apply Qlt_le_weak; exact P).
  reflexivity.
Qed.

(** [isValid] of a validated request is the conjunction of the two checks
    of its report. *)
Lemma node_isValid_is_conjunction : forall host data,
  match Node.validateTarWithPerDiem host data with
  | Validated r =>
      r_isValid r
      = isWithinBuffer (validation (r_validationReport r))
        && isWithinDeviation (validation (r_validationReport r))
  | _ => True
  end.
Proof.
  intros host data. unfold Node.validateTarWithPerDiem.
  destruct (Node.extraction host data) as [extracted warns].
  destruct (negb (isValid (validateFormData Node.CONFIG host (Node.merged host data))));
    [exact I |].
  destruct (Node.costsOf host (Node.merged host data)) as [[expected warns'] |];
    [| exact I].
  cbn [r_isValid r_validationReport]. reflexivity.
Qed.

(** The basic pairing stops at the shorter of the two lists. *)
Lemma pairItinerary_length : forall dates locations,
  List.length (pairItinerary dates locations)
  = Nat.min (List.length dates) (List.length locations).
Proof.
  intros dates locations. unfold pairItinerary.
  rewrite length_map, length_seq. reflexivity.
Qed.

(* ================================================================== *)
(** * The dates, destination and purpose of an aggregated record *)
(* ================================================================== *)

Section BulkDates.

Variable dateParse : jstring -> option Z.

Lemma earlier_candidate : forall acc r,
  Bulk.earlier dateParse acc r
  = match startCandidate dateParse r, acc with
    | Some sd, Some cur => Some (Z.min sd cur)
    | Some sd, None => Some sd
    | None, _ => acc
    end.
Proof.
  intros acc r. unfold Bulk.earlier, startCandidate.
  destruct (match Bulk.text Bulk.DEPARTURE r with
            | [] => Bulk.text Bulk.SUBMITTED r
            | a :: l => a :: l
            end) as [| c s]; [destruct acc; reflexivity |].
  destruct (dateParse (c :: s)) as [sd |]; [| destruct acc; reflexivity].
  destruct acc as [cur |]; [| reflexivity].
  destruct (Z.ltb_spec sd cur); f_equal; lia.
Qed.

Lemma later_candidate : forall acc r,
  Bulk.later dateParse acc r
  = match endCandidate dateParse r, acc with
    | Some ed, Some cur => Some (Z.max ed cur)
    | Some ed, None => Some ed
    | None, _ => acc
    end.
Proof.
  intros acc r. unfold Bulk.later, endCandidate.
  destruct (Bulk.text Bulk.RETURN r) as [| c s]; [destruct acc; reflexivity |].
  destruct (dateParse (c :: s)) as [ed |]; [| destruct acc; reflexivity].
  destruct acc as [cur |]; [| reflexivity].
  destruct (Z.ltb_spec cur ed); f_equal; lia.
Qed.

(** The result of a fold that keeps the best candidate: it is the
    accumulator or a candidate of the list, and no candidate beats it. *)
Lemma fold_best : forall (best : Z -> Z -> Z) (le : Z -> Z -> Prop)
    (cand : Bulk.row -> option Z) (step : option Z -> Bulk.row -> option Z),
  (forall x, le x x) ->
  (forall x y z, le x y -> le y z -> le x z) ->
  (forall x y, (best x y = x \/ best x y = y) /\ le (best x y) x /\ le (best x y) y) ->
  (forall acc r,
      step acc r = match cand r, acc with
                   | Some d, Some cur => Some (best d cur)
                   | Some d, None => Some d
                   | None, _ => acc
                   end) ->
  forall recs acc,
    match fold_left step recs acc with
    | Some t =>
        (acc = Some t \/ exists r, In r recs /\ cand r = Some t)
        /\ (forall c, acc = Some c -> le t c)
        /\ (forall r t', In r recs -> cand r = Some t' -> le t t')
    | None => acc = None /\ forall r, In r recs -> cand r = None
    end.
Proof.
  intros best le cand step Hrefl Htrans Hbest Hstep.
  induction recs as [| r recs IH]; intros acc; cbn [fold_left].
  - destruct acc as [c |].
    + split; [left; reflexivity |]. split.
      * intros c' E. injection E as <-. apply Hrefl.
      * intros r t' I. destruct I.
    + split; [reflexivity | intros r I; destruct I].
  - specialize (IH (step acc r)).
    destruct (fold_left step recs (step acc r)) as [t |].
    + destruct IH as (A & B & C). rewrite Hstep in A, B. split; [| split].
      * destruct A as [A | (r' & I & E)].
        -- destruct (cand r) as [d |] eqn:Cr.
           ++ destruct acc as [cur |].
              ** injection A as A. destruct (Hbest d cur) as ([Hb | Hb] & _).
                 --- right. exists r. split; [left; reflexivity | congruence].
                 --- left. congruence.
              ** right. exists r. split; [left; reflexivity | congruence].
           ++ left. exact A.
        -- right. exists r'. split; [right; exact I | exact E].
      * intros c E. subst acc.
        destruct (cand r) as [d |].
        -- destruct (Hbest d c) as (_ & _ & L).
           eapply Htrans; [apply B; reflexivity | exact L].
        -- apply B. reflexivity.
      * intros r' t' [<- | I] E.
        -- rewrite E in B.
           destruct acc as [cur |].
           ++ destruct (Hbest t' cur) as (_ & L & _).
              eapply Htrans; [apply B; reflexivity | exact L].
           ++ apply B. reflexivity.
        -- eapply C; eassumption.
    + destruct IH as (A & B). rewrite Hstep in A.
      destruct (cand r) as [d |] eqn:Cr.
      * destruct acc; discriminate.
      * split; [exact A |]. intros r' [<- | I]; [exact Cr | apply B; exact I].
Qed.

(** X9 ([aggregateByTarId]). The start of the aggregated trip is the earliest
    start that a record of the group offers, and there is none only when no
    record offers one. *)
Lemma startDate_earliest : forall recs,
  match Bulk.startDate dateParse recs with
  | Some t =>
      (exists r, In r recs /\ startCandidate dateParse r = Some t)
      /\ (forall r t', In r recs -> startCandidate dateParse r = Some t' -> (t <= t')%Z)
  | None => forall r, In r recs -> startCandidate dateParse r = None
  end.
Proof.
  intros recs. unfold Bulk.startDate.
  pose proof (@fold_best Z.min Z.le (startCandidate dateParse)
                (Bulk.earlier dateParse) Z.le_refl Z.le_trans) as H.
  specialize (H (fun x y =>
                   conj (match Z.min_dec x y with
                         | left e => or_introl e
                         | right e => or_intror e
                         end)
                        (conj (Z.le_min_l x y) (Z.le_min_r x y)))
                earlier_candidate recs None).
  destruct (fold_left (Bulk.earlier dateParse) recs None) as [t |].
  - destruct H as ([A | A] & _ & C); [discriminate |]. split; assumption.
  - apply H.
Qed.

(** X10 ([aggregateByTarId]). The end of the aggregated trip is the latest
    return that a record of the group offers. *)
Lemma endDate_latest : forall recs,
  match Bulk.endDate dateParse recs with
  | Some t =>
      (exists r, In r recs /\ endCandidate dateParse r = Some t)
      /\ (forall r t', In r recs -> endCandidate dateParse r = Some t' -> (t' <= t)%Z)
  | None => forall r, In r recs -> endCandidate dateParse r = None
  end.
Proof.
  intros recs. unfold Bulk.endDate.
  pose proof (@fold_best Z.max (fun x y => (y <= x)%Z) (endCandidate dateParse)
                (Bulk.later dateParse) Z.le_refl
                (fun x y z a b => Z.le_trans z y x b a)) as H.
  specialize (H (fun x y =>
                   conj (match Z.max_dec x y with
                         | left e => or_introl e
                         | right e => or_intror e
                         end)
                        (conj (Z.le_max_l x y) (Z.le_max_r x y)))
                later_candidate recs None).
  destruct (fold_left (Bulk.later dateParse) recs None) as [t |].
  - destruct H as ([A | A] & _ & C); [discriminate |]. split; assumption.
  - apply H.
Qed.

End BulkDates.

(** The columns of the aggregated record of a group: the earliest start
    and the latest end, printed by the runtime, when there are any; the
    destination of the first record with a non-blank destination; the
    purpose of the first record with a non-blank purpose, else the first
    non-blank comment, else the empty string; the total read from the first
    record, else the sum of the cost lines. *)
Lemma aggregateGroup_columns :
  forall dateParse isoDay numberString base rest,
    let recs := base :: rest in
    exists agg,
      Bulk.aggregateGroup dateParse isoDay numberString recs = Some agg
      /\ Bulk.col Bulk.DEPARTURE agg
         = match Bulk.startDate dateParse recs with
           | Some t => Some (isoDay t)
           | None => Bulk.col Bulk.DEPARTURE base
           end
      /\ Bulk.col Bulk.RETURN agg
         = match Bulk.endDate dateParse recs with
           | Some t => Some (isoDay t)
           | None => Bulk.col Bulk.RETURN base
           end
      /\ Bulk.col Bulk.DESTINATION agg
         = match find (Bulk.nonBlank Bulk.DESTINATION) recs with
           | Some r => Some (Bulk.text Bulk.DESTINATION r)
           | None => Bulk.col Bulk.DESTINATION base
           end
      /\ Bulk.col Bulk.PURPOSE agg
         = Some match find (Bulk.nonBlank Bulk.PURPOSE) recs,
                      find (Bulk.nonBlank Bulk.COMMENTS) recs with
                | Some r, _ => Bulk.text Bulk.PURPOSE r
                | None, Some r => Bulk.text Bulk.COMMENTS r
                | None, None => []
                end
      /\ Bulk.col Bulk.TOTAL_ACTUAL agg
         = Some (if ntruthy (Bulk.totalActual base recs)
                 then Number_toString numberString (Bulk.totalActual base recs)
                 else str "0").
Proof.
  intros dateParse isoDay numberString base rest recs.
  eexists. split; [reflexivity |].
  unfold Bulk.setIf.
  destruct (Bulk.startDate dateParse recs);
    destruct (Bulk.endDate dateParse recs);
    destruct (find (Bulk.nonBlank Bulk.DESTINATION) recs);
    repeat split.
Qed.

(* ================================================================== *)
(** * Reading CSV files *)
(* ================================================================== *)

Lemma jeqb_refl : forall s, jeqb s s = true.
Proof.
  induction s as [| a s IH]; simpl; [reflexivity |].
  rewrite Ascii.eqb_refl. exact IH.
Qed.

Lemma jeqb_eq : forall s t, jeqb s t = true -> s = t.
Proof.
  induction s as [| a s IH]; intros [| b t] H; simpl in H;
    try reflexivity; try discriminate.
  apply andb_true_iff in H. destruct H as [H1 H2].
  apply Ascii.eqb_eq in H1. rewrite (IH t H2). congruence.
Qed.

Lemma jeqb_neq : forall s t, s <> t -> jeqb s t = false.
Proof.
  intros s t N. destruct (jeqb s t) eqn:E; [| reflexivity].
  elim N. apply jeqb_eq. exact E.
Qed.

(** ** The line parser *)

Lemma parseCsvLineFrom_bare : forall f current tail,
  existsb (fun c => ch DQUOTE c || ch "," c) f = false ->
  BulkTest.parseCsvLineFrom current false (f ++ tail)
  = BulkTest.parseCsvLineFrom (current ++ f) false tail.
Proof.
  induction f as [| c f IH]; intros current tail H.
  - rewrite app_nil_r. reflexivity.
  - cbn [existsb] in H. apply orb_false_iff in H. destruct H as [H1 H2].
    apply orb_false_iff in H1. destruct H1 as [Q C].
    cbn [app BulkTest.parseCsvLineFrom]. rewrite Q, C. cbn [andb].
    rewrite IH by exact H2. rewrite <- app_assoc. reflexivity.
Qed.

Lemma parseCsvLineFrom_quoted : forall f current tail,
  match tail with d :: _ => ch DQUOTE d = false | [] => True end ->
  BulkTest.parseCsvLineFrom current true
    (flat_map (fun c => if ch DQUOTE c then [DQUOTE; DQUOTE] else [c]) f
       ++ DQUOTE :: tail)
  = BulkTest.parseCsvLineFrom (current ++ f) false tail.
Proof.
  induction f as [| c f IH]; intros current tail T.
  - rewrite app_nil_r. cbn [flat_map app BulkTest.parseCsvLineFrom].
    rewrite ch_refl. destruct tail as [| d tail]; [reflexivity |].
    rewrite T. reflexivity.
  - cbn [flat_map]. destruct (ch DQUOTE c) eqn:Q.
    + apply ch_eq in Q. subst c.
      cbn [app BulkTest.parseCsvLineFrom]. rewrite ch_refl. cbn [andb].
      rewrite IH by exact T. rewrite <- app_assoc. reflexivity.
    + cbn [app BulkTest.parseCsvLineFrom]. rewrite Q. cbn [negb andb].
      rewrite andb_false_r.
      rewrite IH by exact T. rewrite <- app_assoc. reflexivity.
Qed.

Lemma parseCsvLineFrom_field : forall f tail,
  match tail with d :: _ => ch DQUOTE d = false | [] => True end ->
  BulkTest.parseCsvLineFrom [] false (csvField f ++ tail)
  = BulkTest.parseCsvLineFrom f false tail.
Proof.
  intros f tail T. unfold csvField.
  destruct (existsb (fun c => ch DQUOTE c || ch "," c) f) eqn:E.
  - unfold quoteField. cbn [app BulkTest.parseCsvLineFrom]. rewrite ch_refl.
    rewrite <- app_assoc. cbn [app].
    assert (X : forall body,
               match body ++ DQUOTE :: tail with
               | [] => BulkTest.parseCsvLineFrom [] (negb false) (body ++ DQUOTE :: tail)
               | d :: rest' =>
                   if false && ch DQUOTE d
                   then BulkTest.parseCsvLineFrom ([] ++ [DQUOTE]) false rest'
                   else BulkTest.parseCsvLineFrom [] (negb false) (body ++ DQUOTE :: tail)
               end = BulkTest.parseCsvLineFrom [] true (body ++ DQUOTE :: tail)).
    { intros body. destruct (body ++ DQUOTE :: tail); reflexivity. }
    rewrite X. apply (parseCsvLineFrom_quoted f [] tail T).
  - apply (parseCsvLineFrom_bare f [] tail E).
Qed.

(** X1 ([parseCsvLine]). [parseCsvLine] reads back what a CSV writer wrote:
    for one or more fields, each put in double quotes with its own double
    quotes doubled when it holds a comma or a double quote and left as it is
    otherwise, the line of the fields joined by commas parses to the fields
    themselves. *)
Theorem parseCsvLine_reads_back_written_fields : forall fields,
  fields <> [] ->
  BulkTest.parseCsvLine (joinWith (str ",") (map csvField fields)) = fields.
Proof.
  unfold BulkTest.parseCsvLine.
  induction fields as [| f fields IH]; intros N; [contradiction |].
  destruct fields as [| g fields].
  - cbn [map joinWith].
    rewrite <- (app_nil_r (csvField f)).
    rewrite parseCsvLineFrom_field by exact I.
    cbn [BulkTest.parseCsvLineFrom]. reflexivity.
  - change (joinWith (str ",") (map csvField (f :: g :: fields)))
      with (csvField f ++ "," %char :: joinWith (str ",") (map csvField (g :: fields))).
    rewrite parseCsvLineFrom_field by reflexivity.
    cbn [BulkTest.parseCsvLineFrom].
    change (ch DQUOTE ",") with false. cbv iota.
    rewrite ch_refl. cbn [negb andb]. f_equal. apply IH. discriminate.
Qed.

Lemma parseCsvLine_reads_back_written_fields_witness :
  BulkTest.parseCsvLine
    (joinWith (str ",") (map csvField [str "Boston, MA"; str "7"; []; [DQUOTE; "a"%char]]))
  = [str "Boston, MA"; str "7"; []; [DQUOTE; "a"%char]].
Proof.
  apply (@parseCsvLine_reads_back_written_fields
           [str "Boston, MA"; str "7"; []; [DQUOTE; "a"%char]]).
  discriminate.
Defined.

Lemma unquoted_app : forall a b, unquoted (a ++ b) = unquoted a ++ unquoted b.
Proof.
  intros a b. unfold unquoted. apply filter_app.
Qed.

Lemma splitCsvLineFrom_parseCsvLineFrom : forall n line current inQuotes,
  List.length line <= n ->
  Client.splitCsvLineFrom (unquoted current) inQuotes line
  = map unquoted (BulkTest.parseCsvLineFrom current inQuotes line).
Proof.
  induction n as [| n IH]; intros line current inQuotes L.
  - destruct line; [reflexivity | cbn [List.length] in L; lia].
  - destruct line as [| c rest]; [reflexivity |].
    cbn [List.length] in L.
    cbn [Client.splitCsvLineFrom BulkTest.parseCsvLineFrom].
    destruct (ch DQUOTE c) eqn:Q.
    + destruct rest as [| d rest'].
      * apply IH. cbn [List.length]. lia.
      * destruct (inQuotes && ch DQUOTE d) eqn:E.
        -- apply andb_true_iff in E. destruct E as [E1 E2]. subst inQuotes.
           cbn [negb Client.splitCsvLineFrom]. rewrite E2. cbn [negb].
           rewrite <- IH by (cbn [List.length] in L; lia).
           rewrite unquoted_app.
           change (unquoted [DQUOTE]) with (@nil ascii).
           rewrite app_nil_r. reflexivity.
        -- apply IH. cbn [List.length] in *. lia.
    + destruct (ch "," c && negb inQuotes).
      * cbn [map]. f_equal. apply (IH rest [] inQuotes). lia.
      * rewrite <- IH by lia. rewrite unquoted_app.
        replace (unquoted [c]) with [c]; [reflexivity |].
        unfold unquoted. cbn [filter]. rewrite Q. reflexivity.
Qed.

(** X2 ([splitCsvLine]). On every line the parser of the page, [splitCsvLine],
    gives the fields of [parseCsvLine] with their double quotes removed and
    their ends trimmed: the two parsers cut a line at the same commas, and the
    page loses the escaped double quotes and the white space around a field.
    *)
Theorem splitCsvLine_is_parseCsvLine_unquoted_trimmed : forall line,
  Client.splitCsvLine line
  = map (fun f => trim (unquoted f)) (BulkTest.parseCsvLine line).
Proof.
  intros line. unfold Client.splitCsvLine, BulkTest.parseCsvLine.
  change (Client.splitCsvLineFrom [] false line)
    with (Client.splitCsvLineFrom (unquoted []) false line).
  rewrite (@splitCsvLineFrom_parseCsvLineFrom (List.length line) line [] false (le_n _)).
  rewrite map_map. reflexivity.
Qed.

Lemma parseCsvLineFrom_unquoted : forall line current,
  absent DQUOTE line ->
  BulkTest.parseCsvLineFrom current false line
  = match split "," line with
    | p :: ps => (current ++ p) :: ps
    | [] => [current]
    end.
Proof.
  induction line as [| c rest IH]; intros current A.
  - cbn. rewrite app_nil_r. reflexivity.
  - unfold absent in A. cbn [forallb] in A.
    apply andb_true_iff in A. destruct A as [A1 A2].
    cbn [BulkTest.parseCsvLineFrom split].
    destruct (ch DQUOTE c); [discriminate |].
    destruct (ch "," c); cbn [negb andb].
    + rewrite app_nil_r. f_equal. rewrite IH by exact A2.
      destruct (split_nonempty "," rest) as (p & ps & E). rewrite E. reflexivity.
    + rewrite IH by exact A2.
      destruct (split_nonempty "," rest) as (p & ps & E). rewrite E.
      rewrite <- app_assoc. reflexivity.
Qed.

(** X3 ([parseCsvLine]). On a line without a double quote, [parseCsvLine] is
    [line.split(',')]: empty fields are kept, and nothing is trimmed. *)
Theorem parseCsvLine_without_quotes_is_split : forall line,
  absent DQUOTE line ->
  BulkTest.parseCsvLine line = split "," line.
Proof.
  intros line A. unfold BulkTest.parseCsvLine.
  rewrite parseCsvLineFrom_unquoted by exact A.
  destruct (split_nonempty "," line) as (p & ps & E). rewrite E. reflexivity.
Qed.

Lemma parseCsvLine_without_quotes_is_split_witness :
  BulkTest.parseCsvLine (str "T-1,,Boston") = [str "T-1"; []; str "Boston"].
Proof.
  rewrite (@parseCsvLine_without_quotes_is_split (str "T-1,,Boston") eq_refl).
  reflexivity.
Defined.

(** ** Records *)

Lemma fold_left_cons_if : forall (A B : Type) (p : A -> bool) (g : A -> B)
    (l : list A) (acc : list B),
  fold_left (fun r x => if p x then r else g x :: r) l acc
  = rev (map g (filter (fun x => negb (p x)) l)) ++ acc.
Proof.
  intros A B p g. induction l as [| x l IH]; intros acc; cbn [fold_left filter].
  - reflexivity.
  - rewrite IH. destruct (p x); cbn [negb map rev]; [reflexivity |].
    rewrite <- app_assoc. reflexivity.
Qed.

Lemma col_In : forall (l : Bulk.row) k v,
  NoDup (map fst l) -> In (k, v) l -> Bulk.col k l = Some v.
Proof.
  induction l as [| [k' v'] l IH]; intros k v N I; [destruct I |].
  cbn [map fst] in N. inversion N as [| ? ? N1 N2]; subst.
  cbn [Bulk.col]. destruct (jeqb k k') eqn:E.
  - apply jeqb_eq in E. subst k'. destruct I as [I | I].
    + congruence.
    + elim N1. apply (in_map fst) in I. exact I.
  - destruct I as [I | I].
    + injection I as -> ->. rewrite jeqb_refl in E. discriminate.
    + apply IH; assumption.
Qed.

Lemma col_absent : forall (l : Bulk.row) k,
  ~ In k (map fst l) -> Bulk.col k l = None.
Proof.
  induction l as [| [k' v'] l IH]; intros k N; [reflexivity |].
  cbn [Bulk.col]. destruct (jeqb k k') eqn:E.
  - apply jeqb_eq in E. subst k'. elim N. left. reflexivity.
  - apply IH. intros I. apply N. right. exact I.
Qed.

Lemma map_snd_filter_combine_seq : forall (p : jstring -> bool) (h : list jstring) s,
  map snd (filter (fun jk : nat * jstring => p (snd jk)) (combine (seq s (List.length h)) h))
  = filter p h.
Proof.
  intros p. induction h as [| x h IH]; intros s; cbn [List.length seq combine filter snd];
    [reflexivity |].
  destruct (p x); cbn [map snd]; rewrite IH; reflexivity.
Qed.

Lemma In_combine_seq : forall (h : list jstring) s j key,
  nth_error h j = Some key -> In (s + j, key) (combine (seq s (List.length h)) h).
Proof.
  induction h as [| x h IH]; intros s j key H.
  - destruct j; discriminate.
  - destruct j as [| j]; cbn in *.
    + injection H as ->. left. f_equal. lia.
    + right. replace (s + S j) with (S s + j) by lia. apply IH. exact H.
Qed.

Lemma recordOf_keys : forall header row,
  map fst (recordOf header row)
  = rev (filter (fun key => negb (jeqb key PROTO)) header).
Proof.
  intros header row. unfold recordOf.
  rewrite (fold_left_cons_if (fun jk : nat * jstring => jeqb (snd jk) PROTO)
             (fun jk : nat * jstring => (snd jk, nth (fst jk) row []))).
  rewrite app_nil_r, map_rev, map_map. cbn [fst].
  rewrite (map_snd_filter_combine_seq (fun key => negb (jeqb key PROTO))).
  reflexivity.
Qed.

Lemma recordOf_lookup : forall header row j key,
  NoDup header ->
  key <> PROTO ->
  nth_error header j = Some key ->
  Bulk.col key (recordOf header row) = Some (nth j row []).
Proof.
  intros header row j key N P H.
  apply col_In.
  - rewrite recordOf_keys. apply NoDup_rev. apply NoDup_filter. exact N.
  - unfold recordOf.
    rewrite (fold_left_cons_if (fun jk : nat * jstring => jeqb (snd jk) PROTO)
               (fun jk : nat * jstring => (snd jk, nth (fst jk) row []))).
    rewrite app_nil_r. apply -> in_rev.
    apply (in_map (fun jk : nat * jstring => (snd jk, nth (fst jk) row []))
                  _ (j, key)).
    apply filter_In. split; [apply (In_combine_seq header 0 j H) |].
    cbn [snd]. apply negb_true_iff. apply jeqb_neq. exact P.
Qed.

Lemma recordOf_no_prototype : forall header row,
  Bulk.col PROTO (recordOf header row) = None.
Proof.
  intros header row. apply col_absent. rewrite recordOf_keys.
  intros I. apply in_rev in I. apply filter_In in I. destruct I as [_ I].
  rewrite jeqb_refl in I. discriminate I.
Qed.

(** X4 ([readCsv]). [readCsv] makes one record for each non-blank line after
    the first one. When the names of the header are distinct, the record of a
    line holds, under each name of the header other than [__proto__], the cell
    of the line in the column of that name, and the empty string when the line
    is too short to have that cell. *)
Theorem readCsv_cell_of_column : forall content first rest,
  filter nonBlankLine (splitLines content) = first :: rest ->
  NoDup (BulkTest.parseCsvLine first) ->
  List.length (BulkTest.readCsv content) = List.length rest
  /\ forall i j line key,
       nth_error rest i = Some line ->
       nth_error (BulkTest.parseCsvLine first) j = Some key ->
       key <> PROTO ->
       exists record,
         nth_error (BulkTest.readCsv content) i = Some record
         /\ Bulk.col key record = Some (nth j (BulkTest.parseCsvLine line) []).
Proof.
  intros content first rest L N. unfold BulkTest.readCsv. rewrite L.
  split; [apply length_map |].
  intros i j line key Hi Hj P.
  eexists. split.
  - rewrite nth_error_map, Hi. reflexivity.
  - apply recordOf_lookup; assumption.
Qed.

Lemma readCsv_cell_of_column_witness :
  option_map (Bulk.col (str "Cost"))
    (nth_error
       (BulkTest.readCsv
          (str "TAR ID,Cost" ++ [DocProc.CR; DocProc.LF] ++ str "T-1,100"
             ++ [DocProc.LF; DocProc.LF] ++ str "T-2" ++ [DocProc.LF])) 1)
  = Some (Some []).
Proof.
  destruct (proj2 (@readCsv_cell_of_column
                     (str "TAR ID,Cost" ++ [DocProc.CR; DocProc.LF] ++ str "T-1,100"
                        ++ [DocProc.LF; DocProc.LF] ++ str "T-2" ++ [DocProc.LF])
                     (str "TAR ID,Cost") [str "T-1,100"; str "T-2"] eq_refl
                     ltac:(repeat constructor; simpl; intuition discriminate))
                  1 1 (str "T-2") (str "Cost") eq_refl eq_refl ltac:(discriminate))
    as (record & R & C).
  rewrite R. cbn [option_map]. rewrite C. reflexivity.
Defined.

Lemma length_flat_map_option : forall (A B : Type) (p : A -> bool) (g : A -> B) (l : list A),
  List.length (flat_map (fun x => if negb (p x) then [] else [g x]) l)
  = List.length (filter p l).
Proof.
  intros A B p g. induction l as [| x l IH]; cbn [flat_map filter]; [reflexivity |].
  rewrite length_app, IH. destruct (p x); reflexivity.
Qed.

(** X5 ([parseCsv]). [parseCsv] keeps the non-blank lines after the header
    that have as many fields as the header, and no other: its records are as
    many as these lines, and with distinct header names every record comes
    from such a line and holds the j-th field of the line under the j-th name
    of the header (a name [__proto__] apart). *)
Theorem parseCsv_keeps_rows_of_header_width : forall text,
  let lines := filter nonBlankLine (splitLines text) in
  let headers := Client.splitCsvLine (hd [] lines) in
  List.length (Client.parseCsv text)
  = List.length
      (filter (fun line => List.length (Client.splitCsvLine line) =? List.length headers)
              (tl lines))
  /\ (NoDup headers ->
      forall record,
        In record (Client.parseCsv text) ->
        exists line,
          In line (tl lines)
          /\ List.length (Client.splitCsvLine line) = List.length headers
          /\ forall j key,
               nth_error headers j = Some key ->
               key <> PROTO ->
               Bulk.col key record = nth_error (Client.splitCsvLine line) j).
Proof.
  intros text lines headers. unfold Client.parseCsv. fold lines.
  destruct lines as [| first [| second rest]]; cbn [hd tl] in *.
  - split; [reflexivity | intros _ record []].
  - split; [reflexivity | intros _ record []].
  - fold headers. split.
    + apply (length_flat_map_option
               (fun line => List.length (Client.splitCsvLine line) =? List.length headers)
               (fun line => recordOf headers (Client.splitCsvLine line))).
    + intros N record I. apply in_flat_map in I. destruct I as (line & I & R).
      cbv zeta in R.
      destruct (List.length (Client.splitCsvLine line) =? List.length headers) eqn:E;
        cbn [negb] in R; [| destruct R].
      destruct R as [R | []]. subst record.
      apply Nat.eqb_eq in E.
      exists line. split; [exact I |]. split; [exact E |].
      intros j key H P.
      rewrite (recordOf_lookup (Client.splitCsvLine line) j N P H).
      symmetry. apply nth_error_nth'.
      rewrite E. apply nth_error_Some. congruence.
Qed.

(** ** Line ends *)

Lemma single_line_head : forall c l,
  single_line (c :: l) ->
  ch DocProc.LF c = false /\ ch DocProc.CR c = false /\ single_line l.
Proof.
  intros c l H. inversion H as [| ? ? H1 H2]; subst.
  unfold is_newline in H1. apply orb_false_iff in H1. destruct H1 as [A B].
  split; [| split; [| exact H2]].
  - destruct (ch DocProc.LF c) eqn:E; [| reflexivity].
    apply ch_eq in E. subst c. discriminate.
  - destruct (ch DocProc.CR c) eqn:E; [| reflexivity].
    apply ch_eq in E. subst c. discriminate.
Qed.

Lemma splitLines_nonempty : forall s, exists p ps, splitLines s = p :: ps.
Proof.
  assert (H : forall n s, List.length s <= n -> exists p ps, splitLines s = p :: ps).
  { induction n as [| n IH]; intros s L.
    - destruct s; [cbn; eauto | cbn [List.length] in L; lia].
    - destruct s as [| c s]; [cbn; eauto |].
      cbn [List.length] in L. cbn [splitLines].
      destruct (IH s ltac:(lia)) as (p & ps & E). rewrite E.
      destruct (ch DocProc.LF c); [eauto |].
      destruct (ch DocProc.CR c); [| eauto].
      destruct s as [| d s']; [eauto |].
      destruct (ch DocProc.LF d); eauto. }
  intros s. apply (H (List.length s) s (le_n _)).
Qed.

Lemma splitLines_piece : forall l t,
  single_line l ->
  splitLines (l ++ t)
  = match splitLines t with
    | p :: ps => (l ++ p) :: ps
    | [] => [l]
    end.
Proof.
  induction l as [| c l IH]; intros t S.
  - cbn [app]. destruct (splitLines_nonempty t) as (p & ps & E). rewrite E. reflexivity.
  - destruct (single_line_head S) as (A & B & S').
    cbn [app splitLines]. rewrite A, B.
    rewrite (IH t S').
    destruct (splitLines t); reflexivity.
Qed.

Lemma splitLines_single_line : forall l, single_line l -> splitLines l = [l].
Proof.
  intros l S. rewrite <- (app_nil_r l) at 1.
  rewrite splitLines_piece by exact S. cbn [splitLines]. rewrite app_nil_r. reflexivity.
Qed.

Lemma splitLines_LF : forall l t,
  single_line l -> splitLines (l ++ DocProc.LF :: t) = l :: splitLines t.
Proof.
  intros l t S. rewrite splitLines_piece by exact S.
  cbn [splitLines]. rewrite ch_refl. cbv beta iota zeta. rewrite app_nil_r. reflexivity.
Qed.

Lemma splitLines_CRLF : forall l t,
  single_line l ->
  splitLines (l ++ DocProc.CR :: DocProc.LF :: t) = l :: splitLines t.
Proof.
  intros l t S. rewrite splitLines_piece by exact S.
  cbn [splitLines]. change (ch DocProc.LF DocProc.CR) with false. cbv iota.
  rewrite !ch_refl. cbv beta iota zeta. rewrite app_nil_r. reflexivity.
Qed.

Lemma splitLines_joined : forall lines,
  lines <> [] ->
  Forall single_line lines ->
  splitLines (joinWith [DocProc.CR; DocProc.LF] lines) = lines
  /\ splitLines (joinWith [DocProc.LF] lines) = lines.
Proof.
  induction lines as [| l lines IH]; intros N F; [contradiction |].
  inversion F as [| ? ? S F']; subst.
  destruct lines as [| l' lines].
  - cbn [joinWith]. split; apply splitLines_single_line; exact S.
  - destruct (IH ltac:(discriminate) F') as [A B].
    change (joinWith [DocProc.CR; DocProc.LF] (l :: l' :: lines))
      with (l ++ DocProc.CR :: DocProc.LF :: joinWith [DocProc.CR; DocProc.LF] (l' :: lines)).
    change (joinWith [DocProc.LF] (l :: l' :: lines))
      with (l ++ DocProc.LF :: joinWith [DocProc.LF] (l' :: lines)).
    rewrite splitLines_CRLF, splitLines_LF by exact S.
    rewrite A, B. split; reflexivity.
Qed.

(** X6 ([readCsv]). A file reads the same with either line end: for lines
    without a line break inside, [readCsv] and [parseCsv] return for the lines
    joined by CR LF what they return for the lines joined by LF, and [readCsv]
    returns one record less than there are non-blank lines. *)
Theorem readCsv_same_for_both_line_ends : forall lines,
  lines <> [] ->
  Forall single_line lines ->
  BulkTest.readCsv (joinWith [DocProc.CR; DocProc.LF] lines)
  = BulkTest.readCsv (joinWith [DocProc.LF] lines)
  /\ Client.parseCsv (joinWith [DocProc.CR; DocProc.LF] lines)
     = Client.parseCsv (joinWith [DocProc.LF] lines)
  /\ List.length (BulkTest.readCsv (joinWith [DocProc.LF] lines))
     = List.length (filter nonBlankLine lines) - 1.
Proof.
  intros lines N F.
  destruct (splitLines_joined N F) as [A B].
  unfold BulkTest.readCsv, Client.parseCsv. rewrite A, B.
  split; [reflexivity |]. split; [reflexivity |].
  destruct (filter nonBlankLine lines) as [| first rest]; [reflexivity |].
  cbv zeta. rewrite length_map. cbn [List.length]. lia.
Qed.

Lemma readCsv_same_for_both_line_ends_witness :
  BulkTest.readCsv
    (joinWith [DocProc.CR; DocProc.LF] [str "TAR ID,Cost"; []; str "T-1,100"])
  = BulkTest.readCsv
      (joinWith [DocProc.LF] [str "TAR ID,Cost"; []; str "T-1,100"]).
Proof.
  apply (@readCsv_same_for_both_line_ends [str "TAR ID,Cost"; []; str "T-1,100"]).
  - discriminate.
  - repeat constructor.
Defined.

(* ================================================================== *)
(** * Grouping the records by TAR ID *)
(* ================================================================== *)

(** ** Grouping by TAR ID *)

Lemma jeqb_spec : forall s t, reflect (s = t) (jeqb s t).
Proof.
  intros s t. destruct (jeqb s t) eqn:E; constructor.
  - apply jeqb_eq. exact E.
  - intros ->. rewrite jeqb_refl in E. discriminate E.
Qed.

Lemma pushRecord_keys : forall id rec g,
  map fst (pushRecord id rec g)
  = if existsb (fun k => jeqb k id) (map fst g) then map fst g else map fst g ++ [id].
Proof.
  intros id rec. induction g as [| [k recs] g IH]; [reflexivity |].
  cbn [pushRecord map fst existsb]. destruct (jeqb k id); cbn [orb map fst app].
  - reflexivity.
  - rewrite IH. destruct (existsb (fun k0 => jeqb k0 id) (map fst g)); reflexivity.
Qed.

Lemma groupRecs_pushRecord : forall id' id rec g,
  groupRecs id' (pushRecord id rec g)
  = if jeqb id id' then groupRecs id' g ++ [rec] else groupRecs id' g.
Proof.
  intros id' id rec. induction g as [| [k recs] g IH].
  - cbn [pushRecord groupRecs]. destruct (jeqb id id'); reflexivity.
  - cbn [pushRecord groupRecs]. destruct (jeqb_spec k id) as [-> | N].
    + cbn [groupRecs]. destruct (jeqb id id'); reflexivity.
    + cbn [groupRecs]. destruct (jeqb_spec k id') as [-> | N']; [| exact IH].
      destruct (jeqb_spec id id') as [-> | _]; [elim N | ]; reflexivity.
Qed.

Lemma groupRecs_unbound : forall id g, ~ In id (map fst g) -> groupRecs id g = [].
Proof.
  intros id. induction g as [| [k recs] g IH]; intros N; [reflexivity |].
  cbn [groupRecs]. destruct (jeqb_spec k id) as [-> | _].
  - elim N. left. reflexivity.
  - apply IH. intros I. apply N. right. exact I.
Qed.

Lemma existsb_key : forall id ks,
  existsb (fun k => jeqb k id) ks = true <-> In id ks.
Proof.
  intros id ks. rewrite existsb_exists. split.
  - intros (k & I & E). apply jeqb_eq in E. subst k. exact I.
  - intros I. exists id. split; [exact I | apply jeqb_refl].
Qed.

Lemma inherited_key : forall id,
  existsb (jeqb id) prototypeKeys = true <-> In id prototypeKeys.
Proof.
  intros id. rewrite existsb_exists. split.
  - intros (k & I & E). apply jeqb_eq in E. subst k. exact I.
  - intros I. exists id. split; [exact I | apply jeqb_refl].
Qed.

Lemma groupOf_app : forall id l x,
  Bulk.groupOf id (l ++ [x])
  = Bulk.groupOf id l ++ (if jeqb (tarId x) id then [x] else []).
Proof.
  intros id l x. unfold Bulk.groupOf. rewrite filter_app. reflexivity.
Qed.

Lemma groupOf_In : forall id records r,
  In r (Bulk.groupOf id records) <-> In r records /\ tarId r = id.
Proof.
  intros id records r. unfold Bulk.groupOf. rewrite filter_In.
  split; intros [A B]; (split; [exact A |]).
  - apply jeqb_eq. exact B.
  - unfold tarId in B. rewrite B. apply jeqb_refl.
Qed.

(** The object [grouped] after the loop over the records: one property for
    each TAR ID that is not empty, with the records of that ID in the order
    of the file. *)
Lemma grouped_records : forall records g,
  fold_left groupStep records (Some []) = Some g ->
  NoDup (map fst g)
  /\ (forall id, In id (map fst g)
                 <-> id <> [] /\ exists r, In r records /\ tarId r = id)
  /\ (forall id, id <> [] -> groupRecs id g = Bulk.groupOf id records).
Proof.
  induction records as [| x l IH] using rev_ind; intros g H.
  - injection H as <-. split; [constructor |]. split; [| reflexivity].
    intros id. split; [intros [] | intros (_ & r & [] & _)].
  - rewrite fold_left_app in H. cbn [fold_left] in H.
    destruct (fold_left groupStep l (Some [])) as [g0 |]; [| discriminate H].
    destruct (IH g0 eq_refl) as (N & M & G). clear IH.
    unfold groupStep in H. fold (tarId x) in H.
    destruct (tarId x) as [| c s] eqn:T.
    + injection H as <-. split; [exact N |]. split.
      * intros id. rewrite M. split; intros (A & r & I & E); (split; [exact A |]).
        -- exists r. split; [apply in_or_app; left; exact I | exact E].
        -- exists r. split; [| exact E].
           apply in_app_or in I. destruct I as [I | [<- | []]]; [exact I |].
           elim A. rewrite <- E. exact T.
      * intros id A. rewrite groupOf_app, T, (G id A).
        destruct (jeqb_spec [] id) as [<- | _]; [elim A; reflexivity |].
        rewrite app_nil_r. reflexivity.
    + destruct (existsb (jeqb (c :: s)) prototypeKeys); [discriminate H |].
      injection H as <-. rewrite pushRecord_keys.
      split; [| split].
      * destruct (existsb (fun k => jeqb k (c :: s)) (map fst g0)) eqn:X; [exact N |].
        apply NoDup_app; [exact N | repeat constructor; intros [] |].
        intros k I [<- | []]. apply existsb_key in I. rewrite X in I. discriminate I.
      * intros id.
        assert (K : In id (if existsb (fun k => jeqb k (c :: s)) (map fst g0)
                           then map fst g0 else map fst g0 ++ [c :: s])
                    <-> In id (map fst g0) \/ id = c :: s).
        { destruct (existsb (fun k => jeqb k (c :: s)) (map fst g0)) eqn:X.
          - split; [intros I; left; exact I |].
            intros [I | ->]; [exact I | apply existsb_key; exact X].
          - rewrite in_app_iff. cbn [In]. intuition congruence. }
        rewrite K, M. split.
        -- intros [(A & r & I & E) | ->].
           ++ split; [exact A |]. exists r.
              split; [apply in_or_app; left; exact I | exact E].
           ++ split; [discriminate |]. exists x.
              split; [apply in_or_app; right; left; reflexivity | exact T].
        -- intros (A & r & I & E). apply in_app_or in I.
           destruct I as [I | [<- | []]].
           ++ left. split; [exact A |]. exists r. split; assumption.
           ++ right. rewrite <- E. exact T.
      * intros id A. rewrite groupRecs_pushRecord, groupOf_app, T, (G id A).
        destruct (jeqb (c :: s) id); [reflexivity | symmetry; apply app_nil_r].
Qed.

(** The loop over the records throws exactly when a TAR ID is a property
    of the prototype. *)
Lemma grouping_throws : forall records g0,
  fold_left groupStep records (Some g0) = None
  <-> exists r, In r records /\ In (tarId r) prototypeKeys.
Proof.
  assert (F : forall l, fold_left groupStep l None = None).
  { induction l as [| x l IH]; [reflexivity | exact IH]. }
  induction records as [| x l IH]; intros g0.
  - cbn [fold_left]. split; [discriminate | intros (r & [] & _)].
  - cbn [fold_left]. unfold groupStep at 2. fold (tarId x).
    destruct (tarId x) as [| c s] eqn:T.
    + rewrite IH. split; intros (r & I & P).
      * exists r. split; [right; exact I | exact P].
      * destruct I as [<- | I]; [| exists r; split; assumption].
        rewrite T in P. cbn in P. intuition discriminate.
    + destruct (existsb (jeqb (c :: s)) prototypeKeys) eqn:X.
      * rewrite F. split; [intros _ | reflexivity].
        exists x. split; [left; reflexivity |]. rewrite T.
        apply inherited_key. exact X.
      * rewrite IH. split; intros (r & I & P).
        -- exists r. split; [right; exact I | exact P].
        -- destruct I as [<- | I]; [| exists r; split; assumption].
           rewrite T in P. apply inherited_key in P. rewrite X in P. discriminate P.
Qed.

(** ** The order of the keys *)

Lemma insertIndex_Permutation : forall n k l,
  Permutation (insertIndex n k l) ((n, k) :: l).
Proof.
  intros n k. induction l as [| [m k'] l IH]; cbn [insertIndex]; [reflexivity |].
  destruct (n <? m)%Z; [reflexivity |].
  rewrite IH. apply perm_swap.
Qed.

Lemma filter_split_Permutation : forall (A : Type) (p : A -> bool) (l : list A),
  Permutation (filter p l ++ filter (fun x => negb (p x)) l) l.
Proof.
  intros A p. induction l as [| x l IH]; cbn [filter]; [reflexivity |].
  destruct (p x); cbn [negb app].
  - constructor. exact IH.
  - rewrite <- Permutation_middle. constructor. exact IH.
Qed.

Lemma objectKeys_Permutation : forall ks, Permutation (objectKeys ks) ks.
Proof.
  intros ks. unfold objectKeys.
  rewrite <- (filter_split_Permutation
                (fun k => match arrayIndex k with Some _ => true | None => false end) ks)
    at 3.
  apply Permutation_app.
  - induction ks as [| k ks IH]; cbn [fold_right filter]; [reflexivity |].
    destruct (arrayIndex k) as [n |]; [| exact IH].
    rewrite insertIndex_Permutation. cbn [map snd]. constructor. exact IH.
  - match goal with
    | |- Permutation (filter ?p ks) (filter ?q ks) =>
        rewrite (filter_ext p q); [reflexivity |]
    end.
    intros k. destruct (arrayIndex k); reflexivity.
Qed.

(** ** One record for each TAR ID *)

Lemma col_other : forall k k' v (r : Bulk.row),
  jeqb k k' = false -> Bulk.col k ((k', v) :: r) = Bulk.col k r.
Proof.
  intros k k' v r H. cbn [Bulk.col]. rewrite H. reflexivity.
Qed.

Lemma col_setIf : forall k k' v (r : Bulk.row),
  jeqb k k' = false -> Bulk.col k (Bulk.setIf k' v r) = Bulk.col k r.
Proof.
  intros k k' [s |] r H; [apply col_other; exact H | reflexivity].
Qed.

Lemma aggregateGroup_tarId : forall dateParse isoDay numberString recs agg,
  Bulk.aggregateGroup dateParse isoDay numberString recs = Some agg ->
  exists base rest, recs = base :: rest /\ tarId agg = tarId base.
Proof.
  intros dateParse isoDay numberString [| base rest] agg H; [discriminate H |].
  exists base, rest. split; [reflexivity |].
  cbv beta iota zeta delta [Bulk.aggregateGroup] in H. injection H as <-.
  unfold tarId, Bulk.text.
  rewrite !col_other by reflexivity. rewrite !col_setIf by reflexivity.
  reflexivity.
Qed.

Lemma aggregateEach_Forall2 : forall dateParse isoDay numberString g ids,
  (forall id, In id ids -> groupRecs id g <> []) ->
  exists aggregated,
    aggregateEach dateParse isoDay numberString ids g = Some aggregated
    /\ Forall2 (fun id agg =>
                  Bulk.aggregateGroup dateParse isoDay numberString (groupRecs id g)
                  = Some agg) ids aggregated.
Proof.
  intros dateParse isoDay numberString g. induction ids as [| id ids IH]; intros H.
  - exists []. split; [reflexivity | constructor].
  - destruct IH as (aggregated & E & F).
    { intros id' I. apply H. right. exact I. }
    cbn [aggregateEach]. rewrite E.
    destruct (groupRecs id g) as [| base rest] eqn:R.
    { elim (H id (or_introl eq_refl)). exact R. }
    destruct (Bulk.aggregateGroup dateParse isoDay numberString (base :: rest))
      as [agg |] eqn:A; [| discriminate A].
    exists (agg :: aggregated). split; [reflexivity |].
    constructor; [rewrite R; exact A | exact F].
Qed.

(** X7 ([aggregateByTarId]). When no TAR ID is the name of a property that
    objects inherit, [aggregateByTarId] returns, and its result has exactly
    one record for each TAR ID that is not empty and that some record carries:
    no two aggregated records share an ID, a record without an ID is left out,
    and each aggregated record is the aggregate of all the records of its ID
    in the order of the file. *)
Theorem aggregateByTarId_one_record_per_id :
  forall dateParse isoDay numberString records,
    (forall r, In r records -> ~ In (tarId r) prototypeKeys) ->
    exists aggregated,
      aggregateByTarId dateParse isoDay numberString records = Some aggregated
      /\ NoDup (map tarId aggregated)
      /\ (forall id, In id (map tarId aggregated)
                     <-> id <> [] /\ exists r, In r records /\ tarId r = id)
      /\ (forall agg, In agg aggregated ->
            Bulk.aggregateGroup dateParse isoDay numberString
              (Bulk.groupOf (tarId agg) records) = Some agg).
Proof.
  intros dateParse isoDay numberString records H. unfold aggregateByTarId.
  destruct (fold_left groupStep records (Some [])) as [g |] eqn:G.
  2:{ apply grouping_throws in G. destruct G as (r & I & P). elim (H r I P). }
  destruct (grouped_records records G) as (N & M & R).
  pose proof (objectKeys_Permutation (map fst g)) as P.
  assert (K : forall id, In id (objectKeys (map fst g)) ->
                id <> [] /\ exists r, In r records /\ tarId r = id).
  { intros id I. apply M. apply (Permutation_in _ P). exact I. }
  destruct (@aggregateEach_Forall2 dateParse isoDay numberString g
              (objectKeys (map fst g))) as (aggregated & E & F).
  { intros id I. destruct (K id I) as (A & r & Ir & Er).
    rewrite (R id A). intros X.
    assert (Y : In r (Bulk.groupOf id records)) by (apply groupOf_In; split; assumption).
    rewrite X in Y. destruct Y. }
  exists aggregated. split; [exact E |].
  assert (T : map tarId aggregated = objectKeys (map fst g)
              /\ forall agg, In agg aggregated ->
                   Bulk.aggregateGroup dateParse isoDay numberString
                     (Bulk.groupOf (tarId agg) records) = Some agg).
  { clear E P. induction F as [| id agg ids aggregated A F IH].
    - split; [reflexivity | intros agg []].
    - destruct IH as (IH1 & IH2).
      { intros id' I. apply K. right. exact I. }
      destruct (K id (or_introl eq_refl)) as (A0 & _).
      rewrite (R id A0) in A.
      destruct (aggregateGroup_tarId _ _ _ _ A) as (base & rest & B & TB).
      assert (Y : In base (Bulk.groupOf id records)) by (rewrite B; left; reflexivity).
      apply groupOf_In in Y. destruct Y as [_ Y].
      assert (Z : tarId agg = id) by congruence.
      split.
      + cbn [map]. rewrite Z, IH1. reflexivity.
      + intros agg' [<- | I]; [rewrite Z; exact A | apply IH2; exact I]. }
  destruct T as (T1 & T2). rewrite T1.
  split; [| split; [| exact T2]].
  - apply (Permutation_NoDup (Permutation_sym P)). exact N.
  - intros id. rewrite <- M. split; intros I.
    + apply (Permutation_in _ P). exact I.
    + apply (Permutation_in _ (Permutation_sym P)). exact I.
Qed.

Lemma aggregateByTarId_one_record_per_id_witness :
  exists aggregated,
    aggregateByTarId (fun _ => None) (fun _ => []) (fun _ => [])
      [ costLine (str "1200") (str "400"); [(Bulk.TAR_ID, str "7")];
        costLine [] (str "800"); [(Bulk.PURPOSE, str "Site visit")] ]
    = Some aggregated
    /\ forall id, In id (map tarId aggregated) <-> id = str "T-1" \/ id = str "7".
Proof.
  destruct (@aggregateByTarId_one_record_per_id
              (fun _ => None) (fun _ => []) (fun _ => [])
              [ costLine (str "1200") (str "400"); [(Bulk.TAR_ID, str "7")];
                costLine [] (str "800"); [(Bulk.PURPOSE, str "Site visit")] ])
    as (aggregated & E & _ & M & _).
  - intros r [<- | [<- | [<- | [<- | []]]]]; vm_compute; intuition discriminate.
  - exists aggregated. split; [exact E |].
    intros id. rewrite M. split.
    + intros (A & r & [<- | [<- | [<- | [<- | []]]]] & T);
        vm_compute in T; subst id; auto. elim A. reflexivity.
    + intros [-> | ->]; (split; [discriminate |]).
      * exists (costLine (str "1200") (str "400")). split; [left |]; reflexivity.
      * exists [(Bulk.TAR_ID, str "7")]. split; [right; left |]; reflexivity.
Defined.

(** X8 ([aggregateByTarId]). [aggregateByTarId] throws exactly when the TAR ID
    of some record is the name of a property that the empty object [grouped]
    inherits, such as [constructor] or [toString]: the group is then not
    created, and the inherited value has no [push]. *)
Theorem aggregateByTarId_throws_on_inherited_id :
  forall dateParse isoDay numberString records,
    aggregateByTarId dateParse isoDay numberString records = None
    <-> exists r, In r records /\ In (tarId r) prototypeKeys.
Proof.
  intros dateParse isoDay numberString records. split.
  - intros H. apply (grouping_throws records []).
    destruct (fold_left groupStep records (Some [])) as [g |] eqn:G; [| exact G].
    exfalso.
    assert (N : forall r, In r records -> ~ In (tarId r) prototypeKeys).
    { intros r I P.
      assert (X : fold_left groupStep records (Some []) = None).
      { apply grouping_throws. exists r. split; assumption. }
      rewrite X in G. discriminate G. }
    unfold aggregateByTarId in H.
    destruct (grouped_records records G) as (_ & M & R).
    destruct (@aggregateEach_Forall2 dateParse isoDay numberString g
                (objectKeys (map fst g))) as (aggregated & E & _).
    { intros id I.
      apply (Permutation_in _ (objectKeys_Permutation (map fst g))) in I.
      apply M in I. destruct I as (A & r & Ir & Er).
      rewrite (R id A). intros X.
      assert (Y : In r (Bulk.groupOf id records)) by (apply groupOf_In; split; assumption).
      rewrite X in Y. destruct Y. }
    rewrite G, E in H. discriminate H.
  - intros H. unfold aggregateByTarId.
    apply (grouping_throws records []) in H.
    destruct (fold_left groupStep records (Some [])) as [g |] eqn:G; [| reflexivity].
    discriminate (eq_trans (eq_sym G) H).
Qed.

(* ================================================================== *)
(** * From a bulk record to the data of a request *)
(* ================================================================== *)

(** ** Numbers of the mapping *)

Lemma fold_digits_nonneg : forall l acc,
  (0 <= acc)%Z ->
  (0 <= fold_left (fun a c => (a * 10 + digit_val c)%Z) l acc)%Z.
Proof.
  induction l as [| c l IH]; intros acc A; cbn [fold_left]; [exact A |].
  apply IH. unfold digit_val. lia.
Qed.

Lemma decimal_val_nonneg : forall ip fp e, Qle 0 (decimal_val ip fp e).
Proof.
  intros ip fp e. unfold decimal_val, scale10. rewrite Qred_correct.
  apply Qmult_le_0_compat.
  - change 0%Q with (inject_Z 0). rewrite <- Zle_Qle.
    apply fold_digits_nonneg. lia.
  - apply Qpower_0_le. discriminate.
Qed.

Lemma scanUnsigned_nonneg : forall s q r,
  scanUnsigned s = Some (q, r) -> Qle 0 q.
Proof.
  intros s q r. unfold scanUnsigned.
  destruct (span is_digit s) as [ip r1].
  destruct r1 as [| d r2].
  - destruct ip; [discriminate |]. intros H. injection H as <- _.
    apply decimal_val_nonneg.
  - destruct (ch "." d).
    + destruct (span is_digit r2) as [fp r3].
      destruct (scanExponent r3) as [e r4].
      destruct ip; [destruct fp; [discriminate |] |];
        intros H; injection H as <- _; apply decimal_val_nonneg.
    + destruct (scanExponent (d :: r2)) as [e r4].
      destruct ip; [discriminate |]. intros H. injection H as <- _.
      apply decimal_val_nonneg.
Qed.

Lemma digit_or_point_class : forall c,
  is_digit c || ch "." c = true ->
  is_space c = false /\ ch "+" c = false /\ ch "-" c = false
  /\ Ascii.eqb "I" c = false.
Proof.
  intros c. ascii_cases c.
Qed.

Lemma parseFloat_str_digits_points : forall s,
  parseFloat_str (filter (fun c => is_digit c || ch "." c) s) = NaN
  \/ exists q,
       parseFloat_str (filter (fun c => is_digit c || ch "." c) s) = Fin q
       /\ Qle 0 q.
Proof.
  intros s. unfold parseFloat_str.
  destruct (filter (fun c => is_digit c || ch "." c) s) as [| c t] eqn:E.
  - left. reflexivity.
  - assert (I : In c (filter (fun c => is_digit c || ch "." c) s)).
    { rewrite E. left. reflexivity. }
    apply filter_In in I. destruct I as [_ I].
    destruct (digit_or_point_class c I) as (A & B & C & D).
    cbn [trimStart]. rewrite A.
    unfold scanStrDecimal. rewrite B, C.
    unfold scanMagnitude.
    change (str "Infinity") with ("I"%char :: str "nfinity").
    cbn [strip_prefix]. rewrite D.
    destruct (scanUnsigned (c :: t)) as [[q r] |] eqn:U.
    + right. exists q. split; [reflexivity |].
      apply (scanUnsigned_nonneg _ U).
    + left. reflexivity.
Qed.

Lemma toNumber_nonneg : forall val, exists q, toNumber val = Fin q /\ Qle 0 q.
Proof.
  assert (H : forall s,
             exists q,
               (let n := parseFloat_str (filter (fun c => is_digit c || ch "." c) s) in
                if isNaN n then num 0 else n) = Fin q /\ Qle 0 q).
  { intros s. cbv zeta.
    destruct (parseFloat_str_digits_points s) as [N | (q & E & P)].
    - rewrite N. cbn [isNaN]. exists 0%Q. split; [reflexivity | discriminate].
    - rewrite E. cbn [isNaN]. exists q. split; [reflexivity | exact P]. }
  intros val. apply H.
Qed.

Lemma ntruthy_Fin : forall q, ntruthy (Fin q) = true <-> ~ Qeq q 0.
Proof.
  intros q. cbn [ntruthy]. unfold qzero.
  destruct (Qeq_bool q 0) eqn:E; cbn [negb].
  - apply Qeq_bool_iff in E. split; [discriminate | intros H; elim H; exact E].
  - apply Qeq_bool_neq in E. split; [intros _; exact E | reflexivity].
Qed.

Lemma durationOf_positive : forall dateParse startDate endDate,
  exists d, durationOf dateParse startDate endDate = num d /\ (1 <= d)%Z.
Proof.
  intros dateParse startDate endDate. unfold durationOf.
  destruct startDate; [exists 1%Z; split; [reflexivity | lia] |].
  destruct endDate; [exists 1%Z; split; [reflexivity | lia] |].
  destruct (dateParse (a :: startDate)) as [sd |];
    [| exists 1%Z; split; [reflexivity | lia]].
  destruct (dateParse (a0 :: endDate)) as [ed |];
    [| exists 1%Z; split; [reflexivity | lia]].
  destruct (Z.leb_spec sd ed) as [L | L];
    [| exists 1%Z; split; [reflexivity | lia]].
  eexists. split; [reflexivity |].
  unfold ceilDiv.
  assert (X : ((- (ed - sd)) / MS_PER_DAY <= 0)%Z).
  { apply Z.div_le_upper_bound; [reflexivity | lia]. }
  lia.
Qed.

Lemma mapped_numbers :
  forall dateParse toISOString record,
    (let data := mapAggregatedRecord dateParse toISOString record in
     exists d c e,
       get (str "duration") data = VNum (num d) /\ (1 <= d)%Z
       /\ get (str "totalCost") data = VNum (Fin c)
       /\ get (str "estimatedCost") data = VNum (Fin e)
       /\ Qle 0 c /\ Qle 0 e /\ (Qeq c 0 <-> Qeq e 0))
    /\ (let data := mapRecordToTarData dateParse toISOString record in
        exists d c e,
          get (str "duration") data = VNum (num d) /\ (1 <= d)%Z
          /\ get (str "totalCost") data = VNum (Fin c)
          /\ get (str "estimatedCost") data = VNum (Fin e)
          /\ Qle 0 c /\ Qle 0 e /\ (Qeq c 0 <-> Qeq e 0)).
Proof.
  intros dateParse toISOString record. split.
  - cbv zeta.
    destruct (durationOf_positive dateParse
                (parseDate dateParse toISOString (Bulk.text Bulk.DEPARTURE record))
                (parseDate dateParse toISOString (Bulk.text Bulk.RETURN record)))
      as (d & D & P).
    destruct (toNumber_nonneg (Bulk.col Bulk.TOTAL_ACTUAL record)) as (a & A & Pa).
    destruct (toNumber_nonneg (Bulk.col Bulk.TOTAL_ESTIMATE record)) as (t & T & Pt).
    change (get (str "duration") (mapAggregatedRecord dateParse toISOString record))
      with (@VNum stop
              (durationOf dateParse
                 (parseDate dateParse toISOString (Bulk.text Bulk.DEPARTURE record))
                 (parseDate dateParse toISOString (Bulk.text Bulk.RETURN record)))).
    change (get (str "totalCost") (mapAggregatedRecord dateParse toISOString record))
      with (@VNum stop
              (if negb (ntruthy (toNumber (Bulk.col Bulk.TOTAL_ACTUAL record)))
               then toNumber (Bulk.col Bulk.TOTAL_ESTIMATE record)
               else toNumber (Bulk.col Bulk.TOTAL_ACTUAL record))).
    change (get (str "estimatedCost") (mapAggregatedRecord dateParse toISOString record))
      with (@VNum stop
              (nor_else (toNumber (Bulk.col Bulk.TOTAL_ESTIMATE record))
                 (if negb (ntruthy (toNumber (Bulk.col Bulk.TOTAL_ACTUAL record)))
                  then toNumber (Bulk.col Bulk.TOTAL_ESTIMATE record)
                  else toNumber (Bulk.col Bulk.TOTAL_ACTUAL record)))).
    rewrite D, A, T. unfold nor_else.
    destruct (ntruthy (Fin a)) eqn:Ta; destruct (ntruthy (Fin t)) eqn:Tt; cbn [negb];
      repeat match goal with
             | H : ntruthy (Fin _) = true |- _ => apply ntruthy_Fin in H
             | H : ntruthy (Fin ?q) = false |- _ =>
                 assert (Qeq q 0)
                   by (destruct (Qeq_bool q 0) eqn:Z;
                       [apply Qeq_bool_iff; exact Z
                       | cbn [ntruthy] in H; unfold qzero in H; rewrite Z in H;
                         discriminate]);
                 clear H
             end;
      exists d; eexists; eexists;
      (split; [reflexivity |]); (split; [exact P |]);
      (split; [reflexivity |]); (split; [reflexivity |]);
      (split; [assumption |]); (split; [assumption |]); tauto.
  - cbv zeta.
    destruct (durationOf_positive dateParse
                (parseDate dateParse toISOString
                   (orText (Bulk.text Bulk.DEPARTURE record)
                           (Bulk.text Bulk.SUBMITTED record)))
                (parseDate dateParse toISOString (Bulk.text Bulk.RETURN record)))
      as (d & D & P).
    destruct (toNumber_nonneg (Bulk.col Bulk.TOTAL_ACTUAL record)) as (a & A & Pa).
    destruct (toNumber_nonneg (Bulk.col Bulk.TOTAL_ESTIMATE record)) as (t & T & Pt).
    destruct (toNumber_nonneg (Bulk.col Bulk.COST_VALUE record)) as (v & V & Pv).
    unfold mapRecordToTarData. cbv zeta.
    cbn [get jeqb str list_ascii_of_string Ascii.eqb Bool.eqb andb].
    rewrite D, A, T, V.
    destruct (ntruthy (Fin a)) eqn:Ta; destruct (ntruthy (Fin t)) eqn:Tt;
      destruct (ntruthy (Fin v)) eqn:Tv; cbn [negb andb];
      rewrite ?Ta, ?Tt, ?Tv; cbn [negb andb];
      repeat match goal with
             | H : ntruthy (Fin _) = true |- _ => apply ntruthy_Fin in H
             | H : ntruthy (Fin ?q) = false |- _ =>
                 assert (Qeq q 0)
                   by (destruct (Qeq_bool q 0) eqn:Z;
                       [apply Qeq_bool_iff; exact Z
                       | cbn [ntruthy] in H; unfold qzero in H; rewrite Z in H;
                         discriminate]);
                 clear H
             end;
      exists d; eexists; eexists;
      (split; [reflexivity |]); (split; [exact P |]);
      (split; [reflexivity |]); (split; [reflexivity |]);
      (split; [assumption |]); (split; [assumption |]); tauto.
Qed.

Lemma tripNumbers_of : forall (data : jobj),
  (exists d c e,
      get (str "duration") data = VNum (num d) /\ (1 <= d)%Z
      /\ get (str "totalCost") data = VNum (Fin c)
      /\ get (str "estimatedCost") data = VNum (Fin e)
      /\ Qle 0 c /\ Qle 0 e /\ (Qeq c 0 <-> Qeq e 0)) ->
  tripNumbers data.
Proof.
  intros data (d & c & e & D & P & C & E & Pc & Pe & Z).
  exists d, (Fin c), (Fin e).
  repeat (split; [first [assumption | reflexivity] |]).
  assert (N : forall q, Qle 0 q -> nlt (Fin q) (num 0) = false).
  { intros q H. cbn [nlt num nle]. apply negb_false_iff.
    apply Qle_bool_iff. exact H. }
  split; [apply N; exact Pc |]. split; [apply N; exact Pe |].
  cbn [ntruthy]. unfold qzero. f_equal.
  destruct (Qeq_bool e 0) eqn:A, (Qeq_bool c 0) eqn:B; try reflexivity.
  - apply Qeq_bool_iff in A. apply Z in A. apply Qeq_bool_iff in A.
    rewrite A in B. discriminate B.
  - apply Qeq_bool_iff in B. apply Z in B. apply Qeq_bool_iff in B.
    rewrite B in A. discriminate A.
Qed.

(** X11 ([mapAggregatedRecord]). Whatever the record and whatever the runtime
    makes of its dates, the data that [mapAggregatedRecord] and
    [mapRecordToTarData] build have a whole duration of at least 1, and a
    total cost and an estimated cost that are not NaN and not negative; the
    two costs are 0 together. *)
Theorem mapped_record_has_positive_duration_and_costs :
  forall dateParse toISOString record,
    tripNumbers (mapAggregatedRecord dateParse toISOString record)
    /\ tripNumbers (mapRecordToTarData dateParse toISOString record).
Proof.
  intros dateParse toISOString record.
  destruct (mapped_numbers dateParse toISOString record) as [A B].
  split; apply tripNumbers_of; assumption.
Qed.

(** ** City and state of the mapping *)

Lemma trimStart_edge : forall s, edge (trimStart s).
Proof.
  induction s as [| c s IH]; [exact I |].
  cbn [trimStart]. destruct (is_space c) eqn:E; [exact IH | exact E].
Qed.

Lemma trimStart_of_edge : forall s, edge s -> trimStart s = s.
Proof.
  intros [| c s] E; [reflexivity |]. apply trimStart_head. exact E.
Qed.

Lemma trim_edges : forall s, edge (trim s) /\ edge (rev (trim s)).
Proof.
  intros s. split.
  - unfold trim.
    destruct (trimEnd_prefix (trimStart s)) as (w & E).
    pose proof (trimStart_edge s) as H.
    destruct (trimEnd (trimStart s)) as [| c x]; [exact I |].
    rewrite E in H. exact H.
  - unfold trim, trimEnd. rewrite rev_involutive. apply trimStart_edge.
Qed.

Lemma trim_idem : forall s, trim (trim s) = trim s.
Proof.
  intros s. destruct (trim_edges s) as [A B].
  unfold trim at 1. rewrite (trimStart_of_edge _ A).
  unfold trimEnd. rewrite (trimStart_of_edge _ B). apply rev_involutive.
Qed.












(* ================================================================== *)
(** * The quality of an extraction and the cleaned text *)
(* ================================================================== *)

(** ** The quality of an extraction *)

Lemma nadd_num : forall a b, nadd (num a) (num b) = num (a + b).
Proof.
  intros a b. unfold nadd, num. f_equal.
  rewrite <- inject_Z_plus. apply Qcanon.Qred_identity.
  cbn [Qnum Qden inject_Z]. apply Z.gcd_1_r.
Qed.

Section QualityLoops.

Import DocQuality.

Variable n : Z.
Variable test : jstring -> bool.
Variable miss : jstring -> Quality -> Quality.

Hypothesis miss_score : forall f q, score (miss f q) = score q.
Hypothesis miss_maxScore : forall f q, maxScore (miss f q) = maxScore q.

(** A loop over the names of fields that adds [n] to the maximum for each
    field and [n] to the score for each field that passes the test. *)
Lemma loop_tally : forall fields q z m,
  score q = num z ->
  maxScore q = num m ->
  let q' :=
    fold_left
      (fun quality field =>
         let quality := addMax n quality in
         if test field then addScore n quality else miss field quality)
      fields q in
  score q' = num (z + n * Z.of_nat (List.length (filter test fields)))
  /\ maxScore q' = num (m + n * Z.of_nat (List.length fields)).
Proof.
  induction fields as [| f fields IH]; intros q z m S M; cbv zeta.
  - cbn [fold_left filter List.length]. rewrite S, M. split; f_equal; lia.
  - cbn [fold_left filter]. destruct (test f).
    + destruct (IH (addScore n (addMax n q)) (z + n)%Z (m + n)%Z) as [A B].
      * cbn [addScore addMax score]. rewrite S. apply nadd_num.
      * cbn [addScore addMax maxScore]. rewrite M. apply nadd_num.
      * cbv zeta in A, B. rewrite A, B. cbn [List.length]. split; f_equal; lia.
    + destruct (IH (miss f (addMax n q)) z (m + n)%Z) as [A B].
      * rewrite miss_score. exact S.
      * rewrite miss_maxScore. cbn [addMax maxScore]. rewrite M. apply nadd_num.
      * cbv zeta in A, B. rewrite A, B. cbn [List.length]. split; f_equal; lia.
Qed.

End QualityLoops.

Lemma loop_issues_required : forall (test : jstring -> bool) n fields q,
  DocQuality.issues
    (fold_left
       (fun quality field =>
          let quality := DocQuality.addMax n quality in
          if test field then DocQuality.addScore n quality
          else DocQuality.addIssue (str "Missing required field: " ++ field) quality)
       fields q)
  = DocQuality.issues q
      ++ map (fun field => str "Missing required field: " ++ field)
             (filter (fun field => negb (test field)) fields).
Proof.
  intros test n. induction fields as [| f fields IH]; intros q.
  - cbn. rewrite app_nil_r. reflexivity.
  - cbn [fold_left filter]. rewrite IH. destruct (test f); cbn [negb map].
    + reflexivity.
    + cbn [DocQuality.addIssue DocQuality.addMax DocQuality.issues].
      rewrite <- app_assoc. reflexivity.
Qed.

Lemma loop_issues_optional : forall (test : jstring -> bool) n fields q,
  DocQuality.issues
    (fold_left
       (fun quality field =>
          let quality := DocQuality.addMax n quality in
          if test field then DocQuality.addScore n quality else quality)
       fields q)
  = DocQuality.issues q.
Proof.
  intros test n. induction fields as [| f fields IH]; intros q.
  - reflexivity.
  - cbn [fold_left]. rewrite IH. destruct (test f); reflexivity.
Qed.

Lemma filter_split_length : forall (A : Type) (p : A -> bool) (l : list A),
  List.length (filter p l) + List.length (filter (fun x => negb (p x)) l)
  = List.length l.
Proof.
  intros A p. induction l as [| x l IH]; cbn [filter]; [reflexivity |].
  destruct (p x); cbn [negb List.length]; lia.
Qed.

(** The percentage of a score out of 135 against the two thresholds. *)
Lemma percentage_thresholds : forall z,
  (0 <= z <= 135)%Z ->
  nle (num 80) (nmul (ndiv (num z) (num 135)) (num 100)) = (108 <=? z)%Z
  /\ nle (num 60) (nmul (ndiv (num z) (num 135)) (num 100)) = (81 <=? z)%Z.
Proof.
  intros z B.
  assert (E : forall t,
             nle (num t) (nmul (ndiv (num z) (num 135)) (num 100))
             = (t * 135 <=? z * 100)%Z).
  { intros t. unfold ndiv, nmul, nle, num.
    change (qzero (inject_Z 135)) with false. cbv iota.
    destruct (Z.leb_spec (t * 135) (z * 100)) as [L | L].
    - apply Qle_bool_iff. rewrite !Qred_correct.
      unfold Qle, Qdiv, Qmult, Qinv, inject_Z. cbn. lia.
    - destruct (Qle_bool _ _) eqn:Q; [| reflexivity].
      apply Qle_bool_iff in Q. rewrite !Qred_correct in Q.
      unfold Qle, Qdiv, Qmult, Qinv, inject_Z in Q. cbn in Q. lia. }
  rewrite !E. split.
  - destruct (Z.leb_spec (80 * 135) (z * 100)), (Z.leb_spec 108 z); try reflexivity; lia.
  - destruct (Z.leb_spec (60 * 135) (z * 100)), (Z.leb_spec 81 z); try reflexivity; lia.
Qed.

(** The shape of the result: the score as the sum of what each group of
    fields earns, the maximum, the issues, and the confidence by the
    score. *)
Lemma quality_tally : forall extractedData,
  let q := DocQuality.validateExtractionQuality extractedData in
  let missing :=
    filter (fun field => negb (truthy (get field extractedData)))
           [str "travelerName"; str "estimatedCost"; str "travelPurpose"] in
  let items := hasItems (get (str "itinerary") extractedData) in
  exists k2 k4 : Z,
    (0 <= k2 <= 4)%Z /\ (0 <= k4 <= 3)%Z
    /\ let z := (20 * (3 - Z.of_nat (List.length missing)) + 10 * k2
                 + (if items then 20 else 0) + 5 * k4)%Z in
       DocQuality.score q = num z
       /\ DocQuality.maxScore q = num 135
       /\ DocQuality.issues q
          = map (fun field => str "Missing required field: " ++ field) missing
              ++ (if items then [] else [str "No itinerary data extracted"])
       /\ DocQuality.confidence q
          = (if (108 <=? z)%Z then str "HIGH"
             else if (81 <=? z)%Z then str "MEDIUM" else str "LOW").
Proof.
  intros extractedData q missing items. subst q.
  unfold DocQuality.validateExtractionQuality. cbv zeta.
  set (required := [str "travelerName"; str "estimatedCost"; str "travelPurpose"]).
  set (optional := [str "authorizationNumber"; str "dutyStation";
                    str "contactNumber"; str "title"]).
  set (numeric := [str "estimatedCost"; str "perDiem"; str "airRail"]).
  set (q0 := DocQuality.mkQuality (num 0) (num 0) [] (str "LOW")).
  set (q1 := fold_left _ required q0).
  set (q2 := fold_left _ optional q1).
  set (q3 := if hasItems (get (str "itinerary") extractedData)
             then DocQuality.addScore 20 (DocQuality.addMax 20 q2)
             else DocQuality.addIssue (str "No itinerary data extracted")
                    (DocQuality.addMax 20 q2)).
  set (q4 := fold_left _ numeric q3).
  destruct (@loop_tally 20 (fun field => truthy (get field extractedData))
              (fun field => DocQuality.addIssue (str "Missing required field: " ++ field))
              (fun _ _ => eq_refl) (fun _ _ => eq_refl)
              required q0 0%Z 0%Z eq_refl eq_refl) as [S1 M1].
  cbv zeta beta in S1, M1. fold q1 in S1, M1.
  destruct (@loop_tally 10 (fun field => truthy (get field extractedData)) (fun _ quality => quality)
              (fun _ _ => eq_refl) (fun _ _ => eq_refl)
              optional q1 _ _ S1 M1) as [S2 M2].
  cbv zeta beta in S2, M2. fold q2 in S2, M2.
  assert (S3 : DocQuality.score q3
               = num (0 + 20 * Z.of_nat (List.length (filter (fun field => truthy (get field extractedData)) required))
                      + 10 * Z.of_nat (List.length (filter (fun field => truthy (get field extractedData)) optional))
                      + (if items then 20 else 0))).
  { unfold q3. fold items. destruct items;
      cbn [DocQuality.addScore DocQuality.addIssue DocQuality.addMax DocQuality.score];
      rewrite S2; [apply nadd_num | f_equal; lia]. }
  assert (M3 : DocQuality.maxScore q3
               = num (0 + 20 * Z.of_nat (List.length required)
                      + 10 * Z.of_nat (List.length optional) + 20)).
  { unfold q3. destruct (hasItems _);
      cbn [DocQuality.addScore DocQuality.addIssue DocQuality.addMax DocQuality.maxScore];
      rewrite M2; apply nadd_num. }
  destruct (@loop_tally 5 (fun field => isTruthyNumber (get field extractedData))
              (fun _ quality => quality)
              (fun _ _ => eq_refl) (fun _ _ => eq_refl)
              numeric q3 _ _ S3 M3) as [S4 M4].
  cbv zeta beta in S4, M4. fold q4 in S4, M4.
  pose proof (loop_issues_required (fun field => truthy (get field extractedData))
                20 required q0) as I1.
  cbv beta zeta in I1. fold q1 in I1. fold missing in I1. cbn [DocQuality.issues q0 app] in I1.
  pose proof (loop_issues_optional (fun field => truthy (get field extractedData))
                10 optional q1) as I2.
  cbv beta zeta in I2. fold q2 in I2. rewrite I1 in I2.
  pose proof (loop_issues_optional (fun field => isTruthyNumber (get field extractedData))
                5 numeric q3) as I4.
  cbv beta zeta in I4. fold q4 in I4.
  assert (I3 : DocQuality.issues q3
               = map (fun field => str "Missing required field: " ++ field) missing
                   ++ (if items then [] else [str "No itinerary data extracted"])).
  { unfold q3. fold items. destruct items;
      cbn [DocQuality.addScore DocQuality.addIssue DocQuality.addMax DocQuality.issues];
      rewrite I2; [rewrite app_nil_r |]; reflexivity. }
  rewrite I3 in I4.
  pose proof (filter_split_length (fun field => truthy (get field extractedData)) required) as F1.
  cbv beta in F1.
  change (filter (fun x => negb (truthy (get x extractedData))) required)
    with missing in F1.
  assert (L2 : List.length (filter (fun field => truthy (get field extractedData)) optional) <= 4) by apply (filter_length_le (fun field => truthy (get field extractedData)) optional).
  assert (L4 : List.length (filter (fun field => isTruthyNumber (get field extractedData))
                                   numeric) <= 3)
    by apply (filter_length_le _ numeric).
  change (List.length required) with 3 in *.
  change (List.length optional) with 4 in *.
  change (List.length numeric) with 3 in *.
  exists (Z.of_nat (List.length (filter (fun field => truthy (get field extractedData)) optional))),
         (Z.of_nat (List.length
                      (filter (fun field => isTruthyNumber (get field extractedData))
                              numeric))).
  split; [lia |]. split; [lia |].
  cbv zeta.
  set (z := (20 * (3 - Z.of_nat (List.length missing))
             + 10 * Z.of_nat (List.length (filter (fun field => truthy (get field extractedData)) optional))
             + (if items then 20 else 0)
             + 5 * Z.of_nat (List.length
                               (filter (fun field => isTruthyNumber (get field extractedData))
                                       numeric)))%Z).
  assert (Sz : DocQuality.score q4 = num z).
  { rewrite S4. f_equal. unfold z. lia. }
  assert (Mz : DocQuality.maxScore q4 = num 135).
  { rewrite M4. f_equal. }
  assert (Bz : (0 <= z <= 135)%Z).
  { unfold z. destruct items; lia. }
  rewrite Sz, Mz.
  destruct (percentage_thresholds Bz) as [P80 P60]. rewrite P80, P60.
  destruct (108 <=? z)%Z; [| destruct (81 <=? z)%Z];
    cbn [DocQuality.setConfidence DocQuality.score DocQuality.maxScore
         DocQuality.issues DocQuality.confidence];
    repeat split; assumption.
Qed.

(** X13 ([validateExtractionQuality]). The rating of
    [updated/document_processor.js] always counts out of 135; the score is a
    multiple of 5 between 0 and 135, and it alone decides the confidence: HIGH
    from 110, MEDIUM from 85 to 105, LOW up to 80. *)
Theorem quality_score_decides_confidence : forall extractedData,
  let q := DocQuality.validateExtractionQuality extractedData in
  DocQuality.maxScore q = num 135
  /\ exists z,
       DocQuality.score q = num z
       /\ (0 <= z <= 135)%Z
       /\ (z mod 5 = 0)%Z
       /\ (DocQuality.confidence q = str "HIGH" <-> (110 <= z)%Z)
       /\ (DocQuality.confidence q = str "MEDIUM" <-> (85 <= z <= 105)%Z)
       /\ (DocQuality.confidence q = str "LOW" <-> (z <= 80)%Z).
Proof.
  intros extractedData q.
  destruct (quality_tally extractedData) as (k2 & k4 & B2 & B4 & H).
  cbv zeta in H. destruct H as (S & M & _ & C). fold q in S, M, C.
  split; [exact M |].
  eexists. split; [exact S |].
  rewrite C.
  pose proof (filter_length_le (fun field => negb (truthy (get field extractedData)))
                [str "travelerName"; str "estimatedCost"; str "travelPurpose"]) as L.
  change (List.length [str "travelerName"; str "estimatedCost"; str "travelPurpose"])
    with 3 in L.
  set (n := Z.of_nat
              (List.length
                 (filter (fun field => negb (truthy (get field extractedData)))
                    [str "travelerName"; str "estimatedCost"; str "travelPurpose"]))) in *.
  set (z := (20 * (3 - n) + 10 * k2 + _ + 5 * k4)%Z).
  assert (Bz : (0 <= z <= 135)%Z).
  { unfold z. destruct (hasItems _); lia. }
  assert (D : (z mod 5 = 0)%Z).
  { assert (E : exists w, z = (w * 5)%Z).
    { unfold z. destruct (hasItems _);
        [exists (4 * (3 - n) + 2 * k2 + 4 + k4)%Z
        | exists (4 * (3 - n) + 2 * k2 + k4)%Z]; lia. }
    destruct E as (w & ->). apply Z.mod_mul. discriminate. }
  split; [exact Bz |]. split; [exact D |].
  assert (E : exists w, z = (5 * w)%Z).
  { exists (z / 5)%Z. apply Z.div_exact; [discriminate | exact D]. }
  destruct E as (w & E).
  destruct (Z.leb_spec 108 z); [| destruct (Z.leb_spec 81 z)];
    (split; [| split]); split; intros X;
    try reflexivity; try discriminate X; try lia.
Qed.

(** X14 ([validateExtractionQuality]). The issues of the rating are one line
    for each of the required fields [travelerName], [estimatedCost] and
    [travelPurpose] that is empty, in this order, and one line when no
    itinerary was extracted; the optional fields never give an issue. There
    are at most 4 issues; a rating of HIGH has at most 1, a rating of MEDIUM
    at most 2, and 3 issues or more make the rating LOW. *)
Theorem quality_issues_bound_confidence : forall extractedData,
  let q := DocQuality.validateExtractionQuality extractedData in
  DocQuality.issues q
  = map (fun field => str "Missing required field: " ++ field)
        (filter (fun field => negb (truthy (get field extractedData)))
                [str "travelerName"; str "estimatedCost"; str "travelPurpose"])
      ++ (if hasItems (get (str "itinerary") extractedData) then []
          else [str "No itinerary data extracted"])
  /\ List.length (DocQuality.issues q) <= 4
  /\ (DocQuality.confidence q = str "HIGH" -> List.length (DocQuality.issues q) <= 1)
  /\ (DocQuality.confidence q = str "MEDIUM" -> List.length (DocQuality.issues q) <= 2)
  /\ (3 <= List.length (DocQuality.issues q) -> DocQuality.confidence q = str "LOW").
Proof.
  intros extractedData q.
  destruct (quality_tally extractedData) as (k2 & k4 & B2 & B4 & H).
  cbv zeta in H. destruct H as (_ & _ & I & C). fold q in I, C.
  split; [exact I |].
  rewrite I, C, length_app, length_map.
  pose proof (filter_length_le (fun field => negb (truthy (get field extractedData)))
                [str "travelerName"; str "estimatedCost"; str "travelPurpose"]) as L.
  change (List.length [str "travelerName"; str "estimatedCost"; str "travelPurpose"])
    with 3 in L.
  set (z := (20 * (3 - Z.of_nat _) + 10 * k2 + _ + 5 * k4)%Z).
  assert (Bz : (z <= 135 - 20 * Z.of_nat
                        (List.length
                           (filter (fun field => negb (truthy (get field extractedData)))
                              [str "travelerName"; str "estimatedCost";
                               str "travelPurpose"])
                         + List.length
                             (if hasItems (get (str "itinerary") extractedData)
                              then [] else [str "No itinerary data extracted"])))%Z).
  { unfold z. destruct (hasItems _); cbn [List.length]; lia. }
  assert (L1 : List.length
                 (if hasItems (get (str "itinerary") extractedData)
                  then [] else [str "No itinerary data extracted"]) <= 1).
  { destruct (hasItems _); cbn [List.length]; lia. }
  clearbody z. clear I C.
  set (a := List.length (filter _ _)) in *.
  set (b := List.length (if hasItems _ then _ else _)) in *.
  clearbody a b.
  split; [lia |].
  destruct (Z.leb_spec 108 z); [| destruct (Z.leb_spec 81 z)];
    (split; [| split]); intros X;
    try reflexivity; try discriminate X; try lia.
Qed.

(** ** The quality rating of the Apps Script build *)

Lemma filter_nil_iff : forall (A : Type) (p : A -> bool) (l : list A),
  filter p l = [] <-> forall x, In x l -> p x = false.
Proof.
  intros A p. induction l as [| x l IH]; cbn [filter].
  - split; [intros _ y [] | reflexivity].
  - destruct (p x) eqn:E.
    + split; [discriminate |]. intros H. rewrite (H x (or_introl eq_refl)) in E.
      discriminate.
    + rewrite IH. split.
      * intros H y [<- | I]; [exact E | apply H; exact I].
      * intros H y I. apply H. right. exact I.
Qed.

Lemma flat_map_missing : forall (A B : Type) (t : A -> bool) (m : A -> B) (l : list A),
  flat_map (fun f => if negb (t f) then [m f] else []) l
  = map m (filter (fun f => negb (t f)) l).
Proof.
  intros A B t m. induction l as [| f l IH]; [reflexivity |].
  cbn [flat_map filter]. rewrite IH. destruct (negb (t f)); reflexivity.
Qed.

(** X15 ([validateExtractionQuality]). The rating of the Apps Script build
    lists the empty ones of its four fields and counts them: HIGH when none is
    empty, MEDIUM for one or two, LOW for three or four. *)
Theorem gas_quality_counts_missing_fields : forall data,
  let fields :=
    [str "travelerName"; str "authorizationNumber"; str "travelPurpose";
     str "estimatedCost"] in
  let missing := filter (fun field => negb (truthy (get field data))) fields in
  let q := GasDoc.validateExtractionQuality data in
  GasDoc.issues q = map (fun field => str "Missing " ++ field) missing
  /\ (GasDoc.confidence q = str "HIGH"
      <-> forall field, In field fields -> truthy (get field data) = true)
  /\ (GasDoc.confidence q = str "MEDIUM" <-> 1 <= List.length missing <= 2)
  /\ (GasDoc.confidence q = str "LOW" <-> 3 <= List.length missing).
Proof.
  intros data fields missing q.
  assert (I : GasDoc.issues q = map (fun field => str "Missing " ++ field) missing).
  { unfold q, GasDoc.validateExtractionQuality. cbv zeta. cbn [GasDoc.issues].
    apply (flat_map_missing (fun field => truthy (get field data))
             (fun field => str "Missing " ++ field)). }
  split; [exact I |].
  assert (C : GasDoc.confidence q
              = if (0 <? List.length missing) && (List.length missing <=? 2)
                then str "MEDIUM"
                else if 2 <? List.length missing then str "LOW" else str "HIGH").
  { unfold q, GasDoc.validateExtractionQuality. cbv zeta. cbn [GasDoc.confidence].
    rewrite (flat_map_missing (fun field => truthy (get field data))
               (fun field => str "Missing " ++ field)).
    rewrite length_map. reflexivity. }
  rewrite C.
  assert (N : List.length missing = 0
              <-> forall field, In field fields -> truthy (get field data) = true).
  { rewrite length_zero_iff_nil. unfold missing. rewrite filter_nil_iff.
    split; intros H f F; specialize (H f F);
      destruct (truthy (get f data)); (reflexivity || discriminate). }
  rewrite <- N.
  destruct (Nat.ltb_spec 0 (List.length missing));
    destruct (Nat.leb_spec (List.length missing) 2);
    destruct (Nat.ltb_spec 2 (List.length missing));
    cbn [andb]; (split; [| split]); split; intros X;
    try reflexivity; try discriminate X; try lia.
Qed.

(** ** The text cleaning of the Apps Script build *)

Lemma squeezeLF_In : forall s b c, In c (GasDoc.squeezeLF b s) -> In c s.
Proof.
  induction s as [| a s IH]; intros b c H; [exact H |].
  cbn [GasDoc.squeezeLF] in H.
  destruct (ch DocProc.LF a) eqn:E.
  - apply ch_eq in E. subst a. apply in_app_or in H. destruct H as [H | H].
    + destruct b; [destruct H |]. destruct H as [<- | []]. left. reflexivity.
    + right. apply (IH true c H).
  - destruct H as [<- | H]; [left; reflexivity | right; apply (IH false c H)].
Qed.

Lemma squeezeLF_blankLineFree : forall s b,
  blankLineFree b (GasDoc.squeezeLF b s) = true.
Proof.
  induction s as [| a s IH]; intros b; [reflexivity |].
  cbn [GasDoc.squeezeLF]. destruct (ch DocProc.LF a) eqn:E.
  - destruct b; cbn [app].
    + apply IH.
    + cbn [blankLineFree]. rewrite ch_refl. cbn [negb andb]. apply IH.
  - cbn [blankLineFree]. rewrite E. apply IH.
Qed.

Lemma blankLineFree_fixed : forall s b,
  blankLineFree b s = true -> GasDoc.squeezeLF b s = s.
Proof.
  induction s as [| a s IH]; intros b H; [reflexivity |].
  cbn [blankLineFree] in H. cbn [GasDoc.squeezeLF].
  destruct (ch DocProc.LF a) eqn:E.
  - apply andb_true_iff in H. destruct H as [H1 H2].
    destruct b; [discriminate |]. cbn [app].
    apply ch_eq in E. subst a. rewrite (IH true H2). reflexivity.
  - rewrite (IH false H). reflexivity.
Qed.

Lemma blankLineFree_weaken : forall s, blankLineFree true s = true -> blankLineFree false s = true.
Proof.
  intros [| a s] H; [reflexivity |].
  cbn [blankLineFree] in *. destruct (ch DocProc.LF a); [discriminate | exact H].
Qed.

Lemma blankLineFree_suffix : forall w s b,
  blankLineFree b (w ++ s) = true -> blankLineFree false s = true.
Proof.
  induction w as [| a w IH]; intros s b H.
  - destruct b; [apply blankLineFree_weaken |]; exact H.
  - cbn [app blankLineFree] in H. destruct (ch DocProc.LF a).
    + apply andb_true_iff in H. destruct H as [_ H]. apply (IH s true H).
    + apply (IH s false H).
Qed.

Lemma blankLineFree_prefix : forall s w b,
  blankLineFree b (s ++ w) = true -> blankLineFree b s = true.
Proof.
  induction s as [| a s IH]; intros w b H; [reflexivity |].
  cbn [app blankLineFree] in *. destruct (ch DocProc.LF a).
  - apply andb_true_iff in H. destruct H as [H1 H2].
    rewrite H1. apply (IH w true H2).
  - apply (IH w false H).
Qed.

Lemma blankLineFree_trim : forall s,
  blankLineFree false s = true -> blankLineFree false (trim s) = true.
Proof.
  intros s H. unfold trim.
  destruct (trimStart_suffix s) as (w & E).
  destruct (trimEnd_prefix (trimStart s)) as (v & F).
  rewrite E in H. apply blankLineFree_suffix in H.
  rewrite F in H. apply blankLineFree_prefix in H. exact H.
Qed.

Lemma blankLineFree_no_pair : forall a b r,
  blankLineFree b (a ++ DocProc.LF :: DocProc.LF :: r) = false.
Proof.
  induction a as [| c a IH]; intros b r.
  - cbn [app blankLineFree]. rewrite ch_refl. cbn [negb andb].
    apply andb_false_r.
  - cbn [app blankLineFree]. destruct (ch DocProc.LF c).
    + rewrite IH. apply andb_false_r.
    + apply IH.
Qed.

Lemma filter_fixed : forall (A : Type) (p : A -> bool) (l : list A),
  (forall x, In x l -> p x = true) -> filter p l = l.
Proof.
  intros A p. induction l as [| x l IH]; intros H; [reflexivity |].
  cbn [filter]. rewrite (H x (or_introl eq_refl)).
  rewrite IH; [reflexivity |]. intros y I. apply H. right. exact I.
Qed.

(** X16 ([cleanExtractedText]). The text that [cleanExtractedText] of the Apps
    Script build returns has no carriage return and no two line feeds in a
    row, and neither begins nor ends with white space; cleaning it again
    changes nothing. *)
Theorem gas_cleanExtractedText_is_normal_form : forall text,
  let cleaned := GasDoc.cleanExtractedText text in
  ~ In DocProc.CR cleaned
  /\ (forall a b, cleaned <> a ++ DocProc.LF :: DocProc.LF :: b)
  /\ edge cleaned /\ edge (rev cleaned)
  /\ GasDoc.cleanExtractedText cleaned = cleaned.
Proof.
  intros text cleaned.
  assert (NoCR : forall c, In c cleaned -> negb (ch DocProc.CR c) = true).
  { intros c I. unfold cleaned, GasDoc.cleanExtractedText in I.
    apply trim_In in I. apply squeezeLF_In in I. apply filter_In in I. apply I. }
  assert (Free : blankLineFree false cleaned = true).
  { unfold cleaned, GasDoc.cleanExtractedText.
    apply blankLineFree_trim. apply squeezeLF_blankLineFree. }
  split; [| split; [| split; [| split]]].
  - intros I. specialize (NoCR _ I). rewrite ch_refl in NoCR. discriminate.
  - intros a b E. rewrite E in Free. rewrite blankLineFree_no_pair in Free. discriminate.
  - apply trim_edges.
  - apply trim_edges.
  - unfold GasDoc.cleanExtractedText at 1.
    rewrite (filter_fixed _ cleaned NoCR).
    rewrite (blankLineFree_fixed cleaned false Free).
    apply trim_idem.
Qed.

(** ** The characters of a cleaned text *)

Lemma collapseWhitespace_spaces : forall s b c,
  In c (DocProc.collapseWhitespace b s) -> is_space c = true -> c = " "%char.
Proof.
  induction s as [| a s IH]; intros b c H S; [destruct H |].
  cbn [DocProc.collapseWhitespace] in H.
  destruct (is_space a) eqn:E.
  - apply in_app_or in H. destruct H as [H | H].
    + destruct b; [destruct H |]. destruct H as [<- | []]. reflexivity.
    + apply (IH true c H S).
  - destruct H as [<- | H]; [congruence | apply (IH false c H S)].
Qed.

Lemma fixBeforeDigit_In : forall p r s c,
  In c (DocProc.fixBeforeDigit p r s) -> c = r \/ In c s.
Proof.
  intros p r. induction s as [| a s IH]; intros c H; [destruct H |].
  cbn [DocProc.fixBeforeDigit] in H. destruct H as [H | H].
  - destruct (p a && _) in H; [left; congruence | right; left; exact H].
  - destruct (IH c H) as [X | X]; [left; exact X | right; right; exact X].
Qed.

Lemma allowed_cleanChar : forall c,
  DocProc.allowed c = true -> (is_space c = true -> c = " "%char) -> cleanChar c = true.
Proof.
  intros c A S. unfold DocProc.allowed in A. unfold cleanChar.
  destruct (is_word c); [reflexivity |].
  destruct (is_space c) eqn:E.
  - rewrite (S eq_refl). reflexivity.
  - cbn [orb] in *. rewrite A. apply orb_true_r.
Qed.

(** X17 ([cleanExtractedText]). Every character of the text that
    [cleanExtractedText] of [updated/document_processor.js] returns is a
    letter, a digit, an underscore, a space or one of [$.,()-:/&#], and the
    text neither begins nor ends with white space. *)
Theorem cleanExtractedText_keeps_plain_characters : forall text,
  let cleaned := DocProc.cleanExtractedText text in
  (forall c, In c cleaned -> cleanChar c = true)
  /\ edge cleaned /\ edge (rev cleaned).
Proof.
  intros text cleaned. unfold cleaned, DocProc.cleanExtractedText.
  destruct text as [| c0 t]; [split; [intros c [] | split; exact I] |].
  split; [| apply trim_edges].
  intros c H. apply trim_In in H.
  apply fixBeforeDigit_In in H. destruct H as [-> | H]; [reflexivity |].
  apply fixBeforeDigit_In in H. destruct H as [-> | H]; [reflexivity |].
  apply fixBeforeDigit_In in H. destruct H as [-> | H]; [reflexivity |].
  apply tightenCurrency_In in H.
  unfold DocProc.stripArtifacts in H. apply filter_In in H. destruct H as [H A].
  apply allowed_cleanChar; [exact A |].
  unfold DocProc.collapseBlankLines in H.
  rewrite collapseBlankLinesFrom_single_line in H
    by apply collapseWhitespace_single_line.
  apply (collapseWhitespace_spaces _ _ _ H).
Qed.

(* ================================================================== *)
(** * The lines under a heading of the form *)
(* ================================================================== *)

Lemma numbered_nonempty : numbered [] = false.
Proof.
  reflexivity.
Qed.

Lemma nextLines_linesUnderHeading : forall window extracted,
  nextLines window extracted = extracted ++ linesUnderHeading window.
Proof.
  unfold linesUnderHeading.
  induction window as [| l window IH]; intros extracted.
  - cbn. symmetry. apply app_nil_r.
  - cbn [nextLines beforeFirst]. cbv zeta.
    destruct (numbered (trim l)) eqn:N.
    + rewrite andb_false_r. cbn. symmetry. apply app_nil_r.
    + rewrite andb_true_r. cbn [map filter].
      destruct (trim l) as [| c t] eqn:T.
      * apply IH.
      * rewrite IH, <- app_assoc. reflexivity.
Qed.

Lemma joinWith_nonempty : forall sep x l, x <> [] -> joinWith sep (x :: l) <> [].
Proof.
  intros sep x l N. destruct l as [| y l]; cbn [joinWith]; [exact N |].
  destruct x; [elim N; reflexivity | discriminate].
Qed.

Lemma edge_app : forall s t, s <> [] -> edge s -> edge (s ++ t).
Proof.
  intros [| c s] t N E; [elim N; reflexivity | exact E].
Qed.

Lemma joinWith_edges : forall sep pieces,
  Forall (fun p => p <> [] /\ edge p /\ edge (rev p)) pieces ->
  edge (joinWith sep pieces) /\ edge (rev (joinWith sep pieces)).
Proof.
  intros sep. induction pieces as [| x l IH]; intros F; [split; exact I |].
  inversion F as [| ? ? (N & A & B) F']; subst.
  destruct l as [| y l]; [split; assumption |].
  change (joinWith sep (x :: y :: l)) with (x ++ sep ++ joinWith sep (y :: l)).
  split; [apply edge_app; assumption |].
  rewrite !rev_app_distr, <- app_assoc.
  destruct (IH F') as [_ C].
  apply edge_app; [| exact C].
  inversion F' as [| ? ? (Ny & _) _]; subst.
  intros X. apply (@joinWith_nonempty sep y l Ny).
  rewrite <- (rev_involutive (joinWith sep (y :: l))), X. reflexivity.
Qed.

Lemma trim_of_edges : forall s, edge s -> edge (rev s) -> trim s = s.
Proof.
  intros s A B. unfold trim, trimEnd.
  rewrite (trimStart_of_edge _ A), (trimStart_of_edge _ B).
  apply rev_involutive.
Qed.

Lemma beforeFirst_app : forall (A : Type) (p : A -> bool) l x l',
  forallb (fun y => negb (p y)) l = true -> p x = true ->
  beforeFirst p (l ++ x :: l') = l.
Proof.
  intros A p. induction l as [| y l IH]; intros x l' F P; cbn [app beforeFirst].
  - rewrite P. reflexivity.
  - cbn [forallb] in F. apply andb_true_iff in F. destruct F as [F1 F2].
    apply negb_true_iff in F1. rewrite F1. f_equal. apply IH; assumption.
Qed.

Lemma linesUnderHeading_stops : forall above heading below,
  forallb (fun l => negb (numbered (trim l))) above = true ->
  numbered (trim heading) = true ->
  linesUnderHeading (above ++ heading :: below) = linesUnderHeading above.
Proof.
  intros above heading below F N. unfold linesUnderHeading.
  rewrite (beforeFirst_app (fun l => numbered (trim l)) above heading below F N).
  f_equal. f_equal. clear N.
  induction above as [| y l IH]; [reflexivity |].
  cbn [forallb] in F. apply andb_true_iff in F. destruct F as [F1 F2].
  apply negb_true_iff in F1. cbn [beforeFirst]. rewrite F1. f_equal. apply IH. exact F2.
Qed.

Lemma extractFromNextLines_linesUnderHeading : forall lines startIndex maxLines,
  extractFromNextLines lines startIndex maxLines
  = joinWith (str " ")
      (linesUnderHeading (firstn maxLines (skipn startIndex lines))).
Proof.
  intros lines startIndex maxLines.
  unfold extractFromNextLines. rewrite nextLines_linesUnderHeading. cbn [app].
  destruct (@joinWith_edges (str " ")
              (linesUnderHeading (firstn maxLines (skipn startIndex lines))))
    as [A B]; [| apply trim_of_edges; assumption].
  unfold linesUnderHeading. apply Forall_forall. intros p I.
  apply filter_In in I. destruct I as [I N].
  apply in_map_iff in I. destruct I as (l & <- & _).
  split; [destruct (trim l); [discriminate N | discriminate] |].
  apply trim_edges.
Qed.

(** X25 ([extractFromNextLines]). The text that [extractFromNextLines] returns
    is made of the lines of its window (at most [maxLines] lines from
    [startIndex]) before the first line that begins with digits and a point,
    each trimmed, the blank ones left out, with one space between them: the
    final [trim] finds nothing to remove. What follows a numbered line is not
    read, and a window that starts beyond the last line gives the empty
    string. *)
Theorem extractFromNextLines_joins_lines_under_heading :
  forall lines startIndex maxLines,
    extractFromNextLines lines startIndex maxLines
    = joinWith (str " ")
        (linesUnderHeading (firstn maxLines (skipn startIndex lines)))
    /\ (forall above heading below,
           lines = above ++ heading :: below ->
           forallb (fun l => negb (numbered (trim l))) above = true ->
           numbered (trim heading) = true ->
           extractFromNextLines lines 0 maxLines
           = extractFromNextLines above 0 maxLines)
    /\ (List.length lines <= startIndex ->
        extractFromNextLines lines startIndex maxLines = []).
Proof.
  intros lines startIndex maxLines.
  split; [apply extractFromNextLines_linesUnderHeading |]. split.
  - intros above heading below -> F N.
    rewrite !extractFromNextLines_linesUnderHeading. f_equal.
    cbn [skipn]. rewrite firstn_app.
    destruct (Nat.le_gt_cases maxLines (List.length above)) as [L | L].
    + replace (maxLines - List.length above) with 0 by lia.
      cbn [firstn]. rewrite app_nil_r. reflexivity.
    + rewrite (@firstn_all2 _ maxLines above) by lia.
      destruct (maxLines - List.length above) as [| k] eqn:K; [lia |].
      cbn [firstn]. apply linesUnderHeading_stops; assumption.
  - intros L. rewrite extractFromNextLines_linesUnderHeading, skipn_all2 by exact L.
    rewrite firstn_nil. reflexivity.
Qed.

(* ================================================================== *)
(** * Expected costs, rates and outcomes *)
(* ================================================================== *)

(** ** The expected costs of an itinerary *)

Lemma breakdown_fold :
  forall (step : ExpectedCosts -> stop -> ExpectedCosts),
    (forall acc s,
        exists i,
          step acc s = mkExpected (nadd (totalExpected acc) (total i))
                                  (breakdown acc ++ [i])
          /\ total i = nadd (mie i) (lodging i)
          /\ item_date i = opt_value (date s)
          /\ location i = opt_text (city s) ++ str ", " ++ opt_text (state s)) ->
    forall itinerary acc,
    exists items,
      breakdown (fold_left step itinerary acc) = breakdown acc ++ items
      /\ List.length items = List.length itinerary
      /\ totalExpected (fold_left step itinerary acc)
         = fold_left nadd (map total items) (totalExpected acc)
      /\ Forall (fun i => total i = nadd (mie i) (lodging i)) items
      /\ map item_date items = map (fun s => opt_value (date s)) itinerary
      /\ map location items
         = map (fun s => opt_text (city s) ++ str ", " ++ opt_text (state s)) itinerary.
Proof.
  intros step H. induction itinerary as [| s itinerary IH]; intros acc.
  - exists []. rewrite app_nil_r. repeat split. constructor.
  - cbn [fold_left].
    destruct (IH (step acc s)) as (items & B & L & T & F & D & Lo).
    destruct (H acc s) as (i & E & Ti & Di & Li).
    exists (i :: items).
    rewrite B, T, E. cbn [breakdown totalExpected].
    split; [rewrite <- app_assoc; reflexivity |].
    split; [cbn [List.length]; rewrite L; reflexivity |].
    split; [reflexivity |].
    split; [constructor; [exact Ti | exact F] |].
    split; cbn [map]; f_equal; assumption.
Qed.

(** X18 ([calculateExpectedCosts]). [calculateExpectedCosts] gives one line of
    the breakdown for each stop of the itinerary, in the order of the
    itinerary, with the date and "city, state" of the stop; the total of a
    line is its M&IE plus its lodging, and the expected total is the sum of
    the totals of the lines, from 0. *)
Theorem calculateExpectedCosts_sums_the_breakdown : forall cfg host itinerary,
  let r := calculateExpectedCosts cfg host itinerary in
  List.length (breakdown r) = List.length itinerary
  /\ totalExpected r = fold_left nadd (map total (breakdown r)) (num 0)
  /\ Forall (fun i => total i = nadd (mie i) (lodging i)) (breakdown r)
  /\ map item_date (breakdown r) = map (fun s => opt_value (date s)) itinerary
  /\ map location (breakdown r)
     = map (fun s => opt_text (city s) ++ str ", " ++ opt_text (state s)) itinerary.
Proof.
  intros cfg host itinerary r. subst r. unfold calculateExpectedCosts.
  match goal with
  | |- context [fold_left ?step itinerary ?a0] =>
      assert (H : forall acc s,
                 exists i,
                   step acc s = mkExpected (nadd (totalExpected acc) (total i))
                                           (breakdown acc ++ [i])
                   /\ total i = nadd (mie i) (lodging i)
                   /\ item_date i = opt_value (date s)
                   /\ location i
                      = opt_text (city s) ++ str ", " ++ opt_text (state s));
        [| destruct (breakdown_fold step H itinerary a0)
             as (items & B & L & T & F & D & Lo)]
  end.
  - intros acc s. cbv beta zeta.
    destruct (ratesOf cfg _) as [m l].
    exists (mkItem (opt_text (city s) ++ str ", " ++ opt_text (state s))
                   (opt_value (date s)) m l (nadd m l)).
    repeat split.
  - cbn [breakdown totalExpected app] in B, T.
    rewrite B, T. repeat split; assumption.
Qed.

(** ** The offline validation *)

Lemma parseInt_str_integer : forall hex s,
  parseInt_str hex s = NaN \/ exists z, parseInt_str hex s = num z.
Proof.
  intros hex s. unfold parseInt_str.
  destruct (match trimStart s with
            | [] => (false, trimStart s)
            | c :: t' =>
                if ch "-" c then (true, t')
                else if ch "+" c then (false, t') else (false, trimStart s)
            end) as [neg u].
  destruct (match u with
            | z :: x :: w =>
                if hex && ch "0" z && (ch "x" x || ch "X" x) then (16%Z, w) else (10%Z, u)
            | _ => (10%Z, u)
            end) as [radix v].
  destruct (span (is_radix_digit radix) v) as [ds rest].
  destruct ds; [left; reflexivity | right; eexists; reflexivity].
Qed.

Lemma Qeq_bool_inject_Z : forall z, Qeq_bool (inject_Z z) 0 = (z =? 0)%Z.
Proof.
  intros z. unfold Qeq_bool, inject_Z. cbn [Qnum Qden].
  rewrite Z.mul_1_r. cbn. destruct z; reflexivity.
Qed.

(** [parseInt(v) || 1] is a whole number other than 0. *)
Lemma duration_or_one : forall host hex v,
  exists z, nor_else (parseInt host hex v) (num 1) = num z /\ z <> 0%Z.
Proof.
  intros host hex v. unfold parseInt.
  destruct (parseInt_str_integer hex (ToString (numberString host) v)) as [E | (z & E)];
    rewrite E; unfold nor_else.
  - exists 1%Z. split; [reflexivity | discriminate].
  - cbn [ntruthy num]. unfold qzero. rewrite Qeq_bool_inject_Z.
    destruct (Z.eqb_spec z 0); cbn [negb].
    + exists 1%Z. split; [reflexivity | discriminate].
    + exists z. split; [reflexivity | assumption].
Qed.

(** [parseFloat(v) || 0] is never [NaN]. *)
Lemma cost_or_zero : forall (v : jvalue),
  (exists s, nor_else (parseFloat v) (num 0) = Inf s)
  \/ exists q, nor_else (parseFloat v) (num 0) = Fin q.
Proof.
  intros v. unfold nor_else.
  destruct (parseFloat v) as [| s | q]; cbn [ntruthy].
  - right. eexists. reflexivity.
  - left. eexists. reflexivity.
  - right. destruct (negb (qzero q)); eexists; reflexivity.
Qed.

Lemma nmul_num : forall a b, nmul (num a) (num b) = num (a * b).
Proof.
  intros a b. unfold nmul, num. f_equal.
  rewrite <- inject_Z_mult. apply Qcanon.Qred_identity.
  cbn [Qnum Qden inject_Z]. apply Z.gcd_1_r.
Qed.

(** A variance within 10 of an amount of at least 229, of either sign, is
    within 15 percent of it. *)
Lemma small_variance_small_percent : forall v k,
  (229 <= Z.abs k)%Z ->
  Qle (Qabs v) (inject_Z 10) ->
  Qle (Qabs (Qred (Qmult (Qred (Qdiv v (inject_Z k))) (inject_Z 100)))) (inject_Z 15).
Proof.
  intros v k K V.
  rewrite !Qred_correct. rewrite Qabs_Qmult. unfold Qdiv.
  rewrite Qabs_Qmult, Qabs_Qinv.
  change (Qabs (inject_Z k)) with (inject_Z (Z.abs k)).
  change (Qabs (inject_Z 100)) with (inject_Z 100).
  assert (P : Qlt 0 (inject_Z (Z.abs k))).
  { change 0%Q with (inject_Z 0). rewrite <- Zlt_Qlt. lia. }
  assert (B : Qle (inject_Z 229) (inject_Z (Z.abs k))).
  { rewrite <- Zle_Qle. exact K. }
  setoid_replace (Qabs v * / inject_Z (Z.abs k) * inject_Z 100)%Q
    with ((Qabs v * inject_Z 100) / inject_Z (Z.abs k))%Q
    by (unfold Qdiv; ring).
  apply Qle_shift_div_r; [exact P |].
  change (inject_Z 10) with (10 # 1)%Q in V.
  change (inject_Z 229) with (229 # 1)%Q in B.
  change (inject_Z 100) with (100 # 1)%Q.
  change (inject_Z 15) with (15 # 1)%Q.
  lra.
Qed.

(** X19 ([offlineValidateTar]). With the configuration of [updated/config.js],
    a request that [offlineValidateTar] finds within the buffer is within the
    deviation as well, so that [isValid], the disjunction of the two checks,
    is the deviation check, and the message is the one of success exactly when
    the deviation check holds. *)
Theorem offline_validity_is_the_deviation_check : forall host data,
  let r := ClientOffline.offlineValidateTar Node.CONFIG host data in
  (ClientOffline.o_isWithinBuffer r = true ->
   ClientOffline.o_isWithinDeviation r = true)
  /\ ClientOffline.o_isValid r = ClientOffline.o_isWithinDeviation r
  /\ (ClientOffline.o_message r = ClientOffline.OfflinePassed
      <-> ClientOffline.o_isWithinDeviation r = true).
Proof.
  intros host data r.
  assert (H : ClientOffline.o_isWithinBuffer r = true ->
              ClientOffline.o_isWithinDeviation r = true).
  { subst r. unfold ClientOffline.offlineValidateTar.
    cbn [ClientOffline.o_isWithinBuffer ClientOffline.o_isWithinDeviation].
    destruct (duration_or_one host true (get (str "duration") data)) as (z & D & Z).
    rewrite D.
    change (nadd (nor_else (DEFAULT_MIE Node.CONFIG) (num 0))
                 (nor_else (DEFAULT_LODGING Node.CONFIG) (num 0)))
      with (num 229).
    change (nor_else (COST_BUFFER Node.CONFIG) (num 0)) with (num 10).
    change (nor_else (MAX_DEVIATION_PERCENT Node.CONFIG) (num 100)) with (num 15).
    rewrite nmul_num.
    assert (T : ntruthy (num (229 * z)) = true).
    { cbn [ntruthy num]. unfold qzero. rewrite Qeq_bool_inject_Z.
      destruct (Z.eqb_spec (229 * z) 0); [lia | reflexivity]. }
    rewrite T.
    destruct (cost_or_zero (get (str "totalCost") data)) as [(s & C) | (c & C)];
      rewrite C.
    - destruct s; intros B; discriminate B.
    - unfold nsub, nneg, nadd, nabs, ndiv, nmul, nle, num.
      assert (Q : qzero (inject_Z (229 * z)) = false).
      { unfold qzero. rewrite Qeq_bool_inject_Z.
        destruct (Z.eqb_spec (229 * z) 0); [lia | reflexivity]. }
      rewrite Q. intros B. apply Qle_bool_iff in B. apply Qle_bool_iff.
      rewrite Qred_correct in B. rewrite Qred_correct.
      apply small_variance_small_percent; [lia | exact B]. }
  split; [exact H |].
  assert (V : ClientOffline.o_isValid r = ClientOffline.o_isWithinDeviation r).
  { assert (E : ClientOffline.o_isValid r
                = ClientOffline.o_isWithinBuffer r || ClientOffline.o_isWithinDeviation r)
      by reflexivity.
    rewrite E.
    destruct (ClientOffline.o_isWithinBuffer r); [| reflexivity].
    rewrite (H eq_refl). reflexivity. }
  split; [exact V |].
  assert (M : ClientOffline.o_message r
              = if ClientOffline.o_isValid r then ClientOffline.OfflinePassed
                else ClientOffline.OfflineFailed (ClientOffline.o_variancePercent r))
    by reflexivity.
  rewrite M, V.
  destruct (ClientOffline.o_isWithinDeviation r); split; intros X;
    try reflexivity; discriminate X.
Qed.

(** ** The per diem shown and the per diem charged *)

(** X20 ([getPerDiemRates]). For a request with a city and a state, the daily
    rates that [getPerDiemRates] shows are the ones that
    [validateTarWithPerDiem] charges without an itinerary, in both builds: the
    one line of its breakdown has the M&IE, the lodging and the total shown;
    in the Node build the expected total is the total shown times the
    duration, and the warning about default values is given exactly when
    [usingDefaults] is shown. The total shown is the M&IE plus the lodging. *)
Theorem getPerDiemRates_is_the_rate_of_the_duration_mode : forall host m,
  truthy (get (str "city") m) = true ->
  truthy (get (str "state") m) = true ->
  let shown CONFIG :=
    getPerDiemRates CONFIG host (get (str "city") m) (get (str "state") m) in
  let charged (costs : ExpectedCosts * list jstring) :=
    map (fun i => (mie i, lodging i, total i)) (breakdown (fst costs)) in
  charged (Node.durationCosts host m)
  = [(p_meals (shown Node.CONFIG), p_lodging (shown Node.CONFIG),
      p_total (shown Node.CONFIG))]
  /\ charged (GasMain.durationCosts host m)
     = [(p_meals (shown Gas.CONFIG), p_lodging (shown Gas.CONFIG),
         p_total (shown Gas.CONFIG))]
  /\ totalExpected (fst (Node.durationCosts host m))
     = nmul (p_total (shown Node.CONFIG)) (ToNumber (get (str "duration") m))
  /\ p_total (shown Node.CONFIG)
     = nadd (p_meals (shown Node.CONFIG)) (p_lodging (shown Node.CONFIG))
  /\ (p_usingDefaults (shown Node.CONFIG) = true
      <-> snd (Node.durationCosts host m)
          = [str "Unable to fetch GSA rates - using default values"]).
Proof.
  intros host m C S shown charged. subst shown charged. cbv beta.
  unfold Node.durationCosts, GasMain.durationCosts, getPerDiemRates, or_else.
  rewrite C, S. cbv zeta. unfold ratesOf.
  destruct (fetchPerDiemByCityState host (get (str "city") m) (get (str "state") m))
    as [rate |]; cbn; repeat split; intros X; try reflexivity; discriminate X.
Qed.

Lemma getPerDiemRates_is_the_rate_of_the_duration_mode_witness :
  map (fun i => (mie i, lodging i, total i))
      (breakdown
         (fst (Node.durationCosts
                 (mkHost (rateOfWashington washingtonRate) (fun _ => None)
                         (str "2025-06-01T09:00:00.000Z") (fun _ => []))
                 (sampleForm 3 1000))))
  = [(num 79, num 250, num 329)].
Proof.
  rewrite (proj1 (@getPerDiemRates_is_the_rate_of_the_duration_mode
                    (mkHost (rateOfWashington washingtonRate) (fun _ => None)
                            (str "2025-06-01T09:00:00.000Z") (fun _ => []))
                    (sampleForm 3 1000) eq_refl eq_refl)).
  reflexivity.
Defined.

(** ** A validated request of the Apps Script build *)

Lemma gas_costsOf_has_breakdown : forall host m,
  breakdown (fst (GasMain.costsOf host m)) <> [].
Proof.
  intros host m. unfold GasMain.costsOf.
  assert (D : breakdown (fst (GasMain.durationCosts host m)) <> []).
  { unfold GasMain.durationCosts. cbv zeta.
    destruct (ratesOf Gas.CONFIG _) as [mi lo]. cbn [fst breakdown]. discriminate. }
  destruct (get (str "itinerary") m) as [| | b | x | s | l]; try exact D.
  destruct l as [| i it]; [exact D |].
  cbn [fst]. unfold calculateExpectedCosts.
  match goal with
  | |- context [fold_left ?step (i :: it) ?a0] =>
      assert (H : forall acc s,
                 exists i,
                   step acc s = mkExpected (nadd (totalExpected acc) (total i))
                                           (breakdown acc ++ [i])
                   /\ total i = nadd (mie i) (lodging i)
                   /\ item_date i = opt_value (date s)
                   /\ location i
                      = opt_text (city s) ++ str ", " ++ opt_text (state s));
        [| destruct (breakdown_fold step H (i :: it) a0)
             as (items & B & L & _)]
  end.
  - intros acc s. cbv beta zeta.
    destruct (ratesOf Gas.CONFIG _) as [mm l].
    exists (mkItem (opt_text (city s) ++ str ", " ++ opt_text (state s))
                   (opt_value (date s)) mm l (nadd mm l)).
    repeat split.
  - rewrite B. cbn [breakdown app]. destruct items; [discriminate L | discriminate].
Qed.

Lemma gas_validated_outcome : forall host data,
  match GasMain.validateTarWithPerDiem host data with
  | Validated r =>
      (r_isValid r = true <-> recommendations (r_validationReport r) = [])
      /\ r_breakdown r <> []
      /\ r_variancePercent r = variancePercent (validation (r_validationReport r))
  | _ => True
  end.
Proof.
  intros host data. unfold GasMain.validateTarWithPerDiem.
  destruct (Node.extraction host data) as [extracted warns].
  destruct (GasMain.mergeData host extracted data) as [m |]; [| exact I].
  destruct (negb (isValid (validateFormData Gas.CONFIG host m))); [exact I |].
  pose proof (gas_costsOf_has_breakdown host m) as B.
  destruct (GasMain.costsOf host m) as [expected warns']. cbn [fst] in B.
  cbv zeta. cbn [r_isValid r_validationReport r_breakdown r_variancePercent].
  split; [| split; [exact B | reflexivity]].
  pose proof (gas_recommendations host m expected
                (ToNumber (get (str "totalCost") m))) as R.
  cbv zeta in R. rewrite R.
  destruct (breakdown expected) as [| i items]; [elim B; reflexivity |].
  rewrite app_nil_r.
  destruct (isWithinBuffer _), (isWithinDeviation _); cbn [andb app];
    split; intros X; try reflexivity; discriminate X.
Qed.

(** X21 ([validateTarWithPerDiem]). When [validateTarWithPerDiem] of [main.gs]
    reaches its report, the request is valid exactly when the report
    recommends nothing; the breakdown that it returns is not empty, and the
    variance in percent that it returns is the one of the report. *)
Theorem gas_validated_request_is_valid_iff_nothing_is_recommended :
  forall host data r,
    GasMain.validateTarWithPerDiem host data = Validated r ->
    (r_isValid r = true <-> recommendations (r_validationReport r) = [])
    /\ r_breakdown r <> []
    /\ r_variancePercent r = variancePercent (validation (r_validationReport r)).
Proof.
  intros host data r V.
  pose proof (gas_validated_outcome host data) as H. rewrite V in H. exact H.
Qed.

Lemma gas_validated_request_is_valid_iff_nothing_is_recommended_witness :
  exists r,
    GasMain.validateTarWithPerDiem
      (mkHost (rateOfWashington washingtonRate) (fun _ => None)
              (str "2025-06-01T09:00:00.000Z") (fun _ => []))
      (sampleForm 3 1000) = Validated r
    /\ (r_isValid r = true <-> recommendations (r_validationReport r) = []).
Proof.
  destruct (GasMain.validateTarWithPerDiem
              (mkHost (rateOfWashington washingtonRate) (fun _ => None)
                      (str "2025-06-01T09:00:00.000Z") (fun _ => []))
              (sampleForm 3 1000)) as [? ? ? | r |] eqn:E;
    try (vm_compute in E; discriminate E).
  exists r. split; [reflexivity |].
  apply (@gas_validated_request_is_valid_iff_nothing_is_recommended _ _ r E).
Defined.

(* ================================================================== *)
(** * The merge of extracted and manual data *)
(* ================================================================== *)

(** ** The merge of extracted and manual data *)

Lemma get_set : forall (k k' : jstring) (v : jvalue) (m : jobj),
  get k (set k' v m) = if jeqb k k' then v else get k m.
Proof.
  reflexivity.
Qed.

Lemma get_spread : forall (k : jstring) (extracted data : jobj),
  get k (spread extracted data)
  = if existsb (fun kv => jeqb k (fst kv)) data then get k data else get k extracted.
Proof.
  intros k extracted data. unfold spread.
  induction data as [| [k' v] data IH]; [reflexivity |].
  cbn [app get existsb fst]. destruct (jeqb k k'); [reflexivity | exact IH].
Qed.

Lemma get_unbound : forall (k : jstring) (data : jobj),
  existsb (fun kv => jeqb k (fst kv)) data = false -> get k data = VUndef.
Proof.
  intros k. induction data as [| [k' v] data IH]; intros H; [reflexivity |].
  cbn [existsb fst] in H. apply orb_false_iff in H. destruct H as [H1 H2].
  cbn [get]. rewrite H1. apply IH. exact H2.
Qed.

(** A field that is written only while it is empty: the write leaves every
    other field, and every field that is not empty, as it was. *)
Lemma set_if_keeps : forall (k k' : jstring) (w : jvalue) (b : bool) (m : jobj),
  (b = true -> truthy (get k' m) = false) ->
  truthy (get k m) = true \/ jeqb k k' = false ->
  get k (if b then set k' w m else m) = get k m.
Proof.
  intros k k' w b m B H. destruct b; [| reflexivity].
  rewrite get_set. destruct (jeqb k k') eqn:E; [| reflexivity].
  apply jeqb_eq in E. subst k'.
  destruct H as [H | H]; [| discriminate H].
  rewrite (B eq_refl) in H. discriminate H.
Qed.

Lemma keep_let : forall (k : jstring) (v : jvalue) (a : jobj) (f : jobj -> jobj),
  get k a = v ->
  (forall x, get k x = v -> get k (f x) = v) ->
  get k (let x := a in f x) = v.
Proof.
  intros k v a f A F. cbv zeta. apply F. exact A.
Qed.

Ltac peel_let :=
  lazymatch goal with
  | |- get ?kk (let x := ?a in @?f x) = ?vv =>
      apply (@keep_let kk vv a f); [| let m := fresh "m" in let E := fresh "E" in intros m E; cbv beta]
  end.

Ltac zeta_head :=
  lazymatch goal with
  | |- get ?kk (let x := ?a in @?f x) = ?vv =>
      change (get kk (f a) = vv); cbv beta
  | |- (let x := ?a in @?f x) = Some ?r -> ?G =>
      change (f a = Some r -> G); cbv beta
  end.

Ltac guard_false B :=
  repeat (apply andb_true_iff in B; let X := fresh in destruct B as [B X]);
  apply negb_true_iff in B; exact B.

Section Kept.

Variable k : jstring.
Variable v : jvalue.

(** The field [k] holds [v], and [k] is not empty or is not one of the
    fields that the merge fills in. *)
Hypothesis kept :
  truthy v = true \/ forall k', In k' filledFields -> jeqb k k' = false.

Lemma kept_for : forall k' m,
  In k' filledFields -> get k m = v ->
  truthy (get k m) = true \/ jeqb k k' = false.
Proof.
  intros k' m I E. destruct kept as [T | N].
  - left. rewrite E. exact T.
  - right. apply N. exact I.
Qed.

Lemma aliasField_keeps : forall k' alias m,
  In k' filledFields -> get k m = v -> get k (Node.aliasField k' alias m) = v.
Proof.
  intros k' alias m I E. unfold Node.aliasField.
  rewrite set_if_keeps; [exact E | | apply kept_for; assumption].
  intros B. guard_false B.
Qed.

Lemma node_mergeData_keeps : forall host extracted data,
  get k
    (set (str "totalCost")
       (VNum (nor_else (parseFloat (get (str "totalCost") data)) (num 0)))
       (set (str "duration")
          (VNum (nor_else (parseInt host true (get (str "duration") data)) (num 1)))
          (spread extracted data))) = v ->
  get k (Node.mergeData host extracted data) = v.
Proof.
  intros host extracted data E. cbv beta delta [Node.mergeData].
  peel_let; [exact E |].
  peel_let; [apply aliasField_keeps; [vm_compute; tauto | assumption] |].
  peel_let; [apply aliasField_keeps; [vm_compute; tauto | assumption] |].
  peel_let.
  { rewrite set_if_keeps; [assumption | | apply kept_for; [vm_compute; tauto | assumption]].
    intros B. guard_false B. }
  peel_let; [apply aliasField_keeps; [vm_compute; tauto | assumption] |].
  peel_let.
  { rewrite set_if_keeps; [assumption | | apply kept_for; [vm_compute; tauto | assumption]].
    intros B. guard_false B. }
  peel_let.
  { match goal with
    | |- context [get (str "itinerary") ?m] =>
        destruct (get (str "itinerary") m) as [| | b | x | s | [| firstStop l]]
    end; try assumption.
    rewrite set_if_keeps; [assumption | | apply kept_for; [vm_compute; tauto | assumption]].
    intros B. guard_false B. }
  match goal with
  | |- context [get (str "dutyStation") ?m] =>
      destruct (get (str "dutyStation") m) as [| | b | x | ds | l]
  end; try assumption.
  match goal with
  | |- context [if ?c then _ else _] => destruct c
  end; [| assumption].
  destruct (split "," ds) as [| p0 [| p1 ps]]; try assumption.
  cbv zeta.
  match goal with
  | |- get k (if _ then set _ _ ?m' else _) = v =>
      assert (E7 : get k m' = v)
  end.
  { rewrite set_if_keeps; [assumption | | apply kept_for; [vm_compute; tauto | assumption]].
    intros B. apply negb_true_iff in B. exact B. }
  rewrite set_if_keeps; [assumption | | apply kept_for; [vm_compute; tauto | assumption]].
  intros B. apply negb_true_iff in B. exact B.
Qed.

(** The same for the Apps Script build, whose merge can fail. *)
Lemma keep_let_some : forall (a : jobj) (f : jobj -> option jobj) (r : jobj),
  get k a = v ->
  (forall x, get k x = v -> f x = Some r -> get k r = v) ->
  (let x := a in f x) = Some r -> get k r = v.
Proof.
  intros a f r A F. cbv zeta. apply F. exact A.
Qed.

Ltac peel_some :=
  lazymatch goal with
  | |- (let x := ?a in @?f x) = Some ?r -> get ?kk ?r = ?vv =>
      apply (@keep_let_some a f r); [| let m := fresh "m" in let E := fresh "E" in intros m E; cbv beta]
  end.

Lemma gas_mergeData_keeps : forall host extracted data m,
  get k
    (set (str "totalCost")
       (VNum (nor_else (parseFloat (get (str "totalCost") (spread extracted data)))
                       (num 0)))
       (set (str "duration")
          (VNum (nor_else (parseInt host false
                             (get (str "duration") (spread extracted data)))
                          (num 1)))
          (spread extracted data))) = v ->
  GasMain.mergeData host extracted data = Some m ->
  get k m = v.
Proof.
  intros host extracted data r E. cbv beta delta [GasMain.mergeData].
  zeta_head. zeta_head.
  peel_some; [exact E |].
  peel_some; [apply aliasField_keeps; [vm_compute; tauto | assumption] |].
  peel_some; [apply aliasField_keeps; [vm_compute; tauto | assumption] |].
  peel_some.
  { rewrite set_if_keeps; [assumption | | apply kept_for; [vm_compute; tauto | assumption]].
    intros B. guard_false B. }
  peel_some; [apply aliasField_keeps; [vm_compute; tauto | assumption] |].
  peel_some.
  { rewrite set_if_keeps; [assumption | | apply kept_for; [vm_compute; tauto | assumption]].
    intros B. guard_false B. }
  match goal with
  | |- context [if ?c then _ else _] => destruct c
  end; [| intros X; injection X as <-; assumption].
  match goal with
  | |- context [get (str "dutyStation") ?m] =>
      destruct (get (str "dutyStation") m) as [| | b | x | ds | l]
  end; try discriminate.
  destruct (split "," ds) as [| p0 [| p1 ps]];
    try (intros X; injection X as <-; assumption).
  cbv zeta. intros X. injection X as <-.
  match goal with
  | |- get k (if _ then set _ _ ?m' else _) = v =>
      assert (E' : get k m' = v)
  end.
  { rewrite set_if_keeps; [assumption | | apply kept_for; [vm_compute; tauto | assumption]].
    intros B. apply negb_true_iff in B. exact B. }
  rewrite set_if_keeps; [assumption | | apply kept_for; [vm_compute; tauto | assumption]].
  intros B. apply negb_true_iff in B. exact B.
Qed.

End Kept.

Lemma get_spread_truthy : forall (k : jstring) (extracted data : jobj),
  truthy (get k data) = true -> get k (spread extracted data) = get k data.
Proof.
  intros k extracted data T. rewrite get_spread.
  destruct (existsb _ data) eqn:E; [reflexivity |].
  rewrite (get_unbound k data E) in T. discriminate T.
Qed.

(** X22 ([validateTarWithPerDiem]). In the merge of [validateTarWithPerDiem],
    for a field other than [duration] and [totalCost]: a manual value that is
    not empty is the value of the merged data, whatever was extracted; and
    when the manual input does not have the field, an extracted value that is
    not empty is. This holds in both builds. *)
Theorem manual_input_takes_precedence : forall host extracted data k,
  k <> str "duration" ->
  k <> str "totalCost" ->
  (truthy (get k data) = true ->
   get k (Node.mergeData host extracted data) = get k data
   /\ forall m, GasMain.mergeData host extracted data = Some m ->
                get k m = get k data)
  /\ (existsb (fun kv => jeqb k (fst kv)) data = false ->
      truthy (get k extracted) = true ->
      get k (Node.mergeData host extracted data) = get k extracted
      /\ forall m, GasMain.mergeData host extracted data = Some m ->
                   get k m = get k extracted).
Proof.
  intros host extracted data k N2 N1.
  apply jeqb_neq in N1. apply jeqb_neq in N2.
  split.
  - intros T.
    pose proof (get_spread_truthy k extracted data T) as E.
    split.
    + apply node_mergeData_keeps; [left; exact T |].
      rewrite !get_set, N1, N2. exact E.
    + intros m M.
      apply (@gas_mergeData_keeps k (get k data) (or_introl T)
               host extracted data m); [| exact M].
      rewrite !get_set, N1, N2. exact E.
  - intros U T.
    assert (E : get k (spread extracted data) = get k extracted).
    { rewrite get_spread, U. reflexivity. }
    split.
    + apply node_mergeData_keeps; [left; exact T |].
      rewrite !get_set, N1, N2. exact E.
    + intros m M.
      apply (@gas_mergeData_keeps k (get k extracted) (or_introl T)
               host extracted data m); [| exact M].
      rewrite !get_set, N1, N2. exact E.
Qed.

Lemma manual_input_takes_precedence_witness :
  get (str "travelerName")
      (Node.mergeData (offline (fun _ => None) [] (fun _ => []))
         [ (str "travelerName", VStr (str "E. Extracted")) ]
         [ (str "travelerName", VStr (str "M. Manual")) ])
  = VStr (str "M. Manual").
Proof.
  exact (proj1 (proj1 (@manual_input_takes_precedence
                         (offline (fun _ => None) [] (fun _ => []))
                         [ (str "travelerName", VStr (str "E. Extracted")) ]
                         [ (str "travelerName", VStr (str "M. Manual")) ]
                         (str "travelerName")
                         ltac:(discriminate) ltac:(discriminate))
                      eq_refl)).
Defined.

(** ** The numbers of the merged data *)

Lemma let_step : forall (P : jobj -> Prop) (k : jstring) (v : jvalue)
    (a : jobj) (f : jobj -> jobj),
  P a ->
  (forall x, P x -> get k (f x) = v) ->
  get k (let x := a in f x) = v.
Proof.
  intros P k v a f A F. cbv zeta. apply F. exact A.
Qed.

Lemma let_step_some : forall (P : jobj -> Prop) (k : jstring) (v : jvalue)
    (a : jobj) (f : jobj -> option jobj) (r : jobj),
  P a ->
  (forall x, P x -> f x = Some r -> get k r = v) ->
  (let x := a in f x) = Some r -> get k r = v.
Proof.
  intros P k v a f r A F. cbv zeta. apply F. exact A.
Qed.

Ltac peel_with P :=
  lazymatch goal with
  | |- get ?k (let x := ?a in @?f x) = ?v =>
      apply (@let_step P k v a f);
      [| let m := fresh "m" in let H := fresh "H" in intros m H; cbv beta]
  | |- (let x := ?a in @?f x) = Some ?r -> get ?k ?r = ?v =>
      apply (@let_step_some P k v a f r);
      [| let m := fresh "m" in let H := fresh "H" in intros m H; cbv beta]
  end.

(** A step that fills in another field keeps the field read. *)
Ltac other_field :=
  unfold Node.aliasField;
  rewrite set_if_keeps;
  [ assumption
  | let B := fresh "B" in intros B; guard_false B
  | right; reflexivity ].

Lemma nor_else_zero_defined : forall x, isNaN (nor_else x (num 0)) = false.
Proof.
  intros x. unfold nor_else. destruct x as [| s | q]; cbn [ntruthy isNaN]; try reflexivity.
  destruct (negb (qzero q)); reflexivity.
Qed.

Lemma nullish_falsy : forall v : jvalue, is_nullish v = true -> truthy v = false.
Proof.
  intros v. destruct v; cbn; intros H; (reflexivity || discriminate H).
Qed.

Section MergedCost.

Variable host : Host.
Variable v0 : jvalue.
Variable c : number.


Lemma before_alias : forall k' alias m,
  jeqb (str "estimatedCost") k' = false ->
  jeqb (str "totalCost") k' = false ->
  costsBefore v0 c m -> (costsBefore v0 c) (Node.aliasField k' alias m).
Proof.
  intros k' alias m N1 N2 [A B]. unfold costsBefore, Node.aliasField.
  split; (rewrite set_if_keeps;
          [assumption | intros X; guard_false X | right; assumption]).
Qed.

Lemma fallback_step : forall m,
  costsBefore v0 c m ->
  get (str "estimatedCost")
      (if negb (truthy (get (str "estimatedCost") m))
          && Node.is_number (get (str "totalCost") m)
       then set (str "estimatedCost") (get (str "totalCost") m) m else m)
  = estimateOr v0 c.
Proof.
  intros m [A B]. rewrite A, B. unfold estimateOr. cbn [Node.is_number].
  destruct (truthy v0); cbn [negb andb]; [exact A | reflexivity].
Qed.

Lemma node_estimatedCost : forall extracted data,
  get (str "estimatedCost") (spread extracted data) = v0 ->
  nor_else (parseFloat (get (str "totalCost") data)) (num 0) = c ->
  get (str "estimatedCost") (Node.mergeData host extracted data) = estimateOr v0 c.
Proof.
  intros extracted data E C. cbv beta delta [Node.mergeData].
  peel_with (costsBefore v0 c).
  { split; [exact E | rewrite get_set, C; reflexivity]. }
  peel_with (costsBefore v0 c); [apply before_alias; [reflexivity .. | assumption] |].
  peel_with (costsBefore v0 c); [apply before_alias; [reflexivity .. | assumption] |].
  peel_with (costsBefore v0 c).
  { destruct H1 as [A B]. split;
      (rewrite set_if_keeps;
       [assumption | intros X; guard_false X | right; reflexivity]). }
  peel_with (costsBefore v0 c); [apply before_alias; [reflexivity .. | assumption] |].
  peel_with (fun m => get (str "estimatedCost") m = estimateOr v0 c);
    [apply fallback_step; assumption |].
  peel_with (fun m => get (str "estimatedCost") m = estimateOr v0 c).
  { match goal with
    | |- context [get (str "itinerary") ?m] =>
        destruct (get (str "itinerary") m) as [| | b | x | s | [| firstStop l]]
    end; try assumption.
    other_field. }
  match goal with
  | |- context [get (str "dutyStation") ?m] =>
      destruct (get (str "dutyStation") m) as [| | b | x | ds | l]
  end; try assumption.
  match goal with
  | |- context [if ?b then _ else _] => destruct b
  end; [| assumption].
  destruct (split "," ds) as [| p0 [| p1 ps]]; try assumption.
  cbv zeta.
  match goal with
  | |- get ?k (if _ then set _ _ ?m' else _) = ?v =>
      assert (E' : get k m' = v)
  end.
  { rewrite set_if_keeps;
      [assumption | intros X; apply negb_true_iff in X; exact X | right; reflexivity]. }
  rewrite set_if_keeps;
    [assumption | intros X; apply negb_true_iff in X; exact X | right; reflexivity].
Qed.

Lemma gas_estimatedCost : forall extracted data m,
  get (str "estimatedCost") (spread extracted data) = v0 ->
  nor_else (parseFloat (get (str "totalCost") (spread extracted data))) (num 0) = c ->
  GasMain.mergeData host extracted data = Some m ->
  get (str "estimatedCost") m = estimateOr v0 c.
Proof.
  intros extracted data r E C. cbv beta delta [GasMain.mergeData].
  peel_with (fun m =>
               get (str "estimatedCost") m = v0
               /\ nor_else (parseFloat (get (str "totalCost") m)) (num 0) = c).
  { split; assumption. }
  peel_with (fun m =>
               get (str "estimatedCost") m = v0
               /\ nor_else (parseFloat (get (str "totalCost") m)) (num 0) = c).
  { destruct H as [A B]. split; [exact A | exact B]. }
  peel_with (costsBefore v0 c).
  { destruct H0 as [A B]. split; [exact A |].
    match goal with
    | |- get _ (set _ (VNum ?x) _) = _ => change (@VNum stop x = VNum c)
    end.
    rewrite B. reflexivity. }
  peel_with (costsBefore v0 c); [apply before_alias; [reflexivity .. | assumption] |].
  peel_with (costsBefore v0 c); [apply before_alias; [reflexivity .. | assumption] |].
  peel_with (costsBefore v0 c).
  { destruct H3 as [A B]. split;
      (rewrite set_if_keeps;
       [assumption | intros X; guard_false X | right; reflexivity]). }
  peel_with (costsBefore v0 c); [apply before_alias; [reflexivity .. | assumption] |].
  peel_with (fun m => get (str "estimatedCost") m = estimateOr v0 c);
    [apply fallback_step; assumption |].
  match goal with
  | |- context [if ?b then _ else _] => destruct b
  end; [| intros X; injection X as <-; assumption].
  match goal with
  | |- context [get (str "dutyStation") ?m] =>
      destruct (get (str "dutyStation") m) as [| | b | x | ds | l]
  end; try discriminate.
  destruct (split "," ds) as [| p0 [| p1 ps]];
    try (intros X; injection X as <-; assumption).
  cbv zeta. intros X. injection X as <-.
  match goal with
  | |- get ?k (if _ then set _ _ ?m' else _) = ?v =>
      assert (E' : get k m' = v)
  end.
  { rewrite set_if_keeps;
      [assumption | intros X; apply negb_true_iff in X; exact X | right; reflexivity]. }
  rewrite set_if_keeps;
    [assumption | intros X; apply negb_true_iff in X; exact X | right; reflexivity].
Qed.

End MergedCost.

Lemma not_filled : forall k : jstring,
  forallb (fun k' => negb (jeqb k k')) filledFields = true ->
  forall k', In k' filledFields -> jeqb k k' = false.
Proof.
  intros k H k' I. rewrite forallb_forall in H.
  apply negb_true_iff. apply H. exact I.
Qed.

Lemma nor_else_one_truthy : forall x, ntruthy (nor_else x (num 1)) = true.
Proof.
  intros x. unfold nor_else. destruct (ntruthy x) eqn:E; [exact E | reflexivity].
Qed.

(** X23 ([validateTarWithPerDiem]). The merged data always have a duration
    that is neither 0 nor NaN and a total cost that is not NaN, and their
    estimated cost is the merged estimate when that is not empty and the total
    cost otherwise. The Node build reads the duration and the total cost from
    the manual input alone, and so sets an extracted duration aside; the Apps
    Script build reads them from the merged object. *)
Theorem merged_numbers_are_normalised : forall host extracted data,
  (let d := nor_else (parseInt host true (get (str "duration") data)) (num 1) in
   let c := nor_else (parseFloat (get (str "totalCost") data)) (num 0) in
   ntruthy d = true /\ isNaN c = false
   /\ get (str "duration") (Node.mergeData host extracted data) = VNum d
   /\ get (str "totalCost") (Node.mergeData host extracted data) = VNum c
   /\ get (str "estimatedCost") (Node.mergeData host extracted data)
      = estimateOr (get (str "estimatedCost") (spread extracted data)) c)
  /\ (forall m, GasMain.mergeData host extracted data = Some m ->
      let merged := spread extracted data in
      let d := nor_else (parseInt host false (get (str "duration") merged)) (num 1) in
      let c := nor_else (parseFloat (get (str "totalCost") merged)) (num 0) in
      ntruthy d = true /\ isNaN c = false
      /\ get (str "duration") m = VNum d
      /\ get (str "totalCost") m = VNum c
      /\ get (str "estimatedCost") m
         = estimateOr (get (str "estimatedCost") merged) c).
Proof.
  intros host extracted data. split.
  - cbv zeta.
    split; [apply nor_else_one_truthy |]. split; [apply nor_else_zero_defined |].
    split; [| split].
    + apply node_mergeData_keeps.
      * right. apply not_filled. reflexivity.
      * reflexivity.
    + apply node_mergeData_keeps.
      * right. apply not_filled. reflexivity.
      * reflexivity.
    + apply node_estimatedCost; reflexivity.
  - intros m M. cbv zeta.
    split; [apply nor_else_one_truthy |]. split; [apply nor_else_zero_defined |].
    split; [| split].
    + refine (@gas_mergeData_keeps _ _ _ host extracted data m _ M).
      * right. apply not_filled. reflexivity.
      * reflexivity.
    + refine (@gas_mergeData_keeps _ _ _ host extracted data m _ M).
      * right. apply not_filled. reflexivity.
      * reflexivity.
    + apply (@gas_estimatedCost host _ _ extracted data m); [reflexivity | reflexivity | exact M].
Qed.
